(** * The CIF reader of KLayout (src/db/db/dbCIFReader.cc)

    A shallow embedding of [db::CIFReader]: the lexical layer, the recursive
    cell reader [read_cell] and the driver [do_read], followed by the
    properties of the reader that are established against it.

    Conventions of the embedding.
    - [int] and [unsigned int] are 32 bits wide; they are carried as [Z] and
      every arithmetic result is brought back into range by [wrap_int] or
      [wrap_uint].
    - [double] is the binary64 type of the kernel ([PrimFloat.float]).
    - The text stream is the list of characters still to be read.  Line
      numbers (used in diagnostics only) are not tracked.
    - [error] throws a [CIFReaderException]: a computation ends in [Throws]
      and carries the state reached at the throw.
    - The [while (true)] loop of [read_cell], the [while (! test_semi ())]
      loops and the recursion on [DS] are bounded by a fuel argument; a run
      that exhausts it ends in [OutOfFuel]. *)

From Stdlib Require Import ZArith NArith String Ascii List Bool Lia Floats DecimalString.
From stdpp Require Import base option list gmap strings.

Set Warnings "-inexact-float".

Open Scope Z_scope.

(** ** Machine integers *)

Definition INT_MAX : Z := 2147483647.

(** Value of a mathematical integer once stored in an [int]. *)
Definition wrap_int (z : Z) : Z := (z + 2 ^ 31) mod 2 ^ 32 - 2 ^ 31.

(** Value of a mathematical integer once stored in an [unsigned int]. *)
Definition wrap_uint (z : Z) : Z := z mod 2 ^ 32.

(** [double (i)] for an integer [i] (exact for every 32 bit value). *)
Definition double_of_int (z : Z) : float :=
  if z <? 0 then PrimFloat.opp (PrimFloat.of_uint63 (Uint63.of_Z (- z)))
  else PrimFloat.of_uint63 (Uint63.of_Z z).

(** [tl::to_string] of an unsigned number: its decimal digits. *)
Definition to_string (n : Z) : string :=
  NilZero.string_of_uint (N.to_uint (Z.to_N n)).

(** ** Character classes of <cctype> (C locale) *)

Definition stream := list ascii.

Definition char_is (c d : ascii) : bool := Ascii.eqb c d.

Definition char_between (lo hi c : ascii) : bool :=
  Ascii.leb lo c && Ascii.leb c hi.

Definition isdigit (c : ascii) : bool := char_between "0" "9" c.
Definition isupper (c : ascii) : bool := char_between "A" "Z" c.
Definition islower (c : ascii) : bool := char_between "a" "z" c.
Definition isspace (c : ascii) : bool :=
  char_is c " " || char_between "009" "013" c.

(** [int (c - '0')] *)
Definition digit_value (c : ascii) : Z := Z.of_N (N_of_ascii c) - 48.

(** ** Computations with state, exceptions and fuel *)

Inductive outcome (S A : Type) : Type :=
| Returns (a : A) (s : S)
| Throws (msg : string) (s : S)
| OutOfFuel.

Arguments Returns {S A} a s.
Arguments Throws {S A} msg s.
Arguments OutOfFuel {S A}.

Definition Comp (S A : Type) : Type := S -> outcome S A.

Definition ret {S A} (a : A) : Comp S A := fun s => Returns a s.

Definition bind {S A B} (m : Comp S A) (k : A -> Comp S B) : Comp S B :=
  fun s =>
    match m s with
    | Returns a s' => k a s'
    | Throws msg s' => Throws msg s'
    | OutOfFuel => OutOfFuel
    end.

Definition throw {S A} (msg : string) : Comp S A := fun s => Throws msg s.

Definition get_state {S} : Comp S S := fun s => Returns s s.
Definition put_state {S} (s : S) : Comp S unit := fun _ => Returns tt s.
Definition modify {S} (f : S -> S) : Comp S unit := fun s => Returns tt (f s).

Declare Scope comp_scope.
Delimit Scope comp_scope with comp.
Notation "x <- m ;; k" := (bind m (fun x => k))
  (at level 20, m at level 99, k at level 200, only parsing) : comp_scope.
Notation "m ;; k" := (bind m (fun _ => k))
  (at level 100, k at level 200, only parsing, right associativity) : comp_scope.
Notation "'when' b 'then' m" := (if b then m else ret tt)
  (at level 99, b at level 98, m at level 98, only parsing) : comp_scope.
Open Scope comp_scope.

(** ** The lexical layer

    The functions of this part only touch [m_stream]; they are computations
    over the stream alone and are lifted to the reader by [lex] below. *)

Definition Lex (A : Type) : Type := Comp stream A.

(** The stream abstraction ([tl::TextInputStream]).
    Modelled from the spec: the stream offers [get_char], [peek_char],
    [at_end] and [skip]; past the end [peek_char] and [get_char] give the
    NUL character. *)
Definition at_end : Lex bool :=
  fun str => Returns (match str with [] => true | _ => false end) str.

Definition peek_char : Lex ascii :=
  fun str => Returns (match str with [] => "000"%char | c :: _ => c end) str.

Definition stream_get_char : Lex ascii :=
  fun str => match str with
             | [] => Returns "000"%char []
             | c :: rest => Returns c rest
             end.

Fixpoint stream_skip_from (str : stream) : stream :=
  match str with
  | c :: rest => if isspace c then stream_skip_from rest else str
  | [] => []
  end.

Definition stream_skip : Lex unit := modify stream_skip_from.

(** [CIFReader::error] seen from the lexical layer: the exception leaves with
    its message; [lex] adds the cell name. *)
Definition lex_error (msg : string) : Lex unit := throw msg.

(** A blank in CIF is any character except digit, upper case, '-', '(', ')'
    and ';'. *)
Definition stops_blanks (c : ascii) : bool :=
  isupper c || isdigit c || char_is c "-" || char_is c "(" || char_is c ")"
  || char_is c ";".

Fixpoint skip_blanks_from (str : stream) : stream :=
  match str with
  | c :: rest => if stops_blanks c then str else skip_blanks_from rest
  | [] => []
  end.

Definition skip_blanks : Lex unit := modify skip_blanks_from.

Definition stops_sep (c : ascii) : bool :=
  isdigit c || char_is c "-" || char_is c "(" || char_is c ")" || char_is c ";".

Fixpoint skip_sep_from (str : stream) : stream :=
  match str with
  | c :: rest => if stops_sep c then str else skip_sep_from rest
  | [] => []
  end.

Definition skip_sep : Lex unit := modify skip_sep_from.

(** [skip_comment]: the reader is after the first '('; [bl] is the nesting
    level ([int bl = 0] at the call). *)
Fixpoint skip_comment_from (bl : Z) (str : stream) : stream :=
  match str with
  | [] => []
  | c :: rest =>
      if negb (char_is c ")") || (0 <? bl) then
        skip_comment_from
          (if char_is c "(" then wrap_int (bl + 1)
           else if char_is c ")" then wrap_int (bl - 1)
           else bl)
          rest
      else rest
  end.

Definition skip_comment : Lex unit := modify (skip_comment_from 0).

(** [CIFReader::get_char]: a character, or an error at the end of the
    stream. *)
Definition get_char : Lex ascii :=
  e <- at_end ;;
  if e then (lex_error "Unexpected end of file" ;; ret "000"%char)
  else stream_get_char.

Definition test_semi : Lex bool :=
  skip_blanks ;;
  e <- at_end ;;
  c <- peek_char ;;
  ret (negb e && char_is c ";").

Definition expect_semi : Lex unit :=
  b <- test_semi ;;
  if negb b then lex_error "Expected ';' command terminator"
  else (get_char ;; ret tt).

Fixpoint skip_to_end_from (str : stream) : stream :=
  match str with
  | c :: rest => if negb (char_is c ";") then skip_to_end_from rest else rest
  | [] => []
  end.

Definition skip_to_end : Lex unit := modify skip_to_end_from.

(** The inner loop of the overflow branch of [read_integer_digits]. *)
Fixpoint skip_digits_from (str : stream) : stream :=
  match str with
  | c :: rest => if isdigit c then skip_digits_from rest else str
  | [] => []
  end.

(** The [while] loop of [read_integer_digits], entered with accumulator
    [i].  The guard compares [i] with [INT_MAX / 10] before the next digit
    is taken; the statements that follow [error] in the source are kept in
    place. *)
Fixpoint read_integer_digits_from (i : Z) (str : stream) : outcome stream Z :=
  match str with
  | c :: rest =>
      if isdigit c then
        if INT_MAX / 10 <? i then
          (lex_error "Integer overflow" ;;
           modify skip_digits_from ;;
           ret 0) str
        else
          read_integer_digits_from (wrap_int (i * 10 + digit_value c)) rest
      else Returns i str
  | [] => Returns i []
  end.

Definition read_integer_digits : Lex Z :=
  e <- at_end ;;
  c <- peek_char ;;
  (when (e || negb (isdigit c)) then lex_error "Digit expected") ;;
  read_integer_digits_from 0.

Definition read_integer : Lex Z :=
  skip_sep ;;
  read_integer_digits.

Definition read_sinteger : Lex Z :=
  skip_sep ;;
  c <- peek_char ;;
  neg <- (if char_is c "-" then (stream_get_char ;; ret true) else ret false) ;;
  i <- read_integer_digits ;;
  ret (if neg : bool then wrap_int (- i) else i).

Definition is_name_char (c : ascii) : bool :=
  isupper c || islower c || char_is c "_" || isdigit c.

(** Longest prefix of characters satisfying [p], and what follows it. *)
Fixpoint span_chars (p : ascii -> bool) (str : stream) : string * stream :=
  match str with
  | c :: rest =>
      if p c then let '(w, r) := span_chars p rest in (String c w, r)
      else (EmptyString, str)
  | [] => (EmptyString, [])
  end.

Definition take_while (p : ascii -> bool) : Lex string :=
  fun str => let '(w, r) := span_chars p str in Returns w r.

(** [read_name]: officially only upper case and digits are allowed in names;
    lower case and "_" are accepted too. *)
Definition read_name : Lex string :=
  skip_blanks ;;
  take_while is_name_char.

(** Body of a quoted string: up to (not including) the closing quote [q],
    a backslash taking the next character literally. *)
Fixpoint read_quoted_from (q : ascii) (str : stream) : string * stream :=
  match str with
  | [] => (EmptyString, [])
  | c :: rest =>
      if char_is c q then (EmptyString, str)
      else if char_is c "\" then
        match rest with
        | c' :: rest' =>
            let '(w, r) := read_quoted_from q rest' in (String c' w, r)
        | [] => (String c EmptyString, [])
        end
      else let '(w, r) := read_quoted_from q rest in (String c w, r)
  end.

Definition read_string : Lex string :=
  stream_skip ;;
  e <- at_end ;;
  if e then ret EmptyString
  else
    q <- peek_char ;;
    if char_is q "034" || char_is q "'" then
      get_char ;;
      w <- (fun str => let '(w, r) := read_quoted_from q str in Returns w r) ;;
      e' <- at_end ;;
      (when negb e' then (get_char ;; ret tt)) ;;
      ret w
    else
      take_while (fun c => negb (isspace c) && negb (char_is c ";")).

(** [read_double] gathers the characters of a number; their conversion
    ([tl::from_string], which leaves 0.0 when it fails) belongs to the
    string library, so the gathered text is what the embedding returns. *)
Definition is_double_char (c : ascii) : bool :=
  isdigit c || char_is c "." || char_is c "-" || char_is c "e" || char_is c "E".

Definition read_double : Lex string :=
  stream_skip ;;
  take_while is_double_char.

(** ** Layer names *)

(** [extract_plain_layer]: a name that consists of digits only.  The name is
    a word gathered by [read_name], so the terminating NUL of the C string
    is the end of the word. *)
Fixpoint layer_digits (l : Z) (s : string) : Z * string :=
  match s with
  | String c rest =>
      if isdigit c then layer_digits (wrap_int (l * 10 + digit_value c)) rest
      else (l, s)
  | EmptyString => (l, s)
  end.

Definition extract_plain_layer (s : string) : option Z :=
  match s with
  | EmptyString => None
  | _ =>
      match layer_digits 0 s with
      | (l, EmptyString) => Some l
      | _ => None
      end
  end.

Definition starts_with_digit (s : string) : bool :=
  match s with
  | String c _ => isdigit c
  | EmptyString => false
  end.

(** [extract_ld]: an optional 'L', the layer digits, optionally 'D' or '.'
    and the datatype digits, then nothing or a blank or '_' and a name. *)
Definition extract_ld (s : string) : option (Z * Z * string) :=
  let s := match s with
           | String c rest => if char_is c "L" then rest else s
           | EmptyString => s
           end in
  if negb (starts_with_digit s) then None
  else
    let '(l, s) := layer_digits 0 s in
    let after_datatype :=
      match s with
      | String c rest =>
          if char_is c "D" || char_is c "." then
            if negb (starts_with_digit rest) then None
            else Some (layer_digits 0 rest)
          else Some (0, s)
      | EmptyString => Some (0, s)
      end in
    match after_datatype with
    | None => None
    | Some (d, s) =>
        match s with
        | String c rest =>
            if isspace c || char_is c "_" then Some (l, d, rest) else None
        | EmptyString => Some (l, d, EmptyString)
        end
    end.

(** ** The layout data base

    [db::Layout], its cells, shapes and layer table are collaborators of the
    reader that live in other files.  The definitions of this part model
    them as far as the reader calls them. *)

Record LayerProperties : Type := {
  lp_layer : Z;
  lp_datatype : Z;
  lp_name : string
}.

(** [db::LayerProperties ()]: no layer, no datatype, no name. *)
Definition LayerProperties_default : LayerProperties :=
  {| lp_layer := -1; lp_datatype := -1; lp_name := EmptyString |}.

(** A point or a vector built from two [double] values; the conversion to
    integer coordinates is the layout's. *)
Record Point : Type := { px : float; py : float }.

(** An integer coordinate: [coord_traits <Coord>::rounded (v)] or a
    literal. *)
Inductive Coord : Type :=
| rounded (v : float)
| coord (z : Z).

(** The height of a text: the [double h = 0.0] of the source, or the
    number read by [read_double], divided by the data base unit. *)
Inductive TextSize : Type :=
| size_default
| size_rounded (h : option string) (dbu : float).

Inductive Shape : Type :=
| Box (left bottom right top : float)
| Polygon (hull : list Point)
| Path (pts : list Point) (width bgn_ext end_ext : Coord) (round : bool)
| Text (text : string) (disp : Point) (size : TextSize).

(** The fixpoint transformations the reader uses. *)
Inductive FTrans : Type := m0 | m90.

(** [db::DCplxTrans] values as the reader builds them: the constructors it
    calls and the products it forms. *)
Inductive DCplxTrans : Type :=
| DCplxTrans_unit
| DCplxTrans_fixpoint (f : FTrans)
| DCplxTrans_disp (d : Point)
| DCplxTrans_rot (x y : Z)
| DCplxTrans_mul (a b : DCplxTrans).

(** Modelled from the spec: every factor above has unit magnification, and
    so has every product of them. *)
Definition is_mag (t : DCplxTrans) : bool := false.

(** The linear part of a transformation, exact and up to a positive scale:
    the images of the two unit vectors, in integers. *)
Definition Linear : Type := (Z * Z) * (Z * Z).

Definition linear_apply (m : Linear) (v : Z * Z) : Z * Z :=
  let '((a, c), (b, d)) := m in
  (a * fst v + b * snd v, c * fst v + d * snd v).

Definition linear_mul (m1 m2 : Linear) : Linear :=
  (linear_apply m1 (fst m2), linear_apply m1 (snd m2)).

(** Modelled from the spec: the linear part of the absent [db::DCplxTrans].
    The rotation [R x y] turns the x axis into the direction (x, y), [m0]
    mirrors at the x axis and [m90] at the y axis, a displacement has the
    identity as its linear part, and a product composes. *)
Fixpoint linear_part (t : DCplxTrans) : Linear :=
  match t with
  | DCplxTrans_unit => ((1, 0), (0, 1))
  | DCplxTrans_fixpoint m0 => ((1, 0), (0, -1))
  | DCplxTrans_fixpoint m90 => ((-1, 0), (0, 1))
  | DCplxTrans_disp _ => ((1, 0), (0, 1))
  | DCplxTrans_rot x y => ((x, y), (- y, x))
  | DCplxTrans_mul a b => linear_mul (linear_part a) (linear_part b)
  end.

(** Modelled from the spec: [is_ortho] of the absent [db::DCplxTrans] tells
    whether the composed transformation is an orthogonal rotation or mirror,
    that is whether it turns the x axis onto an axis. *)
Definition is_ortho (t : DCplxTrans) : bool :=
  let '(a, c) := fst (linear_part t) in (a =? 0) || (c =? 0).

(** The transformation of an instance: [db::Trans (db::ICplxTrans (t))] or
    [db::ICplxTrans (t)]. *)
Inductive InstTrans : Type :=
| SimpleTrans (t : DCplxTrans)
| ComplexTrans (t : DCplxTrans).

Record ArraySpec : Type := {
  arr_a : Point;
  arr_b : Point;
  arr_na : Z;
  arr_nb : Z
}.

Record CellInstArray : Type := {
  inst_cell : nat;
  inst_trans : InstTrans;
  inst_array : option ArraySpec
}.

Record Cell : Type := {
  cell_name : string;
  cell_shapes : list (Z * Shape);
  cell_insts : list CellInstArray
}.

(** Cells are addressed by index; a deleted cell leaves its slot empty. *)
Record Layout : Type := {
  cells : list (option Cell);
  layers : gmap Z LayerProperties;
  layout_dbu : float
}.

Definition with_cells (f : list (option Cell) -> list (option Cell))
    (lay : Layout) : Layout :=
  {| cells := f (cells lay); layers := layers lay;
     layout_dbu := layout_dbu lay |}.

Definition with_layers (f : gmap Z LayerProperties -> gmap Z LayerProperties)
    (lay : Layout) : Layout :=
  {| cells := cells lay; layers := f (layers lay);
     layout_dbu := layout_dbu lay |}.

Definition set_dbu (d : float) (lay : Layout) : Layout :=
  {| cells := cells lay; layers := layers lay; layout_dbu := d |}.

Definition new_cell (name : string) : Cell :=
  {| cell_name := name; cell_shapes := []; cell_insts := [] |}.

(** Modelled from the spec: [layout.add_cell (name)] of the absent
    [db::Layout] makes a new, empty cell of that name and gives its index. *)
Definition add_cell (name : string) (lay : Layout) : nat * Layout :=
  (length (cells lay), with_cells (fun cs => cs ++ [Some (new_cell name)]) lay).

(** Modelled from the spec: [layout.delete_cell (ci)] of the absent
    [db::Layout] removes the cell; the indices of the others stay. *)
Definition delete_cell (ci : nat) : Layout -> Layout :=
  with_cells (fun cs => <[ci := None]> cs).

(** Applies [f] to the cell [ci] when there is one. *)
Definition update_cell (ci : nat) (f : Cell -> Cell) : Layout -> Layout :=
  with_cells (fun cs =>
    match cs !! ci with
    | Some (Some c) => <[ci := Some (f c)]> cs
    | _ => cs
    end).

(** Modelled from the spec: [layout.rename_cell (ci, name)] of the absent
    [db::Layout]. *)
Definition rename_cell (ci : nat) (name : string) : Layout -> Layout :=
  update_cell ci (fun c =>
    {| cell_name := name; cell_shapes := cell_shapes c;
       cell_insts := cell_insts c |}).

(** Modelled from the spec: [cell.shapes (layer).insert (sh)] of the absent
    [db::Cell] adds the shape to the cell on that layer. *)
Definition insert_shape (ci : nat) (layer : Z) (sh : Shape) : Layout -> Layout :=
  update_cell ci (fun c =>
    {| cell_name := cell_name c;
       cell_shapes := cell_shapes c ++ [(layer, sh)];
       cell_insts := cell_insts c |}).

(** Modelled from the spec: [cell.insert (inst)] of the absent [db::Cell]
    adds the instance to the cell. *)
Definition insert_inst (ci : nat) (inst : CellInstArray) : Layout -> Layout :=
  update_cell ci (fun c =>
    {| cell_name := cell_name c; cell_shapes := cell_shapes c;
       cell_insts := cell_insts c ++ [inst] |}).

Definition name_used (lay : Layout) (name : string) : bool :=
  existsb (fun c => match c with
                    | Some c => String.eqb (cell_name c) name
                    | None => false
                    end) (cells lay).

Fixpoint uniquify_from (lay : Layout) (base : string) (k : Z) (tries : nat)
    : string :=
  let candidate := (base +:+ "$" +:+ to_string k)%string in
  match tries with
  | O => candidate
  | S tries' =>
      if name_used lay candidate then uniquify_from lay base (k + 1) tries'
      else candidate
  end.

(** Modelled from the spec: [layout.uniquify_cell_name (base)] of the absent
    [db::Layout] gives a unique name derived from [base]: [base] when no cell
    bears it, else [base] with the first free numeric suffix. *)
Definition uniquify_cell_name (base : string) (lay : Layout) : string :=
  if name_used lay base then uniquify_from lay base 1 (length (cells lay))
  else base.

(** Modelled from the spec: the layer table of the absent [db::Layout],
    with [is_valid_layer], [insert_layer] and [set_properties]. *)
Definition is_valid_layer (index : Z) (lay : Layout) : bool :=
  bool_decide (is_Some (layers lay !! index)).

Definition insert_layer (index : Z) (lp : LayerProperties) : Layout -> Layout :=
  with_layers (fun ls => <[index := lp]> ls).

Definition set_properties (index : Z) (lp : LayerProperties)
    : Layout -> Layout :=
  with_layers (fun ls => <[index := lp]> ls).

(** Modelled from the spec: the layer mapping of the absent [db::LayerMap],
    entries binding a layer specification to a layout layer index, looked up
    by layer and datatype first and by name second. *)
Record LayerMap : Type := {
  lm_entries : list (LayerProperties * Z);
  lm_next_index : Z
}.

Definition logical_name (name : string) (lm : LayerMap) : option Z :=
  snd <$> List.find (fun e => String.eqb (lp_name (fst e)) name) (lm_entries lm).

Definition logical_ld (l d : Z) (lm : LayerMap) : option Z :=
  snd <$> List.find (fun e => (lp_layer (fst e) =? l) && (lp_datatype (fst e) =? d))
            (lm_entries lm).

Definition logical (lp : LayerProperties) (lm : LayerMap) : option Z :=
  match (if (0 <=? lp_layer lp) && (0 <=? lp_datatype lp)
         then logical_ld (lp_layer lp) (lp_datatype lp) lm else None) with
  | Some i => Some i
  | None =>
      if negb (String.eqb (lp_name lp) EmptyString)
      then logical_name (lp_name lp) lm else None
  end.

Definition mapping (index : Z) (lm : LayerMap) : LayerProperties :=
  match List.find (fun e => snd e =? index) (lm_entries lm) with
  | Some e => fst e
  | None => LayerProperties_default
  end.

Definition map_layer (lp : LayerProperties) (index : Z) (lm : LayerMap)
    : LayerMap :=
  {| lm_entries := lm_entries lm ++ [(lp, index)];
     lm_next_index := Z.max (lm_next_index lm) (index + 1) |}.

Definition next_index (lm : LayerMap) : Z := lm_next_index lm.

(** ** The reader *)

(** The commands of the dispatcher, empty commands and comments apart.
    [cmd_log] below records them in the order in which [read_cell] takes
    them up; it is not a member of the C++ object and nothing in the reader
    reads it. *)
Inductive Command : Type :=
| CmdE
| CmdDS (n : Z) | CmdDF | CmdDD | CmdDInvalid
| CmdC (n : Z) | CmdL
| CmdB | CmdP | CmdR | CmdW
| Cmd93 | Cmd94 | Cmd95 | Cmd98 | Cmd9 | CmdDigit
| CmdUnknown.

(** The members of [CIFReader] next to the layout the reader fills (the
    [db::Layout &] handed through every call) and the warning channel. *)
Record state : Type := {
  m_stream : stream;
  m_cellname : string;
  m_cells_by_id : gmap Z nat;
  m_new_layers : list (string * Z);
  m_next_layer_index : Z;
  m_layer_map : LayerMap;
  m_create_layers : bool;
  m_wire_mode : Z;
  m_dbu : float;
  layout : Layout;
  warnings : list (string * string);
  cmd_log : list Command
}.

Definition set_stream (v : stream) (s : state) : state :=
  {| m_stream := v; m_cellname := m_cellname s;
     m_cells_by_id := m_cells_by_id s; m_new_layers := m_new_layers s;
     m_next_layer_index := m_next_layer_index s; m_layer_map := m_layer_map s;
     m_create_layers := m_create_layers s; m_wire_mode := m_wire_mode s;
     m_dbu := m_dbu s; layout := layout s; warnings := warnings s;
     cmd_log := cmd_log s |}.

Definition set_cellname (v : string) (s : state) : state :=
  {| m_stream := m_stream s; m_cellname := v;
     m_cells_by_id := m_cells_by_id s; m_new_layers := m_new_layers s;
     m_next_layer_index := m_next_layer_index s; m_layer_map := m_layer_map s;
     m_create_layers := m_create_layers s; m_wire_mode := m_wire_mode s;
     m_dbu := m_dbu s; layout := layout s; warnings := warnings s;
     cmd_log := cmd_log s |}.

Definition set_cells_by_id (v : gmap Z nat) (s : state) : state :=
  {| m_stream := m_stream s; m_cellname := m_cellname s;
     m_cells_by_id := v; m_new_layers := m_new_layers s;
     m_next_layer_index := m_next_layer_index s; m_layer_map := m_layer_map s;
     m_create_layers := m_create_layers s; m_wire_mode := m_wire_mode s;
     m_dbu := m_dbu s; layout := layout s; warnings := warnings s;
     cmd_log := cmd_log s |}.

Definition set_new_layers (v : list (string * Z)) (s : state) : state :=
  {| m_stream := m_stream s; m_cellname := m_cellname s;
     m_cells_by_id := m_cells_by_id s; m_new_layers := v;
     m_next_layer_index := m_next_layer_index s; m_layer_map := m_layer_map s;
     m_create_layers := m_create_layers s; m_wire_mode := m_wire_mode s;
     m_dbu := m_dbu s; layout := layout s; warnings := warnings s;
     cmd_log := cmd_log s |}.

Definition set_next_layer_index (v : Z) (s : state) : state :=
  {| m_stream := m_stream s; m_cellname := m_cellname s;
     m_cells_by_id := m_cells_by_id s; m_new_layers := m_new_layers s;
     m_next_layer_index := v; m_layer_map := m_layer_map s;
     m_create_layers := m_create_layers s; m_wire_mode := m_wire_mode s;
     m_dbu := m_dbu s; layout := layout s; warnings := warnings s;
     cmd_log := cmd_log s |}.

Definition set_layer_map (v : LayerMap) (s : state) : state :=
  {| m_stream := m_stream s; m_cellname := m_cellname s;
     m_cells_by_id := m_cells_by_id s; m_new_layers := m_new_layers s;
     m_next_layer_index := m_next_layer_index s; m_layer_map := v;
     m_create_layers := m_create_layers s; m_wire_mode := m_wire_mode s;
     m_dbu := m_dbu s; layout := layout s; warnings := warnings s;
     cmd_log := cmd_log s |}.

Definition set_layout (v : Layout) (s : state) : state :=
  {| m_stream := m_stream s; m_cellname := m_cellname s;
     m_cells_by_id := m_cells_by_id s; m_new_layers := m_new_layers s;
     m_next_layer_index := m_next_layer_index s; m_layer_map := m_layer_map s;
     m_create_layers := m_create_layers s; m_wire_mode := m_wire_mode s;
     m_dbu := m_dbu s; layout := v; warnings := warnings s;
     cmd_log := cmd_log s |}.

Definition set_warnings (v : list (string * string)) (s : state) : state :=
  {| m_stream := m_stream s; m_cellname := m_cellname s;
     m_cells_by_id := m_cells_by_id s; m_new_layers := m_new_layers s;
     m_next_layer_index := m_next_layer_index s; m_layer_map := m_layer_map s;
     m_create_layers := m_create_layers s; m_wire_mode := m_wire_mode s;
     m_dbu := m_dbu s; layout := layout s; warnings := v;
     cmd_log := cmd_log s |}.

Definition set_cmd_log (v : list Command) (s : state) : state :=
  {| m_stream := m_stream s; m_cellname := m_cellname s;
     m_cells_by_id := m_cells_by_id s; m_new_layers := m_new_layers s;
     m_next_layer_index := m_next_layer_index s; m_layer_map := m_layer_map s;
     m_create_layers := m_create_layers s; m_wire_mode := m_wire_mode s;
     m_dbu := m_dbu s; layout := layout s; warnings := warnings s;
     cmd_log := v |}.

Definition M (A : Type) : Type := Comp state A.

(** A function of the lexical layer run on [m_stream]. *)
Definition lex {A} (l : Lex A) : M A :=
  fun s =>
    match l (m_stream s) with
    | Returns a rest => Returns a (set_stream rest s)
    | Throws msg rest => Throws msg (set_stream rest s)
    | OutOfFuel => OutOfFuel
    end.

(** [CIFReader::error]: throws [CIFReaderException (msg, line, m_cellname)];
    the cell name of the exception is the one of the state it leaves. *)
Definition error (msg : string) : M unit := throw msg.

Definition exception {A} (o : outcome state A) : option (string * string) :=
  match o with
  | Throws msg s => Some (msg, m_cellname s)
  | _ => None
  end.

(** [CIFReader::warn]: the message and the current cell name go to the
    warning channel. *)
Definition warn (msg : string) : M unit :=
  modify (fun s => set_warnings (warnings s ++ [(msg, m_cellname s)]) s).

Definition log_command (c : Command) : M unit :=
  modify (fun s => set_cmd_log (cmd_log s ++ [c]) s).

Definition on_layout (f : Layout -> Layout) : M unit :=
  modify (fun s => set_layout (f (layout s)) s).

(** [std::swap (m_cellname, outer_cell)]: installs [name] and gives back
    the name it replaces. *)
Definition swap_cellname (name : string) : M string :=
  fun s => Returns (m_cellname s) (set_cellname name s).

(** [std::map::insert] keeps an entry that is already there; the entries
    stay ordered by name, the order in which the map is traversed. *)
Fixpoint new_layers_insert (name : string) (ll : Z) (m : list (string * Z))
    : list (string * Z) :=
  match m with
  | [] => [(name, ll)]
  | (k, v) :: rest =>
      match String.compare name k with
      | Lt => (name, ll) :: m
      | Eq => m
      | Gt => (k, v) :: new_layers_insert name ll rest
      end
  end.

Definition new_layers_find (name : string) (m : list (string * Z)) : option Z :=
  snd <$> List.find (fun e => String.eqb (fst e) name) m.

(** [floor] of <cmath>, through the mantissa and exponent of its argument. *)
Definition floor (x : float) : float :=
  match Prim2SF x with
  | S754_finite neg m e =>
      if 0 <=? e then x
      else
        let q := Z.shiftr (Z.pos m) (- e) in
        if Z.shiftl q (- e) =? Z.pos m then x
        else if neg then double_of_int (- (q + 1))
        else double_of_int q
  | _ => x
  end.

(** The locals of [read_cell].  The scratch vector [poly_pts] is cleared
    before each use; the commands build its content directly. *)
Record locals : Type := {
  nx : Z; ny : Z; dx : Z; dy : Z;
  layer : Z;
  path_mode : Z;
  insts : Z;
  shapes : Z;
  layer_specs : Z
}.

(** Counters are [size_t] values (64 bits). *)
Definition wrap_size (z : Z) : Z := z mod 2 ^ 64.

Definition init_locals : locals :=
  {| nx := 0; ny := 0; dx := 0; dy := 0; layer := -2; path_mode := -1;
     insts := 0; shapes := 0; layer_specs := 0 |}.

Definition set_array (a b c d : Z) (l : locals) : locals :=
  {| nx := a; ny := c; dx := b; dy := d; layer := layer l;
     path_mode := path_mode l; insts := insts l; shapes := shapes l;
     layer_specs := layer_specs l |}.

Definition set_layer (v : Z) (l : locals) : locals :=
  {| nx := nx l; ny := ny l; dx := dx l; dy := dy l; layer := v;
     path_mode := path_mode l; insts := insts l; shapes := shapes l;
     layer_specs := layer_specs l |}.

Definition set_path_mode (v : Z) (l : locals) : locals :=
  {| nx := nx l; ny := ny l; dx := dx l; dy := dy l; layer := layer l;
     path_mode := v; insts := insts l; shapes := shapes l;
     layer_specs := layer_specs l |}.

Definition incr_insts (l : locals) : locals :=
  {| nx := nx l; ny := ny l; dx := dx l; dy := dy l; layer := layer l;
     path_mode := path_mode l; insts := wrap_size (insts l + 1);
     shapes := shapes l; layer_specs := layer_specs l |}.

Definition incr_shapes (l : locals) : locals :=
  {| nx := nx l; ny := ny l; dx := dx l; dy := dy l; layer := layer l;
     path_mode := path_mode l; insts := insts l;
     shapes := wrap_size (shapes l + 1); layer_specs := layer_specs l |}.

Definition incr_layer_specs (l : locals) : locals :=
  {| nx := nx l; ny := ny l; dx := dx l; dy := dy l; layer := layer l;
     path_mode := path_mode l; insts := insts l; shapes := shapes l;
     layer_specs := wrap_size (layer_specs l + 1) |}.

(** ** The commands of [read_cell]

    A call of [error] throws, so the statements the source places after one
    (skipping to the end of the faulty command) are never reached; they are
    kept in [read_integer_digits_from] and left out below. *)

Definition mul_int (sf : float) (v : Z) : float := (sf * double_of_int v)%float.

Definition int_mul (v : Z) (sf : float) : float := (double_of_int v * sf)%float.

(** The transformation list of a [C] command: the loop
    [while (! test_semi ()) { ... }] with the transformation built so far. *)
Fixpoint read_transformation (fuel : nat) (sf : float) (trans : DCplxTrans)
    : Lex DCplxTrans :=
  match fuel with
  | O => fun _ => OutOfFuel
  | S fuel' =>
      semi <- test_semi ;;
      if semi then ret trans
      else
        skip_blanks ;;
        ct <- get_char ;;
        trans' <-
          (if char_is ct "M" then
             skip_blanks ;;
             ct2 <- get_char ;;
             if char_is ct2 "X" then
               ret (DCplxTrans_mul (DCplxTrans_fixpoint m90) trans)
             else if char_is ct2 "Y" then
               ret (DCplxTrans_mul (DCplxTrans_fixpoint m0) trans)
             else
               lex_error "Invalid 'M' transformation specification" ;;
               ret trans
           else if char_is ct "T" then
             x <- read_sinteger ;;
             y <- read_sinteger ;;
             ret (DCplxTrans_mul
                    (DCplxTrans_disp {| px := int_mul x sf; py := int_mul y sf |})
                    trans)
           else if char_is ct "R" then
             x <- read_sinteger ;;
             y <- read_sinteger ;;
             if negb (y =? 0) || negb (x =? 0) then
               ret (DCplxTrans_mul (DCplxTrans_rot x y) trans)
             else ret trans
           else
             lex_error "Invalid transformation specification" ;;
             ret trans) ;;
        read_transformation fuel' sf trans'
  end.

(** The point list of a [P] or [W] command. *)
Fixpoint read_points (fuel : nat) (sf : float) (poly_pts : list Point)
    : Lex (list Point) :=
  match fuel with
  | O => fun _ => OutOfFuel
  | S fuel' =>
      semi <- test_semi ;;
      if semi then ret poly_pts
      else
        rx <- read_sinteger ;;
        ry <- read_sinteger ;;
        read_points fuel' sf
          (poly_pts ++ [{| px := mul_int sf rx; py := mul_int sf ry |}])
  end.

(** The instance a [C] command inserts. *)
Definition classify_trans (trans : DCplxTrans) : InstTrans :=
  if is_ortho trans && negb (is_mag trans) then SimpleTrans trans
  else ComplexTrans trans.

Definition make_instance (sf : float) (l : locals) (ci : nat)
    (trans : DCplxTrans) : CellInstArray :=
  if (0 <? nx l) || (0 <? ny l) then
    {| inst_cell := ci;
       inst_trans := classify_trans trans;
       inst_array :=
         Some {| arr_a := {| px := int_mul (dx l) sf; py := 0 |};
                 arr_b := {| px := 0; py := int_mul (dy l) sf |};
                 arr_na := Z.max 1 (nx l);
                 arr_nb := Z.max 1 (ny l) |} |}
  else
    {| inst_cell := ci;
       inst_trans := classify_trans trans;
       inst_array := None |}.

(** The shape a [B] command inserts. *)
Definition box_shape (sf : float) (w h x y rx ry : Z) : Shape :=
  let w := double_of_int w in
  let h := double_of_int h in
  let x := double_of_int x in
  let y := double_of_int y in
  if (0 <=? rx) && (ry =? 0) then
    Box (sf * (x - 0.5 * w)) (sf * (y - 0.5 * h))
        (sf * (x + 0.5 * w)) (sf * (y + 0.5 * h))
  else
    let rx := double_of_int rx in
    let ry := double_of_int ry in
    let n := (1 / PrimFloat.sqrt (rx * rx + ry * ry))%float in
    let xw := (sf * w * 0.5 * rx * n)%float in
    let yw := (sf * w * 0.5 * ry * n)%float in
    let xh := (- sf * h * 0.5 * ry * n)%float in
    let yh := (sf * h * 0.5 * rx * n)%float in
    Polygon [ {| px := x - xw - xh; py := y - yw - yh |};
              {| px := x - xw + xh; py := y - yw + yh |};
              {| px := x + xw + xh; py := y + yw + yh |};
              {| px := x + xw - xh; py := y + yw - yh |} ].

(** The path a [W] command inserts: flush, round or square ended. *)
Definition wire_shape (wire_mode path_mode : Z) (sf : float) (w : Z)
    (poly_pts : list Point) : Shape :=
  let half := rounded (mul_int sf w / 2) in
  if (path_mode =? 0) || ((path_mode <? 0) && (wire_mode =? 1)) then
    Path poly_pts (rounded (mul_int sf w)) (coord 0) (coord 0) false
  else if (path_mode =? 1) || ((path_mode <? 0) && (wire_mode =? 2)) then
    Path poly_pts (rounded (mul_int sf w)) half half true
  else
    Path poly_pts (rounded (mul_int sf w)) half half false.

(** The path an [R] command inserts. *)
Definition flash_shape (sf : float) (w : Z) (poly_pts : list Point) : Shape :=
  let half := rounded (mul_int sf w / 2) in
  Path poly_pts (rounded (mul_int sf w)) half half true.

(** The common head of the shape commands on a layer that is not there:
    a warning unless the layer was masked. *)
Definition warn_no_layer (l : locals) (msg : string) : M unit :=
  when (layer l <? -1) then warn msg.

Section Commands.

(** The nested call of [read_cell] (for [DS]) and the fuel of the loops
    inside a command. *)
Variable read_cell : nat -> float -> Z -> M bool.
Variable fuel : nat.

(** The cell under construction, the scale factor and the nesting level. *)
Variable cell : nat.
Variable sf : float.
Variable level : Z.

Definition command_E (l : locals) : M locals :=
  log_command CmdE ;;
  (when (0 <? level) then
     error "'E' command must be outside a cell specification") ;;
  lex skip_blanks ;;
  ret l.

Definition command_DS (l : locals) : M locals :=
  n <- lex read_integer ;;
  let n := wrap_uint n in
  semi <- lex test_semi ;;
  scale <- (if negb semi then
              denom <- lex read_integer ;;
              divider <- lex read_integer ;;
              ret (wrap_uint denom, wrap_uint divider)
            else ret (1, 1)) ;;
  let '(denom, divider) := scale in
  lex expect_semi ;;
  log_command (CmdDS n) ;;
  outer_cell <- swap_cellname ("C" +:+ to_string n)%string ;;
  s <- get_state ;;
  ci <- match m_cells_by_id s !! n with
        | None =>
            let '(ci, lay) := add_cell (m_cellname s) (layout s) in
            put_state (set_cells_by_id (<[n := ci]> (m_cells_by_id s))
                         (set_layout lay s)) ;;
            ret ci
        | Some ci => ret ci
        end ;;
  read_cell ci (sf * double_of_int denom / double_of_int divider)%float
    (wrap_int (level + 1)) ;;
  swap_cellname outer_cell ;;
  ret l.

Definition command_DF (l : locals) : M locals :=
  log_command CmdDF ;;
  (when (level =? 0) then
     error "'DS' command must be inside a cell specification") ;;
  lex skip_to_end ;;
  ret l.

Definition command_DD (l : locals) : M locals :=
  log_command CmdDD ;;
  lex read_integer ;;
  warn "DD command ignored" ;;
  lex skip_to_end ;;
  ret l.

Definition command_C (l : locals) : M locals :=
  let l := incr_insts l in
  n <- lex read_integer ;;
  let n := wrap_uint n in
  log_command (CmdC n) ;;
  s <- get_state ;;
  ci <- match m_cells_by_id s !! n with
        | None =>
            let cn := ("C" +:+ to_string n)%string in
            let '(ci, lay) := add_cell cn (layout s) in
            put_state (set_cells_by_id (<[n := ci]> (m_cells_by_id s))
                         (set_layout lay s)) ;;
            ret ci
        | Some ci => ret ci
        end ;;
  trans <- lex (read_transformation fuel sf DCplxTrans_unit) ;;
  on_layout (insert_inst cell (make_instance sf l ci trans)) ;;
  let l := set_array 0 0 0 0 l in
  lex expect_semi ;;
  ret l.

Definition command_L (l : locals) : M locals :=
  log_command CmdL ;;
  lex skip_blanks ;;
  let l := incr_layer_specs l in
  name <- lex read_name ;;
  (when String.eqb name EmptyString then
     error "Missing layer name in 'L' command") ;;
  s <- get_state ;;
  let ll :=
    match logical_name name (m_layer_map s) with
    | Some i => Some i
    | None =>
        match extract_plain_layer name with
        | Some lnum =>
            logical {| lp_layer := lnum; lp_datatype := 0;
                       lp_name := EmptyString |} (m_layer_map s)
        | None =>
            match extract_ld name with
            | Some (lnum, d, on) =>
                logical {| lp_layer := lnum; lp_datatype := d;
                           lp_name := on |} (m_layer_map s)
            | None => None
            end
        end
    end in
  l <- match ll with
       | Some index =>
           (when negb (is_valid_layer index (layout s)) then
              on_layout (insert_layer index (mapping index (m_layer_map s)))) ;;
           ret (set_layer (wrap_int index) l)
       | None =>
           if negb (m_create_layers s) then ret (set_layer (-1) l)
           else
             match new_layers_find name (m_new_layers s) with
             | None =>
                 let ll := m_next_layer_index s in
                 modify (set_next_layer_index (wrap_uint (ll + 1))) ;;
                 on_layout (insert_layer ll LayerProperties_default) ;;
                 modify (fun s =>
                   set_new_layers (new_layers_insert name ll (m_new_layers s)) s) ;;
                 ret (set_layer (wrap_int ll) l)
             | Some index => ret (set_layer (wrap_int index) l)
             end
       end ;;
  lex expect_semi ;;
  ret l.

Definition command_B (l : locals) : M locals :=
  log_command CmdB ;;
  let l := incr_shapes l in
  if layer l <? 0 then
    warn_no_layer l "'B' command ignored since no layer was selected" ;;
    lex skip_to_end ;;
    ret l
  else
    w <- lex read_integer ;;
    h <- lex read_integer ;;
    x <- lex read_sinteger ;;
    y <- lex read_sinteger ;;
    semi <- lex test_semi ;;
    r <- (if negb semi then
            rx <- lex read_sinteger ;;
            ry <- lex read_sinteger ;;
            ret (rx, ry)
          else ret (0, 0)) ;;
    let '(rx, ry) := r in
    on_layout (insert_shape cell (wrap_uint (layer l))
                 (box_shape sf (wrap_uint w) (wrap_uint h) x y rx ry)) ;;
    lex expect_semi ;;
    ret l.

Definition command_P (l : locals) : M locals :=
  log_command CmdP ;;
  let l := incr_shapes l in
  if layer l <? 0 then
    warn_no_layer l "'P' command ignored since no layer was selected" ;;
    lex skip_to_end ;;
    ret l
  else
    poly_pts <- lex (read_points fuel sf []) ;;
    on_layout (insert_shape cell (wrap_uint (layer l)) (Polygon poly_pts)) ;;
    lex expect_semi ;;
    ret l.

Definition command_R (l : locals) : M locals :=
  log_command CmdR ;;
  let l := incr_shapes l in
  if layer l <? 0 then
    warn_no_layer l "'R' command ignored since no layer was selected" ;;
    lex skip_to_end ;;
    ret l
  else
    w <- lex read_integer ;;
    rx <- lex read_sinteger ;;
    ry <- lex read_sinteger ;;
    let poly_pts := [{| px := mul_int sf rx; py := mul_int sf ry |}] in
    on_layout (insert_shape cell (wrap_uint (layer l))
                 (flash_shape sf w poly_pts)) ;;
    lex expect_semi ;;
    ret l.

Definition command_W (l : locals) : M locals :=
  log_command CmdW ;;
  let l := incr_shapes l in
  if layer l <? 0 then
    warn_no_layer l "'W' command ignored since no layer was selected" ;;
    lex skip_to_end ;;
    ret l
  else
    w <- lex read_integer ;;
    poly_pts <- lex (read_points fuel sf []) ;;
    s <- get_state ;;
    on_layout (insert_shape cell (wrap_uint (layer l))
                 (wire_shape (m_wire_mode s) (path_mode l) sf w poly_pts)) ;;
    lex expect_semi ;;
    ret l.

Definition command_93 (l : locals) : M locals :=
  log_command Cmd93 ;;
  lex get_char ;;
  a <- lex read_sinteger ;;
  b <- lex read_sinteger ;;
  c <- lex read_sinteger ;;
  d <- lex read_sinteger ;;
  ret (set_array a b c d l).

Definition command_94 (l : locals) : M locals :=
  log_command Cmd94 ;;
  lex get_char ;;
  let l := incr_shapes l in
  if layer l <? 0 then
    warn_no_layer l "'94' command ignored since no layer was selected" ;;
    ret l
  else
    text <- lex read_string ;;
    rx <- lex read_sinteger ;;
    ry <- lex read_sinteger ;;
    semi <- lex test_semi ;;
    h <- (if negb semi then v <- lex read_double ;; ret (Some v)
          else ret None) ;;
    name <- lex read_name ;;
    s <- get_state ;;
    let target :=
      if negb (String.eqb name EmptyString) then
        match logical_name name (m_layer_map s) with
        | Some index => index
        | None => wrap_uint (layer l)
        end
      else wrap_uint (layer l) in
    on_layout (insert_shape cell target
                 (Text text {| px := mul_int sf rx; py := mul_int sf ry |}
                    (size_rounded h (m_dbu s)))) ;;
    ret l.

Definition command_95 (l : locals) : M locals :=
  log_command Cmd95 ;;
  lex get_char ;;
  let l := incr_shapes l in
  if layer l <? 0 then
    warn_no_layer l "'95' command ignored since no layer was selected" ;;
    ret l
  else
    text <- lex read_string ;;
    lex read_sinteger ;;
    lex read_sinteger ;;
    rx <- lex read_sinteger ;;
    ry <- lex read_sinteger ;;
    on_layout (insert_shape cell (wrap_uint (layer l))
                 (Text text {| px := mul_int sf rx; py := mul_int sf ry |}
                    size_default)) ;;
    ret l.

Definition command_98 (l : locals) : M locals :=
  log_command Cmd98 ;;
  lex get_char ;;
  v <- lex read_integer ;;
  ret (set_path_mode v l).

Definition command_9 (l : locals) : M locals :=
  log_command Cmd9 ;;
  name <- lex read_string ;;
  modify (set_cellname name) ;;
  s <- get_state ;;
  modify (set_cellname (uniquify_cell_name (m_cellname s) (layout s))) ;;
  s <- get_state ;;
  on_layout (rename_cell cell (m_cellname s)) ;;
  ret l.

(** The branch [isdigit (c)]. *)
Definition command_digit (c : ascii) (l : locals) : M locals :=
  cc <- lex peek_char ;;
  l <- (if char_is c "9" && char_is cc "3" then command_93 l
        else if char_is c "9" && char_is cc "4" then command_94 l
        else if char_is c "9" && char_is cc "5" then command_95 l
        else if char_is c "9" && char_is cc "8" then command_98 l
        else if char_is c "9" && negb (isdigit cc) then command_9 l
        else log_command CmdDigit ;; ret l) ;;
  lex skip_to_end ;;
  ret l.

(** One turn of the [while (true)] loop after its first character [c]:
    the locals it leaves and whether the loop is left ([break]). *)
Definition read_command (c : ascii) (l : locals) : M (bool * locals) :=
  let continue (m : M locals) : M (bool * locals) :=
    l <- m ;; ret (false, l) in
  let break (m : M locals) : M (bool * locals) :=
    l <- m ;; ret (true, l) in
  if char_is c ";" then continue (ret l)
  else if char_is c "(" then continue (lex skip_comment ;; ret l)
  else if char_is c "E" then break (command_E l)
  else if char_is c "D" then
    lex skip_blanks ;;
    c <- lex get_char ;;
    if char_is c "S" then continue (command_DS l)
    else if char_is c "F" then break (command_DF l)
    else if char_is c "D" then continue (command_DD l)
    else
      continue (log_command CmdDInvalid ;;
                error "Invalid 'D' sub-command" ;;
                ret l)
  else if char_is c "C" then continue (command_C l)
  else if char_is c "L" then continue (command_L l)
  else if char_is c "B" then continue (command_B l)
  else if char_is c "P" then continue (command_P l)
  else if char_is c "R" then continue (command_R l)
  else if char_is c "W" then continue (command_W l)
  else if isdigit c then continue (command_digit c l)
  else
    continue (log_command CmdUnknown ;;
              warn "Unknown command ignored" ;;
              lex skip_to_end ;;
              ret l).

End Commands.

(** ** [read_cell] *)

(** The cell is considered non-empty if it contains more than one instance,
    at least one shape or has at least one "L" command. *)
Definition nonempty (l : locals) : bool :=
  (1 <? insts l) || (0 <? shapes l) || (0 <? layer_specs l).

Definition scale_is_not_integer (sf : float) : bool :=
  (1e-6 <? PrimFloat.abs (sf - floor (sf + 0.5)))%float.

(** Entry and exit of [read_cell] around its command loop. *)
Definition read_cell_frame (sf : float) (loop : locals -> M locals) : M bool :=
  s <- get_state ;;
  (when scale_is_not_integer sf then
     warn ("Scaling factor is not an integer - snapping errors may occur in cell '"
             +:+ m_cellname s +:+ "'")%string) ;;
  l <- loop init_locals ;;
  ret (nonempty l).

(** The [while (true)] loop of [read_cell].  Every turn and every nested
    cell takes one unit of fuel. *)
Fixpoint read_cell_loop (fuel : nat) (cell : nat) (sf : float) (level : Z)
    (l : locals) : M locals :=
  match fuel with
  | O => fun _ => OutOfFuel
  | S fuel' =>
      lex skip_blanks ;;
      c <- lex get_char ;;
      r <- read_command
             (fun cell' sf' level' =>
                read_cell_frame sf' (read_cell_loop fuel' cell' sf' level'))
             fuel' cell sf level c l ;;
      let '(stop, l') := r in
      if stop : bool then ret l' else read_cell_loop fuel' cell sf level l'
  end.

Definition read_cell (fuel : nat) (cell : nat) (sf : float) (level : Z)
    : M bool :=
  read_cell_frame sf (read_cell_loop fuel cell sf level).

(** ** [do_read] and the assignment of layer numbers to new layers *)

Definition ld_pair (lp : LayerProperties) : Z * Z :=
  (lp_layer lp, lp_datatype lp).

(** The pairs of the layers the layout holds. *)
Definition layout_ld_pairs (lay : Layout) : gset (Z * Z) :=
  list_to_set ((fun e => ld_pair (snd e)) <$> map_to_list (layers lay)).

Definition new_layers_erase (name : string) (m : list (string * Z))
    : list (string * Z) :=
  filter (fun e => fst e ≠ name) m.

(** [layout.set_properties (index, lp); m_layer_map.map (lp, index)] *)
Definition bind_layer (index : Z) (lp : LayerProperties) (s : state) : state :=
  set_layer_map (map_layer lp index (m_layer_map s))
    (set_layout (set_properties index lp (layout s)) s).

(** One of the first two loops over [m_new_layers]: [entries] are the
    entries still to be visited, [parse] tells the layer and datatype a name
    stands for; an entry whose pair is free is bound and erased. *)
Fixpoint assign_layers (parse : string -> option LayerProperties)
    (entries : list (string * Z)) (used_ld : gset (Z * Z)) (s : state)
    : gset (Z * Z) * state :=
  match entries with
  | [] => (used_ld, s)
  | (name, index) :: rest =>
      match parse name with
      | Some lp =>
          if bool_decide (ld_pair lp ∉ used_ld) then
            assign_layers parse rest ({[ ld_pair lp ]} ∪ used_ld)
              (set_new_layers (new_layers_erase name (m_new_layers s))
                 (bind_layer index lp s))
          else assign_layers parse rest used_ld s
      | None => assign_layers parse rest used_ld s
      end
  end.

(** Names that are a fixed number: layer [l], datatype 0. *)
Definition parse_plain (name : string) : option LayerProperties :=
  match extract_plain_layer name with
  | Some l => Some {| lp_layer := l; lp_datatype := 0; lp_name := EmptyString |}
  | None => None
  end.

(** Names in LxDy or Lx notation. *)
Definition parse_ld (name : string) : option LayerProperties :=
  match extract_ld name with
  | Some (l, d, n) => Some {| lp_layer := l; lp_datatype := d; lp_name := n |}
  | None => None
  end.

Definition named_only (name : string) : LayerProperties :=
  {| lp_layer := lp_layer LayerProperties_default;
     lp_datatype := lp_datatype LayerProperties_default;
     lp_name := name |}.

(** The last loop: what is left is bound by name. *)
Fixpoint assign_names (entries : list (string * Z)) (s : state) : state :=
  match entries with
  | [] => s
  | (name, index) :: rest => assign_names rest (bind_layer index (named_only name) s)
  end.

(** The block "assign layer numbers to new layers" of [do_read]. *)
Definition finalize_layers (s : state) : state :=
  match m_new_layers s with
  | [] => s
  | _ =>
      let used_ld := layout_ld_pairs (layout s) in
      let '(used_ld, s) := assign_layers parse_plain (m_new_layers s) used_ld s in
      let '(used_ld, s) := assign_layers parse_ld (m_new_layers s) used_ld s in
      assign_names (m_new_layers s) s
  end.

Definition do_read (fuel : nat) : M unit :=
  s <- get_state ;;
  let sf := (0.01 / m_dbu s)%float in
  on_layout (set_dbu (m_dbu s)) ;;
  modify (set_cellname "{CIF top level}") ;;
  modify (fun s => set_next_layer_index (next_index (m_layer_map s)) s) ;;
  modify (set_new_layers []) ;;
  s <- get_state ;;
  let '(cell, lay) := add_cell EmptyString (layout s) in
  put_state (set_layout lay s) ;;
  filled <- read_cell fuel cell sf 0 ;;
  (if negb filled then on_layout (delete_cell cell)
   else
     s <- get_state ;;
     on_layout (rename_cell cell (uniquify_cell_name "CIF_TOP" (layout s)))) ;;
  modify (set_cellname EmptyString) ;;
  lex skip_blanks ;;
  e <- lex at_end ;;
  (when negb e then warn "E command is followed by more text") ;;
  modify finalize_layers.

(** A reader set up on [input] with its options, and a layout to fill. *)
Definition make_reader (input : string) (wire_mode : Z) (dbu : float)
    (layer_map : LayerMap) (create_other_layers : bool) (lay : Layout) : state :=
  {| m_stream := list_ascii_of_string input;
     m_cellname := EmptyString;
     m_cells_by_id := ∅;
     m_new_layers := [];
     m_next_layer_index := 0;
     m_layer_map := layer_map;
     m_create_layers := create_other_layers;
     m_wire_mode := wire_mode;
     m_dbu := dbu;
     layout := lay;
     warnings := [];
     cmd_log := [] |}.

Definition empty_layout : Layout :=
  {| cells := []; layers := ∅; layout_dbu := 0.001 |}.

Definition empty_layer_map : LayerMap :=
  {| lm_entries := []; lm_next_index := 0 |}.

(** The reader with the default options ([wire_mode] 0, [dbu] 0.001, an
    empty layer map, other layers created) on an empty layout. *)
Definition default_reader (input : string) : state :=
  make_reader input 0 0.001 empty_layer_map true empty_layout.

(** * Properties of the reader *)

(** ** Vocabulary of the statements *)

(** Text with balanced parentheses. *)
Inductive balanced : list ascii -> Prop :=
| balanced_nil : balanced []
| balanced_char c body :
    char_is c "(" = false -> char_is c ")" = false ->
    balanced body -> balanced (c :: body)
| balanced_nest inner body :
    balanced inner -> balanced body ->
    balanced ("("%char :: inner ++ ")"%char :: body).

(** Which slots of the cell table hold a cell. *)
Definition occupied (cs : list (option Cell)) : list bool :=
  (fun o => bool_decide (is_Some o)) <$> cs.


(** [cs'] differs from [cs] at most in the content of the cell [cell]. *)
Definition touches (cell : nat) (cs cs' : list (option Cell)) : Prop :=
  occupied cs' = occupied cs /\ forall i, i <> cell -> cs' !! i = cs !! i.

(** Commands that count as shapes, layer selections and instances. *)
Definition is_shape (t : Command) : bool :=
  match t with
  | CmdB | CmdP | CmdR | CmdW | Cmd94 | Cmd95 => true
  | _ => false
  end.

Definition is_layer_select (t : Command) : bool :=
  match t with CmdL => true | _ => false end.

Definition is_call (t : Command) : bool :=
  match t with CmdC _ => true | _ => false end.

Definition is_definition (t : Command) : bool :=
  match t with CmdDS _ => true | _ => false end.





Definition final_cells {A} (o : outcome state A) : list (option Cell) :=
  match o with
  | Returns _ s | Throws _ s => cells (layout s)
  | OutOfFuel => []
  end.

Definition bump (b : bool) (v : Z) : Z := if b then wrap_size (v + 1) else v.

Definition counts (t : Command) (l l' : locals) : Prop :=
  insts l' = bump (is_call t) (insts l) /\
  shapes l' = bump (is_shape t) (shapes l) /\
  layer_specs l' = bump (is_layer_select t) (layer_specs l).

Definition same_counts (l l' : locals) : Prop :=
  insts l' = insts l /\ shapes l' = shapes l /\ layer_specs l' = layer_specs l.

Definition plain_step (cell : nat) (l : locals) (s : state) (l' : locals)
    (s' : state) : Prop :=
  m_cells_by_id s' = m_cells_by_id s /\
  touches cell (cells (layout s)) (cells (layout s')) /\
  ((cmd_log s' = cmd_log s /\ same_counts l l') \/
   (exists t, cmd_log s' = cmd_log s ++ [t] /\ is_call t = false /\
              is_definition t = false /\ counts t l l')).

Definition cell_for (n : Z) (ci : nat) (ids ids' : gmap Z nat)
    (cs cs' : list (option Cell)) : Prop :=
  match ids !! n with
  | Some c => ci = c /\ ids' = ids /\ cs' = cs
  | None =>
      ci = length cs /\ ids' = <[n := ci]> ids /\
      cs' = cs ++ [Some (new_cell ("C" +:+ to_string n))]
  end.

Definition call_step (cell : nat) (l : locals) (s : state) (l' : locals)
    (s' : state) : Prop :=
  exists n ci cs1,
    cell_for n ci (m_cells_by_id s) (m_cells_by_id s') (cells (layout s)) cs1 /\
    touches cell cs1 (cells (layout s')) /\
    cmd_log s' = cmd_log s ++ [CmdC n] /\
    counts (CmdC n) l l'.

Definition definition_step (read_cell : nat -> float -> Z -> M bool)
    (level : Z) (s s' : state) : Prop :=
  exists n ci sf' s1 b s2,
    cell_for n ci (m_cells_by_id s) (m_cells_by_id s1)
      (cells (layout s)) (cells (layout s1)) /\
    cmd_log s1 = cmd_log s ++ [CmdDS n] /\
    read_cell ci sf' (wrap_int (level + 1)) s1 = Returns b s2 /\
    s' = set_cellname (m_cellname s) s2.

Definition same_core (s s' : state) : Prop :=
  m_cells_by_id s' = m_cells_by_id s /\
  cells (layout s') = cells (layout s) /\
  cmd_log s' = cmd_log s.

(** The cell table and the cells of the ids: [top] is the index of the
    top cell. *)
Record wf (top : nat) (ids : gmap Z nat) (cs : list (option Cell))
    (log : list Command) : Prop := {
  wf_live : forall n ci, ids !! n = Some ci ->
      (top < ci)%nat /\ exists c, cs !! ci = Some (Some c);
  wf_inj : forall n m ci, ids !! n = Some ci -> ids !! m = Some ci -> n = m;
  wf_len : length cs = (top + 1 + size ids)%nat;
  wf_fresh : forall n ci, ids !! n = Some ci -> CmdDS n ∉ log ->
      cs !! ci = Some (Some (new_cell ("C" +:+ to_string n)));
  wf_called : forall n, CmdC n ∈ log -> is_Some (ids !! n)
}.

Definition wf_state (top : nat) (s : state) : Prop :=
  wf top (m_cells_by_id s) (cells (layout s)) (cmd_log s).

(** The cell under construction is the top cell or the cell of an id whose
    definition has begun. *)
Definition cur (top cell : nat) (s : state) : Prop :=
  cell = top \/
  exists n, m_cells_by_id s !! n = Some cell /\ CmdDS n ∈ cmd_log s.

Definition ext (s s' : state) : Prop :=
  m_cells_by_id s ⊆ m_cells_by_id s' /\ cmd_log s `prefix_of` cmd_log s'.

Definition keeps_wf (top : nat) (cell : nat) (l : locals) (s : state)
    (l' : locals) (s' : state) : Prop :=
  ext s s' /\ (wf_state top s -> cur top cell s -> wf_state top s').

(** The top cell after the read: deleted, or renamed. *)
Definition settle_top (top : nat) (filled : bool) (lay : Layout) : Layout :=
  if filled then rename_cell top (uniquify_cell_name "CIF_TOP" lay) lay
  else delete_cell top lay.

(** *** Counting *)






(** The text of a command up to its semicolon. *)
Definition no_semicolon (tail : list ascii) : Prop :=
  Forall (fun c => char_is c ";" = false) tail.

(** Characters [skip_blanks] passes over. *)
Definition all_blank (blanks : list ascii) : Prop :=
  Forall (fun b => stops_blanks b = false) blanks.

(** A shape command as it stands in the input: blanks, the command
    characters, any text without a semicolon, the semicolon. *)
Inductive shape_command : list ascii -> Prop :=
| shape_B blanks tail :
    all_blank blanks -> no_semicolon tail ->
    shape_command (blanks ++ "B"%char :: tail ++ [";"%char])
| shape_P blanks tail :
    all_blank blanks -> no_semicolon tail ->
    shape_command (blanks ++ "P"%char :: tail ++ [";"%char])
| shape_R blanks tail :
    all_blank blanks -> no_semicolon tail ->
    shape_command (blanks ++ "R"%char :: tail ++ [";"%char])
| shape_W blanks tail :
    all_blank blanks -> no_semicolon tail ->
    shape_command (blanks ++ "W"%char :: tail ++ [";"%char])
| shape_94 blanks tail :
    all_blank blanks -> no_semicolon tail ->
    shape_command (blanks ++ "9"%char :: "4"%char :: tail ++ [";"%char])
| shape_95 blanks tail :
    all_blank blanks -> no_semicolon tail ->
    shape_command (blanks ++ "9"%char :: "5"%char :: tail ++ [";"%char]).

(** What an ignored shape command leaves untouched. *)
Definition same_layout (s s' : state) : Prop :=
  layout s' = layout s /\ m_new_layers s' = m_new_layers s.

(** The state in which [do_read] enters [read_cell] on the top cell. *)
Definition prepare (s : state) : state :=
  let s := set_layout (set_dbu (m_dbu s) (layout s)) s in
  let s := set_cellname "{CIF top level}" s in
  let s := set_next_layer_index (next_index (m_layer_map s)) s in
  let s := set_new_layers [] s in
  set_layout (snd (add_cell EmptyString (layout s))) s.

(** The state [do_read] leaves when [read_cell] has returned [filled] for
    the top cell [top]. *)
Definition finish (top : nat) (filled : bool) (s : state) : state :=
  let s := set_layout (settle_top top filled (layout s)) s in
  let s := set_cellname EmptyString s in
  let s := set_stream (skip_blanks_from (m_stream s)) s in
  let s := match m_stream s with
           | [] => s
           | _ => set_warnings
                    (warnings s ++ [("E command is followed by more text"%string,
                                     m_cellname s)]) s
           end in
  finalize_layers s.















(** The state an outcome ends in ([d] when there is none). *)
Definition state_of {A} (o : outcome state A) (d : state) : state :=
  match o with
  | Returns _ s | Throws _ s => s
  | OutOfFuel => d
  end.

Definition ds_example : state :=
  set_cellname "{CIF top level}" (default_reader " 7; 9 inner; DF; E").

Definition shapes_example : list (list ascii) :=
  [list_ascii_of_string "B 1 1 0 0;"; list_ascii_of_string " 94 txt 1 1;"].

Definition top_example : state := default_reader "L A; B 2 2 0 0; E".

Definition calls_example : state :=
  default_reader "C 5; DS 7; C 5; DF; C 7 T 1 1; E".


(** The number a digit sequence denotes, continuing from [i]. *)
Fixpoint number_from (i : Z) (ds : list ascii) : Z :=
  match ds with
  | [] => i
  | c :: ds => number_from (i * 10 + digit_value c) ds
  end.

Definition all_digits (ds : list ascii) : Prop :=
  Forall (fun c => isdigit c = true) ds.

(** What follows a number in the stream: no further digit. *)
Definition ends_number (rest : stream) : Prop :=
  match rest with
  | [] => True
  | c :: _ => isdigit c = false
  end.

(** Characters [skip_sep] passes over. *)
Definition all_sep (seps : list ascii) : Prop :=
  Forall (fun b => stops_sep b = false) seps.

(** The stream is at its end or at a character that ends the blanks (the
    separators). *)
Definition at_blank_stop (rest : stream) : Prop :=
  match rest with
  | [] => True
  | c :: _ => stops_blanks c = true
  end.

Definition at_sep_stop (rest : stream) : Prop :=
  match rest with
  | [] => True
  | c :: _ => stops_sep c = true
  end.

(** The optional sign before a number. *)
Definition sign_text (neg : bool) : list ascii :=
  if neg then ["-"%char] else [].

(** The stream is at its end or at a character for which [p] fails. *)
Definition stops_at (p : ascii -> bool) (rest : stream) : Prop :=
  match rest with
  | [] => True
  | c :: _ => p c = false
  end.

(** A character of an unquoted string. *)
Definition is_word_char (c : ascii) : bool :=
  negb (isspace c) && negb (char_is c ";").

Definition is_quote (q : ascii) : bool := char_is q "034" || char_is q "'".

(** A text between quotes [q]: the quote and the backslash are written
    with a backslash before them. *)
Fixpoint quoted_text (q : ascii) (s : string) : list ascii :=
  match s with
  | EmptyString => []
  | String c s' =>
      (if char_is c q || char_is c "\" then ["\"%char; c] else [c])
      ++ quoted_text q s'
  end.

(** A nonempty string of digits that denotes [v], a number an [int] holds. *)
Definition denotes (ds : string) (v : Z) : Prop :=
  ds <> EmptyString /\ all_digits (list_ascii_of_string ds) /\
  v = number_from 0 (list_ascii_of_string ds) /\ v <= INT_MAX.

(** The string does not go on with a digit. *)
Definition no_digit_next (s : string) : Prop :=
  starts_with_digit s = false.

(** A layer name in the notation of [extract_ld]: an optional [L], the
    layer digits, optionally a datatype after [dsep], optionally a name
    after [tsep]. *)
Definition ld_name (with_l : bool) (dl : string) (dd : option (ascii * string))
    (tag : option (ascii * string)) : string :=
  ((if with_l then "L" else "") ++ dl
   ++ match dd with Some (dsep, d) => String dsep d | None => "" end
   ++ match tag with Some (tsep, n) => String tsep n | None => "" end)%string.

Definition is_datatype_sep (c : ascii) : bool := char_is c "D" || char_is c ".".

Definition is_tag_sep (c : ascii) : bool := isspace c || char_is c "_".

(** A comment text that never closes: balanced text, any number of times
    followed by a parenthesis that opens a level that is not closed. *)
Inductive unclosed : list ascii -> Prop :=
| unclosed_balanced body : balanced body -> unclosed body
| unclosed_open body tail :
    balanced body -> unclosed tail -> unclosed (body ++ "("%char :: tail).

(** The terminator of the command loop at a nesting level. *)
Definition terminator (level : Z) : Command :=
  if level =? 0 then CmdE else CmdDF.

(** A number as it stands in the input: separators and the digits of [v],
    a number an [int] holds. *)
Definition number_text (v : Z) (text : list ascii) : Prop :=
  exists seps c ds,
    text = seps ++ c :: ds /\ all_sep seps /\ all_digits (c :: ds) /\
    v = number_from 0 (c :: ds) /\ v <= INT_MAX.

(** A number with an optional sign. *)
Definition signed_text (v : Z) (text : list ascii) : Prop :=
  exists seps neg c ds,
    text = seps ++ sign_text neg ++ c :: ds /\ all_sep seps /\
    all_digits (c :: ds) /\ number_from 0 (c :: ds) <= INT_MAX /\
    v = if neg : bool then - number_from 0 (c :: ds) else number_from 0 (c :: ds).

(** The cell of the id [n]: the one the reader knows, or a new cell of the
    name [name] that is entered for the id. *)
Definition cell_of_id (n : Z) (name : string) (s : state) : nat * state :=
  match m_cells_by_id s !! n with
  | Some ci => (ci, s)
  | None =>
      let '(ci, lay) := add_cell name (layout s) in
      (ci, set_cells_by_id (<[n := ci]> (m_cells_by_id s)) (set_layout lay s))
  end.

(** The state a [C] command leaves: the command is logged, the cell of the
    id [n] is looked up or made, and the instance with the transformation
    [trans] is inserted into the cell [cell]. *)
Definition called (cell : nat) (sf : float) (l : locals) (n : Z)
    (trans : DCplxTrans) (rest : stream) (s : state) : state :=
  let '(ci, s1) :=
    cell_of_id n ("C" +:+ to_string n)
      (set_cmd_log (cmd_log s ++ [CmdC n]) s) in
  set_stream rest
    (set_layout
       (insert_inst cell (make_instance sf (incr_insts l) ci trans) (layout s1))
       s1).

(** The transformations of the instances in the first cell of a layout, as
    they are stored. *)
Definition stored_transformations {A} (o : outcome state A) : list InstTrans :=
  match final_cells o with
  | Some c :: _ => List.map inst_trans (cell_insts c)
  | _ => []
  end.

(** A linear map that turns each axis onto an axis. *)
Definition axes_to_axes (m : Linear) : Prop :=
  let '((a, c), (b, d)) := m in (a = 0 /\ d = 0) \/ (c = 0 /\ b = 0).

Definition instance_example : state :=
  default_reader "C 1 R 1 1 R 1 1; C 2 T 3 -4; C 3 R 1 1; E".

Definition nested_ds_example : state :=
  set_cellname "{CIF top level}" (default_reader " 1; DS 2;").

(** The commands of a log that belong to the cell whose reading the log
    begins with: [depth] counts the definitions that are open, a [DS] opens
    one and a [DF] closes one, and the commands between them belong to the
    cell defined there. *)
Fixpoint own_commands (depth : nat) (log : list Command) : list Command :=
  match log with
  | [] => []
  | CmdDS _ :: rest => own_commands (S depth) rest
  | CmdDF :: rest => own_commands (Nat.pred depth) rest
  | t :: rest =>
      match depth with
      | O => t :: own_commands O rest
      | S _ => own_commands depth rest
      end
  end.



(** A counter after [k] increments. *)
Definition counter_after (k : nat) (v : Z) : Z :=
  Nat.iter k (fun v => wrap_size (v + 1)) v.

(** The counters of [read_cell] count the commands of its own cell. *)
Definition own_counts (l l' : locals) (delta : list Command) : Prop :=
  let own := own_commands 0 delta in
  insts l' = counter_after (length (List.filter is_call own)) (insts l) /\
  shapes l' = counter_after (length (List.filter is_shape own)) (shapes l) /\
  layer_specs l'
  = counter_after (length (List.filter is_layer_select own)) (layer_specs l).

(** The log of a cell that was read to its end at the nesting level
    [level]. *)
Definition closes (level : Z) (delta : list Command) : Prop :=
  (forall rest,
     own_commands 0 (delta ++ rest) = own_commands 0 delta ++ own_commands 0 rest) /\
  (1 <= level ->
   forall d rest, own_commands (S d) (delta ++ rest) = own_commands d rest).





(** ** Proofs *)

(** *** Running computations *)

Lemma bind_run {S A B} (m : Comp S A) (k : A -> Comp S B) s a s' :
  m s = Returns a s' -> bind m k s = k a s'.
Proof. intros H. unfold bind. now rewrite H. Qed.

Lemma bind_returns {S A B} (m : Comp S A) (k : A -> Comp S B) s b s' :
  bind m k s = Returns b s' ->
  exists a s1, m s = Returns a s1 /\ k a s1 = Returns b s'.
Proof.
  unfold bind. destruct (m s) as [a s1| |]; [eauto|discriminate|discriminate].
Qed.

Lemma ret_returns {S A} (a b : A) (s s' : S) :
  ret a s = Returns b s' -> b = a /\ s' = s.
Proof. intros H. injection H as <- <-. auto. Qed.

Lemma modify_returns {S} (f : S -> S) s a s' :
  modify f s = Returns a s' -> s' = f s.
Proof. intros H. injection H as _ <-. auto. Qed.

Lemma get_state_returns {S} (s a s' : S) :
  get_state s = Returns a s' -> a = s /\ s' = s.
Proof. intros H. injection H as <- <-. auto. Qed.

Lemma put_state_returns {S} (v s s' : S) a :
  put_state v s = Returns a s' -> s' = v.
Proof. intros H. injection H as _ <-. auto. Qed.

Lemma throw_returns {S A} msg (s : S) (a : A) s' :
  throw msg s = Returns a s' -> False.
Proof. discriminate. Qed.

Lemma lex_returns {A} (l : Lex A) s a s' :
  lex l s = Returns a s' ->
  exists rest, l (m_stream s) = Returns a rest /\ s' = set_stream rest s.
Proof.
  unfold lex. destruct (l (m_stream s)); intros H; inversion H; eauto.
Qed.

Lemma swap_cellname_returns name s a s' :
  swap_cellname name s = Returns a s' ->
  a = m_cellname s /\ s' = set_cellname name s.
Proof. intros H. injection H as <- <-. auto. Qed.

Lemma set_stream_same s : set_stream (m_stream s) s = s.
Proof. now destruct s. Qed.

(** Symbolic execution of a run that returns: the hypothesis on the run is
    split along the binds and every primitive yields the state it leaves. *)
Ltac run_step :=
  match goal with
  | H : bind _ _ _ = Returns _ _ |- _ =>
      apply bind_returns in H; destruct H as (? & ? & ? & H)
  | H : lex _ _ = Returns _ _ |- _ =>
      apply lex_returns in H; destruct H as (? & ? & ->)
  | H : ret _ _ = Returns _ _ |- _ =>
      apply ret_returns in H; destruct H as [H ->];
      first [injection H as -> -> | subst]
  | H : modify _ _ = Returns _ _ |- _ => apply modify_returns in H; subst
  | H : get_state _ = Returns _ _ |- _ =>
      apply get_state_returns in H; destruct H as [-> ->]
  | H : put_state _ _ = Returns _ _ |- _ => apply put_state_returns in H; subst
  | H : on_layout _ _ = Returns _ _ |- _ =>
      unfold on_layout in H; apply modify_returns in H; subst
  | H : log_command _ _ = Returns _ _ |- _ =>
      unfold log_command in H; apply modify_returns in H; subst
  | H : warn _ _ = Returns _ _ |- _ =>
      unfold warn in H; apply modify_returns in H; subst
  | H : swap_cellname _ _ = Returns _ _ |- _ =>
      apply swap_cellname_returns in H; destruct H as [-> ->]
  | H : error _ _ = Returns _ _ |- _ => destruct (throw_returns _ _ _ _ H)
  | H : throw _ _ = Returns _ _ |- _ => destruct (throw_returns _ _ _ _ H)
  | H : warn_no_layer _ _ _ = Returns _ _ |- _ => unfold warn_no_layer in H
  | H : (if ?b then _ else _) _ = Returns _ _ |- _ => destruct b eqn:?
  | H : (let '(_, _) := ?p in _) _ = Returns _ _ |- _ => destruct p eqn:?
  | H : (match ?x with Some _ => _ | None => _ end) _ = Returns _ _ |- _ =>
      destruct x eqn:?
  end.

(** *** Machine integers *)

Lemma wrap_int_small z : - 2 ^ 31 <= z < 2 ^ 31 -> wrap_int z = z.
Proof.
  intros Hz. unfold wrap_int.
  rewrite Z.mod_small by lia. lia.
Qed.

(** *** Comments *)

Lemma skip_comment_from_balanced body :
  balanced body ->
  forall bl rest,
    0 <= bl -> bl + Z.of_nat (length body) < 2 ^ 31 ->
    skip_comment_from bl (body ++ rest) = skip_comment_from bl rest.
Proof.
  induction 1 as [|c body Hopen Hclose _ IH|inner body _ IHinner _ IHbody];
    intros bl rest Hbl Hlen.
  - reflexivity.
  - cbn [app skip_comment_from]. rewrite Hopen, Hclose. cbn [negb orb].
    apply IH; [lia | cbn [length] in Hlen; lia].
  - cbn [app skip_comment_from length] in *.
    rewrite length_app in Hlen. cbn [length] in Hlen.
    change (char_is "(" ")") with false. change (char_is "(" "(") with true.
    cbn [negb orb].
    rewrite wrap_int_small by lia.
    rewrite <- app_assoc. rewrite IHinner by lia.
    cbn [app skip_comment_from].
    change (char_is ")" ")") with true. change (char_is ")" "(") with false.
    cbn [negb orb].
    replace (0 <? bl + 1) with true by (symmetry; apply Z.ltb_lt; lia).
    rewrite wrap_int_small by lia.
    replace (bl + 1 - 1) with bl by lia.
    apply IHbody; lia.
Qed.

Lemma skip_comment_matching body rest :
  balanced body -> Z.of_nat (length body) < 2 ^ 31 ->
  skip_comment (body ++ ")"%char :: rest) = Returns tt rest.
Proof.
  intros Hb Hlen. unfold skip_comment, modify.
  rewrite skip_comment_from_balanced by (trivial; lia).
  reflexivity.
Qed.

Lemma lex_skip_blanks_stop c rest s :
  stops_blanks c = true ->
  lex skip_blanks (set_stream (c :: rest) s) = Returns tt (set_stream (c :: rest) s).
Proof. intros H. unfold lex, skip_blanks, modify. cbn. now rewrite H. Qed.

Lemma skip_blanks_from_blanks blanks c rest :
  all_blank blanks -> stops_blanks c = true ->
  skip_blanks_from (blanks ++ c :: rest) = c :: rest.
Proof.
  intros Hb Hc. induction Hb as [|b blanks Hb _ IH]; cbn [app skip_blanks_from].
  - now rewrite Hc.
  - now rewrite Hb.
Qed.

Lemma lex_skip_blanks_blanks blanks c rest s :
  all_blank blanks -> stops_blanks c = true ->
  lex skip_blanks (set_stream (blanks ++ c :: rest) s)
  = Returns tt (set_stream (c :: rest) s).
Proof.
  intros Hb Hc. unfold lex, skip_blanks, modify. cbn.
  now rewrite skip_blanks_from_blanks.
Qed.

Lemma lex_get_char_cons c rest s :
  lex get_char (set_stream (c :: rest) s) = Returns c (set_stream rest s).
Proof. reflexivity. Qed.

Lemma lex_skip_comment_matching body rest s :
  balanced body -> Z.of_nat (length body) < 2 ^ 31 ->
  lex skip_comment (set_stream (body ++ ")"%char :: rest) s)
  = Returns tt (set_stream rest s).
Proof.
  intros Hb Hlen. unfold lex. cbn [m_stream set_stream].
  now rewrite skip_comment_matching.
Qed.

Lemma read_cell_loop_comment fuel cell sf level l s body rest :
  balanced body -> Z.of_nat (length body) < 2 ^ 31 ->
  read_cell_loop (S fuel) cell sf level l
    (set_stream ("("%char :: body ++ ")"%char :: rest) s)
  = read_cell_loop fuel cell sf level l (set_stream rest s).
Proof.
  intros Hb Hlen.
  cbn [read_cell_loop].
  rewrite (bind_run _ _ _ _ _ (lex_skip_blanks_stop "(" _ _ eq_refl)).
  rewrite (bind_run _ _ _ _ _ (lex_get_char_cons _ _ _)).
  unfold read_command.
  change (char_is "(" ";") with false. change (char_is "(" "(") with true.
  cbn iota.
  erewrite bind_run.
  2:{ erewrite bind_run.
      2:{ erewrite bind_run; [|apply lex_skip_comment_matching; assumption].
          reflexivity. }
      reflexivity. }
  reflexivity.
Qed.

Lemma read_cell_loop_comment_at fuel cell sf level l st body rest :
  balanced body -> Z.of_nat (length body) < 2 ^ 31 ->
  m_stream st = "("%char :: body ++ ")"%char :: rest ->
  read_cell_loop (S fuel) cell sf level l st
  = read_cell_loop fuel cell sf level l (set_stream rest st).
Proof.
  intros Hb Hlen Hst.
  rewrite <- (set_stream_same st) at 1. rewrite Hst.
  now apply read_cell_loop_comment.
Qed.

Lemma read_cell_comment fuel cell sf level st body rest :
  balanced body -> Z.of_nat (length body) < 2 ^ 31 ->
  m_stream st = "("%char :: body ++ ")"%char :: rest ->
  read_cell (S fuel) cell sf level st
  = read_cell fuel cell sf level (set_stream rest st).
Proof.
  intros Hb Hlen Hst.
  unfold read_cell, read_cell_frame, bind, get_state, warn, modify, ret.
  destruct (scale_is_not_integer sf).
  - erewrite read_cell_loop_comment_at by eauto. reflexivity.
  - erewrite read_cell_loop_comment_at by eauto. reflexivity.
Qed.

Lemma do_read_comment fuel s body rest :
  balanced body -> Z.of_nat (length body) < 2 ^ 31 ->
  do_read (S fuel) (set_stream ("("%char :: body ++ ")"%char :: rest) s)
  = do_read fuel (set_stream rest s).
Proof.
  intros Hb Hlen.
  unfold do_read, bind, get_state, on_layout, modify, put_state, ret.
  cbn [add_cell].
  erewrite read_cell_comment by eauto. reflexivity.
Qed.

(** C8.  After the opening parenthesis, [skip_comment] runs through a text
    with balanced parentheses (shorter than 2^31 characters, the range of
    the nesting counter) and stops behind the parenthesis that closes the
    comment; and a read of an input that begins with such a comment ends as
    the read of the input without it, one turn of the command loop later. *)
Theorem comment_is_skipped body :
  balanced body -> Z.of_nat (length body) < 2 ^ 31 ->
  (forall rest, skip_comment (body ++ ")"%char :: rest) = Returns tt rest) /\
  (forall fuel s rest,
     do_read (S fuel) (set_stream ("("%char :: body ++ ")"%char :: rest) s)
     = do_read fuel (set_stream rest s)).
Proof.
  intros Hb Hlen. split.
  - intros rest. now apply skip_comment_matching.
  - intros fuel s rest. now apply do_read_comment.
Qed.

Lemma comment_is_skipped_witness :
  skip_comment (list_ascii_of_string "a (b) c) L A;")
    = Returns tt (list_ascii_of_string " L A;") /\
  do_read 11 (default_reader "(a (b) c) L A; E") =
  do_read 10 (default_reader " L A; E").
Proof.
  assert (Hb : balanced (list_ascii_of_string "a (b) c")).
  { cbn. apply balanced_char; [reflexivity..|].
    apply balanced_char; [reflexivity..|].
    apply (balanced_nest ["b"%char] [" "%char; "c"%char]).
    - apply balanced_char; [reflexivity..|]. apply balanced_nil.
    - apply balanced_char; [reflexivity..|].
      apply balanced_char; [reflexivity..|]. apply balanced_nil. }
  assert (Hlen : Z.of_nat (length (list_ascii_of_string "a (b) c")) < 2 ^ 31)
    by (cbn; lia).
  destruct (comment_is_skipped _ Hb Hlen) as [Hskip Hread].
  split.
  - exact (Hskip (list_ascii_of_string " L A;")).
  - exact (Hread 10%nat (default_reader "") (list_ascii_of_string " L A; E")).
Defined.

(** *** Integers, wires and boxes *)

Lemma digit_value_range c : isdigit c = true -> 0 <= digit_value c <= 9.
Proof.
  unfold isdigit, char_between, digit_value, Ascii.leb, Ascii.compare.
  rewrite andb_true_iff. intros [Hlo Hhi].
  change (N_of_ascii "0") with 48%N in Hlo.
  change (N_of_ascii "9") with 57%N in Hhi.
  assert (H0 : (48 <= N_of_ascii c)%N).
  { apply N.compare_le_iff. intros Hgt. now rewrite Hgt in Hlo. }
  assert (H9 : (N_of_ascii c <= 57)%N).
  { apply N.compare_le_iff. intros Hgt. now rewrite Hgt in Hhi. }
  lia.
Qed.

Lemma number_from_ge ds : all_digits ds -> forall i, 0 <= i -> i <= number_from i ds.
Proof.
  induction 1 as [|c ds Hc _ IH]; intros i Hi; cbn [number_from]; [lia|].
  apply digit_value_range in Hc.
  specialize (IH (i * 10 + digit_value c)). lia.
Qed.

Lemma read_integer_digits_from_value ds :
  all_digits ds ->
  forall i rest,
    0 <= i -> number_from i ds <= INT_MAX -> ends_number rest ->
    read_integer_digits_from i (ds ++ rest) = Returns (number_from i ds) rest.
Proof.
  induction 1 as [|c ds Hc Hds IH]; intros i rest Hi Hmax Hrest.
  - cbn [app number_from]. destruct rest as [|c rest]; [reflexivity|].
    cbn in Hrest. cbn [read_integer_digits_from]. now rewrite Hrest.
  - cbn [app number_from read_integer_digits_from] in *. rewrite Hc.
    pose proof (digit_value_range c Hc) as Hd.
    pose proof (number_from_ge ds Hds (i * 10 + digit_value c)) as Hge.
    unfold INT_MAX in *.
    replace (2147483647 / 10 <? i) with false.
    2:{ symmetry. apply Z.ltb_ge. change (2147483647 / 10) with 214748364. lia. }
    rewrite wrap_int_small by lia.
    apply IH; [lia|exact Hmax|exact Hrest].
Qed.

(** X1.  A number of at most 2^31-1, written in decimal digits (leading
    zeros allowed), after any separators and followed by a character that
    is no digit, is read by [read_integer] as its value; the stream stands
    at the character after the last digit. *)
Theorem read_integer_in_range seps c ds rest :
  Forall (fun b => stops_sep b = false) seps ->
  all_digits (c :: ds) -> ends_number rest ->
  number_from 0 (c :: ds) <= INT_MAX ->
  read_integer (seps ++ c :: ds ++ rest) = Returns (number_from 0 (c :: ds)) rest.
Proof.
  intros Hseps Hds Hrest Hmax.
  assert (Hskip : skip_sep_from (seps ++ c :: ds ++ rest) = c :: ds ++ rest).
  { induction Hseps as [|b seps Hb _ IH]; cbn [app skip_sep_from].
    - inversion Hds as [|? ? Hc _]; subst. unfold stops_sep. now rewrite Hc.
    - now rewrite Hb. }
  unfold read_integer, skip_sep, modify, bind. rewrite Hskip.
  unfold read_integer_digits, at_end, peek_char, bind.
  inversion Hds as [|? ? Hc _]; subst. rewrite Hc. cbn [orb negb].
  unfold ret.
  apply (read_integer_digits_from_value (c :: ds) Hds 0 rest); [lia|exact Hmax|exact Hrest].
Qed.

Lemma read_integer_in_range_witness :
  read_integer (list_ascii_of_string " 2147483647;") = Returns INT_MAX [";"%char].
Proof.
  apply (read_integer_in_range [" "%char] "2"%char
           (list_ascii_of_string "147483647") [";"%char]).
  - repeat constructor.
  - repeat constructor.
  - reflexivity.
  - vm_compute. discriminate.
Defined.

(** C3.  [read_integer] does not fail on every digit sequence above
    2^31-1: on 2147483648 the test [i > INT_MAX / 10] sees 214748364, lets
    the last digit through and the accumulator wraps to -2^31.  Where the
    test does fire, [error] throws at once, so the digits that follow stay
    in the stream: of 21474836500 the final 00 is left unread. *)
Theorem read_integer_overflow_undetected :
  read_integer (list_ascii_of_string "2147483648;")
    = Returns (-2147483648) [";"%char] /\
  read_integer (list_ascii_of_string "21474836500;")
    = Throws "Integer overflow" (list_ascii_of_string "00;").
Proof. split; vm_compute; reflexivity. Qed.



(** C2.  At scale 10 the box [B 2 2 5 5 0 1] of width and height 2 around
    (5, 5), rotated by a quarter turn, becomes the polygon with corners
    (15, -5), (-5, -5), (-5, 15), (15, 15): the half vectors of length 10
    are scaled, the centre stays at the unscaled (5, 5) instead of
    (50, 50).  The same box along the x axis is the box from (40, 40) to
    (60, 60) around the scaled centre. *)
Theorem rotated_box_center_not_scaled :
  box_shape 10 2 2 5 5 0 1 =
    Polygon [ {| px := 15; py := -5 |}; {| px := -5; py := -5 |};
              {| px := -5; py := 15 |}; {| px := 15; py := 15 |} ] /\
  box_shape 10 2 2 5 5 1 0 = Box 40 40 60 60 /\
  final_cells (do_read 20 (default_reader "L A; B 2 2 5 5 0 1; E")) =
    [Some {| cell_name := "CIF_TOP";
             cell_shapes :=
               [(0, Polygon [ {| px := 15; py := -5 |}; {| px := -5; py := -5 |};
                              {| px := -5; py := 15 |}; {| px := 15; py := 15 |} ])];
             cell_insts := [] |}].
Proof. repeat split; vm_compute; reflexivity. Qed.

(** *** The cell name on an error *)

(** A [DS 1;] cut off by the end of the file: [read_cell] and [do_read]
    leave with the error while [m_cellname] holds the name of the nested
    cell, not the name it held before the [DS]. *)
Lemma cellname_lost_on_error :
  m_cellname (set_cellname "{CIF top level}" (default_reader "DS 1;"))
    = "{CIF top level}"%string /\
  exception (read_cell 20 0 10 0
               (set_cellname "{CIF top level}" (default_reader "DS 1;")))
    = Some ("Unexpected end of file", "C1")%string /\
  exception (do_read 20 (default_reader "DS 1;"))
    = Some ("Unexpected end of file", "C1")%string.
Proof. repeat split; vm_compute; reflexivity. Qed.

(** *** What a command does to the reader *)

Lemma touches_refl cell cs : touches cell cs cs.
Proof. split; auto. Qed.

Lemma touches_trans cell cs1 cs2 cs3 :
  touches cell cs1 cs2 -> touches cell cs2 cs3 -> touches cell cs1 cs3.
Proof.
  intros [H1 H2] [H3 H4]. split; [congruence|].
  intros i Hi. rewrite H4, H2; auto.
Qed.

Lemma touches_update_cell cell f lay :
  touches cell (cells lay) (cells (update_cell cell f lay)).
Proof.
  unfold update_cell, with_cells. cbn [cells].
  destruct (cells lay !! cell) as [[c|]|] eqn:Hc; try apply touches_refl.
  split.
  - unfold occupied. rewrite list_fmap_insert.
    apply list_insert_id. rewrite list_lookup_fmap, Hc. reflexivity.
  - intros i Hi. now apply list_lookup_insert_ne.
Qed.

Ltac run_more :=
  repeat first
    [ run_step
    | match goal with
      | H : _ = Returns _ _ |- _ => progress (cbv beta zeta in H)
      end ].

Ltac touch :=
  first [ exact (touches_refl _ _) | exact (touches_update_cell _ _ _) ].

Ltac plain_logged t :=
  split; [reflexivity|]; split; [touch|]; right; exists t;
  split; [reflexivity|]; split; [reflexivity|]; split; [reflexivity|];
  repeat split; reflexivity.

Lemma command_E_plain cell level l s l' s' :
  command_E level l s = Returns l' s' -> plain_step cell l s l' s'.
Proof. unfold command_E. intros H. run_more; plain_logged CmdE. Qed.

Lemma command_DF_plain cell level l s l' s' :
  command_DF level l s = Returns l' s' -> plain_step cell l s l' s'.
Proof. unfold command_DF. intros H. run_more; plain_logged CmdDF. Qed.

Lemma command_DD_plain cell l s l' s' :
  command_DD l s = Returns l' s' -> plain_step cell l s l' s'.
Proof. unfold command_DD. intros H. run_more; plain_logged CmdDD. Qed.

Lemma command_L_plain cell l s l' s' :
  command_L l s = Returns l' s' -> plain_step cell l s l' s'.
Proof. unfold command_L. intros H. run_more; plain_logged CmdL. Qed.

Lemma command_B_plain cell sf l s l' s' :
  command_B cell sf l s = Returns l' s' -> plain_step cell l s l' s'.
Proof. unfold command_B. intros H. run_more; plain_logged CmdB. Qed.

Lemma command_P_plain fuel cell sf l s l' s' :
  command_P fuel cell sf l s = Returns l' s' -> plain_step cell l s l' s'.
Proof. unfold command_P. intros H. run_more; plain_logged CmdP. Qed.

Lemma command_R_plain cell sf l s l' s' :
  command_R cell sf l s = Returns l' s' -> plain_step cell l s l' s'.
Proof. unfold command_R. intros H. run_more; plain_logged CmdR. Qed.

Lemma command_W_plain fuel cell sf l s l' s' :
  command_W fuel cell sf l s = Returns l' s' -> plain_step cell l s l' s'.
Proof. unfold command_W. intros H. run_more; plain_logged CmdW. Qed.

Lemma command_93_plain cell l s l' s' :
  command_93 l s = Returns l' s' -> plain_step cell l s l' s'.
Proof. unfold command_93. intros H. run_more; plain_logged Cmd93. Qed.

Lemma command_94_plain cell sf l s l' s' :
  command_94 cell sf l s = Returns l' s' -> plain_step cell l s l' s'.
Proof. unfold command_94. intros H. run_more; plain_logged Cmd94. Qed.

Lemma command_95_plain cell sf l s l' s' :
  command_95 cell sf l s = Returns l' s' -> plain_step cell l s l' s'.
Proof. unfold command_95. intros H. run_more; plain_logged Cmd95. Qed.

Lemma command_98_plain cell l s l' s' :
  command_98 l s = Returns l' s' -> plain_step cell l s l' s'.
Proof. unfold command_98. intros H. run_more; plain_logged Cmd98. Qed.

Lemma command_9_plain cell l s l' s' :
  command_9 cell l s = Returns l' s' -> plain_step cell l s l' s'.
Proof. unfold command_9. intros H. run_more; plain_logged Cmd9. Qed.

Lemma plain_step_frame cell l s l' s' r r' :
  plain_step cell l (set_stream r s) l' s' ->
  plain_step cell l s l' (set_stream r' s').
Proof. intros H. exact H. Qed.

Lemma plain_step_silent cell l s r :
  plain_step cell l s l (set_stream r s).
Proof.
  split; [reflexivity|]. split; [touch|]. left. repeat split; reflexivity.
Qed.

Lemma command_digit_plain cell sf c l s l' s' :
  command_digit cell sf c l s = Returns l' s' -> plain_step cell l s l' s'.
Proof.
  unfold command_digit. intros H. run_more.
  - eapply plain_step_frame, command_93_plain; eassumption.
  - eapply plain_step_frame, command_94_plain; eassumption.
  - eapply plain_step_frame, command_95_plain; eassumption.
  - eapply plain_step_frame, command_98_plain; eassumption.
  - eapply plain_step_frame, command_9_plain; eassumption.
  - plain_logged CmdDigit.
Qed.

Lemma add_cell_eq name lay ci lay' :
  add_cell name lay = (ci, lay') ->
  ci = length (cells lay) /\ cells lay' = cells lay ++ [Some (new_cell name)].
Proof. unfold add_cell. intros H. injection H as <- <-. auto. Qed.

Lemma command_C_call fuel cell sf l s l' s' :
  command_C fuel cell sf l s = Returns l' s' -> call_step cell l s l' s'.
Proof.
  unfold command_C. intros H. run_more.
  - match goal with
    | H : m_cells_by_id _ !! ?n = Some ?ci |- _ =>
        exists n, ci, (cells (layout s)); change (m_cells_by_id s !! n = Some ci) in H;
        unfold cell_for; rewrite H
    end.
    split; [repeat split; reflexivity|].
    split; [touch|]. split; [reflexivity|]. repeat split; reflexivity.
  - match goal with
    | H : m_cells_by_id _ !! ?n = None, H' : add_cell ?name _ = (?ci, ?lay) |- _ =>
        exists n, ci, (cells lay); change (m_cells_by_id s !! n = None) in H;
        unfold cell_for; rewrite H;
        apply add_cell_eq in H'; destruct H' as [-> H']
    end.
    split; [split; [reflexivity|split; [reflexivity|assumption]]|].
    split; [touch|]. split; [reflexivity|]. repeat split; reflexivity.
Qed.

Lemma command_DS_definition rc sf level l s l' s' :
  command_DS rc sf level l s = Returns l' s' ->
  definition_step rc level s s' /\ l' = l.
Proof.
  unfold command_DS. intros H. run_more.
  all: split; [|reflexivity].
  all: match goal with
       | H : _ ?ci ?sf' (wrap_int _) ?s1 = Returns ?b ?s2 |- _ =>
           match goal with
           | H' : m_cells_by_id _ !! ?n = _ |- _ =>
               exists n, ci, sf', s1, b, s2
           end
       end.
  all: match goal with
       | H : m_cells_by_id _ !! ?n = ?v |- _ =>
           cbn [m_cells_by_id set_stream set_cellname set_cmd_log] in H; unfold cell_for; rewrite H
       end.
  all: try match goal with
       | H' : add_cell ?name _ = (?ci, ?lay) |- _ =>
           apply add_cell_eq in H'; destruct H' as [-> H']
       end.
  all: repeat split; first [reflexivity | assumption].
Qed.

Lemma plain_step_pre cell l s l' s' r :
  plain_step cell l (set_stream r s) l' s' -> plain_step cell l s l' s'.
Proof. intros H. exact H. Qed.

Lemma definition_step_frame rc level s s' r :
  definition_step rc level (set_stream r s) s' -> definition_step rc level s s'.
Proof. intros H. exact H. Qed.

Lemma read_command_summary rc fuel cell sf level c l s stop l' s' :
  read_command rc fuel cell sf level c l s = Returns (stop, l') s' ->
  plain_step cell l s l' s' \/ call_step cell l s l' s' \/
  (definition_step rc level s s' /\ l' = l).
Proof.
  unfold read_command. intros H. run_more.
  - left. apply (plain_step_silent cell l s (m_stream s)).
  - left. apply plain_step_silent.
  - left. eapply command_E_plain; eassumption.
  - right. right.
    match goal with H : command_DS _ _ _ _ _ = _ |- _ =>
      apply command_DS_definition in H; destruct H as [H ->] end.
    split; [|reflexivity]. eapply definition_step_frame; eassumption.
  - left. eapply plain_step_pre, command_DF_plain; eassumption.
  - left. eapply plain_step_pre, command_DD_plain; eassumption.
  - right. left. eapply command_C_call; eassumption.
  - left. eapply command_L_plain; eassumption.
  - left. eapply command_B_plain; eassumption.
  - left. eapply command_P_plain; eassumption.
  - left. eapply command_R_plain; eassumption.
  - left. eapply command_W_plain; eassumption.
  - left. eapply command_digit_plain; eassumption.
  - left. plain_logged CmdUnknown.
Qed.

Lemma read_cell_frame_returns sf loop s b s' :
  read_cell_frame sf loop s = Returns b s' ->
  exists s1 l,
    same_core s s1 /\ m_cellname s1 = m_cellname s /\
    m_stream s1 = m_stream s /\
    loop init_locals s1 = Returns l s' /\ b = nonempty l.
Proof.
  unfold read_cell_frame. intros H. run_more.
  all: eexists _, _; split; [|split; [|split; [|split; [eassumption|]]]];
    try reflexivity; repeat split; reflexivity.
Qed.

(** *** The command loop *)

Section LoopInduction.

Variable P : nat -> locals -> state -> locals -> state -> Prop.

Hypothesis P_plain :
  forall cell l s l' s', plain_step cell l s l' s' -> P cell l s l' s'.

Hypothesis P_call :
  forall cell l s l' s', call_step cell l s l' s' -> P cell l s l' s'.

Hypothesis P_definition :
  forall cell l s n ci s1 s1' l2 s2,
    cell_for n ci (m_cells_by_id s) (m_cells_by_id s1)
      (cells (layout s)) (cells (layout s1)) ->
    cmd_log s1 = cmd_log s ++ [CmdDS n] ->
    same_core s1 s1' ->
    P ci init_locals s1' l2 s2 ->
    P cell l s l (set_cellname (m_cellname s) s2).

Hypothesis P_trans :
  forall cell l s l1 s1 l2 s2,
    P cell l s l1 s1 -> P cell l1 s1 l2 s2 -> P cell l s l2 s2.

Lemma read_cell_loop_rel fuel :
  forall cell sf level l s l' s',
    read_cell_loop fuel cell sf level l s = Returns l' s' ->
    P cell l s l' s'.
Proof.
  induction fuel as [|fuel IH]; intros cell sf level l s l' s' H.
  - discriminate H.
  - cbn [read_cell_loop] in H. run_more.
    all: match goal with
         | Hc : read_command _ _ _ _ _ _ _ _ = _ |- _ =>
             apply read_command_summary in Hc; rename Hc into Hsum
         end.
    all: match goal with
         | Hl : read_cell_loop _ _ _ _ _ _ = _ |- _ => rename Hl into Hrest
         | _ => idtac
         end.
    all: destruct Hsum as [H|[H|[H ->]]].
    all: try (apply P_plain; exact H).
    all: try (apply P_call; exact H).
    all: try (eapply P_trans; [apply P_plain; exact H|eapply IH; exact Hrest]).
    all: try (eapply P_trans; [apply P_call; exact H|eapply IH; exact Hrest]).
    all: destruct H as (n & ci & sf' & s1 & filled & s2 & Hfor & Hlog & Hrun & ->).
    all: apply read_cell_frame_returns in Hrun;
      destruct Hrun as (s1' & l2 & Hcore & _ & _ & Hloop & _).
    all: apply IH in Hloop.
    + exact (P_definition cell l s n ci s1 s1' l2 s2 Hfor Hlog Hcore Hloop).
    + eapply P_trans; [|eapply IH; exact Hrest].
      exact (P_definition cell l s n ci s1 s1' l2 s2 Hfor Hlog Hcore Hloop).
Qed.

End LoopInduction.

(** *** Cells of the instance ids *)

Lemma ext_refl s : ext s s.
Proof. split; reflexivity. Qed.

Lemma ext_trans s1 s2 s3 : ext s1 s2 -> ext s2 s3 -> ext s1 s3.
Proof. intros [H1 H2] [H3 H4]. split; etrans; eauto. Qed.

Lemma cur_ext top cell s s' : cur top cell s -> ext s s' -> cur top cell s'.
Proof.
  intros [->|(n & Hn & Hlog)] [Hids Hpre]; [now left|right].
  exists n. split.
  - eapply lookup_weaken; eauto.
  - destruct Hpre as [k ->]. set_solver.
Qed.

Lemma occupied_live cs cs' i c :
  occupied cs' = occupied cs -> cs !! i = Some (Some c) ->
  exists c', cs' !! i = Some (Some c').
Proof.
  intros Hocc Hi.
  assert (H : occupied cs' !! i = Some true).
  { rewrite Hocc. unfold occupied. rewrite list_lookup_fmap, Hi. reflexivity. }
  unfold occupied in H. rewrite list_lookup_fmap in H.
  destruct (cs' !! i) as [[c'|]|]; try discriminate; eauto.
Qed.

Lemma occupied_length cs cs' : occupied cs' = occupied cs -> length cs' = length cs.
Proof.
  intros H. apply (f_equal length) in H. unfold occupied in H.
  now rewrite !length_fmap in H.
Qed.

Lemma wf_touches top cell ids cs cs' log :
  wf top ids cs log ->
  (cell = top \/ exists n, ids !! n = Some cell /\ CmdDS n ∈ log) ->
  touches cell cs cs' -> wf top ids cs' log.
Proof.
  intros [Hlive Hinj Hlen Hfresh Hcalled] Hcur [Hocc Hsame].
  split; auto.
  - intros n ci Hn. destruct (Hlive n ci Hn) as [Htop [c Hc]].
    split; [assumption|]. eapply occupied_live; eauto.
  - rewrite <- Hlen. now apply occupied_length.
  - intros n ci Hn Hdef. rewrite Hsame; [now apply Hfresh|].
    intros ->. destruct Hcur as [->|(m & Hm & Hlog)].
    + destruct (Hlive n top Hn). lia.
    + assert (n = m) by (eapply Hinj; eauto). subst m. contradiction.
Qed.

Lemma wf_log top ids cs log t :
  wf top ids cs log -> is_call t = false -> wf top ids cs (log ++ [t]).
Proof.
  intros [Hlive Hinj Hlen Hfresh Hcalled] Ht. split; auto.
  - intros n ci Hn Hdef. apply Hfresh; [assumption|]. set_solver.
  - intros n Hn. apply Hcalled. apply elem_of_app in Hn as [Hn|Hn]; [assumption|].
    apply list_elem_of_singleton in Hn. subst t. discriminate.
Qed.

Lemma cell_for_ext n ci ids ids' cs cs' :
  cell_for n ci ids ids' cs cs' -> ids ⊆ ids' /\ ids' !! n = Some ci.
Proof.
  unfold cell_for. destruct (ids !! n) as [c|] eqn:Hn.
  - intros (-> & -> & ->). auto.
  - intros (-> & -> & ->). split.
    + now apply insert_subseteq.
    + apply lookup_insert_eq.
Qed.

Lemma wf_cell_for top n ci ids ids' cs cs' log t :
  wf top ids cs log -> cell_for n ci ids ids' cs cs' ->
  t = CmdC n \/ t = CmdDS n ->
  wf top ids' cs' (log ++ [t]).
Proof.
  intros Hwf Hfor Ht. pose proof Hwf as [Hlive Hinj Hlen Hfresh Hcalled].
  unfold cell_for in Hfor. destruct (ids !! n) as [c|] eqn:Hn.
  - destruct Hfor as (-> & -> & ->). split; auto.
    + intros m ci Hm Hdef. apply Hfresh; [assumption|]. set_solver.
    + intros m Hm. apply elem_of_app in Hm as [Hm|Hm]; [now apply Hcalled|].
      apply list_elem_of_singleton in Hm.
      destruct Ht as [->| ->]; [|discriminate].
      injection Hm as ->. eauto.
  - destruct Hfor as (-> & -> & ->).
    assert (Hbelow : forall m ci, ids !! m = Some ci -> (ci < length cs)%nat).
    { intros m ci Hm. destruct (Hlive m ci Hm) as [_ [c Hc]].
      eapply lookup_lt_Some; eauto. }
    split.
    + intros m ci Hm. destruct (decide (m = n)) as [->|Hne].
      * rewrite lookup_insert_eq in Hm. injection Hm as <-.
        split; [lia|]. eexists. apply list_lookup_middle. reflexivity.
      * rewrite lookup_insert_ne in Hm by auto.
        destruct (Hlive m ci Hm) as [Htop [c Hc]]. split; [assumption|].
        exists c. rewrite lookup_app_l by eauto. assumption.
    + intros a b ci Ha Hb.
      destruct (decide (a = n)) as [->|Hane], (decide (b = n)) as [->|Hbne];
        auto.
      * rewrite lookup_insert_eq in Ha. injection Ha as <-.
        rewrite lookup_insert_ne in Hb by auto.
        apply Hbelow in Hb. lia.
      * rewrite lookup_insert_eq in Hb. injection Hb as <-.
        rewrite lookup_insert_ne in Ha by auto.
        apply Hbelow in Ha. lia.
      * rewrite lookup_insert_ne in Ha, Hb by auto. eauto.
    + rewrite length_app, map_size_insert_None by assumption. cbn. lia.
    + intros m ci Hm Hdef. destruct (decide (m = n)) as [->|Hne].
      * rewrite lookup_insert_eq in Hm. injection Hm as <-.
        apply list_lookup_middle. reflexivity.
      * rewrite lookup_insert_ne in Hm by auto.
        rewrite lookup_app_l by eauto. apply Hfresh; [assumption|]. set_solver.
    + intros m Hm. destruct (decide (m = n)) as [->|Hne].
      * rewrite lookup_insert_eq. eauto.
      * rewrite lookup_insert_ne by auto. apply Hcalled.
        apply elem_of_app in Hm as [Hm|Hm]; [assumption|].
        apply list_elem_of_singleton in Hm.
        destruct Ht as [->| ->]; [|discriminate]. congruence.
Qed.

Lemma read_cell_loop_wf top fuel cell sf level l s l' s' :
  read_cell_loop fuel cell sf level l s = Returns l' s' ->
  keeps_wf top cell l s l' s'.
Proof.
  apply (read_cell_loop_rel (keeps_wf top)); clear.
  - intros cell l s l' s' (Hids & Htouch & Hlog). split.
    + split; [now rewrite Hids|].
      destruct Hlog as [[-> _]|(t & -> & _)]; [reflexivity|].
      now apply prefix_app_r.
    + unfold wf_state, cur. intros Hwf Hcur. rewrite Hids.
      destruct Hlog as [[-> _]|(t & -> & Ht & _)].
      * eapply wf_touches; eauto.
      * apply wf_log; [|assumption]. eapply wf_touches; eauto.
  - intros cell l s l' s' (n & ci & cs1 & Hfor & Htouch & Hlog & _).
    destruct (cell_for_ext _ _ _ _ _ _ Hfor) as [Hsub Hn]. split.
    + split; [assumption|]. rewrite Hlog. now apply prefix_app_r.
    + unfold wf_state, cur. intros Hwf Hcur. rewrite Hlog.
      eapply wf_touches with (cs := cs1).
      * eapply wf_cell_for; eauto.
      * destruct Hcur as [->|(m & Hm & Hdef)]; [now left|right].
        exists m. split; [eapply lookup_weaken; eauto|set_solver].
      * assumption.
  - intros cell l s n ci s1 s1' l2 s2 Hfor Hlog (Hids1 & Hcells1 & Hlog1)
      [[Hsub2 Hpre2] Hkeep].
    destruct (cell_for_ext _ _ _ _ _ _ Hfor) as [Hsub Hn]. split.
    + split; cbn.
      * etrans; [exact Hsub|]. now rewrite <- Hids1.
      * etrans; [|exact Hpre2]. rewrite Hlog1, Hlog. now apply prefix_app_r.
    + unfold wf_state, cur. intros Hwf Hcur. cbn. apply Hkeep.
      * unfold wf_state. rewrite Hids1, Hcells1, Hlog1, Hlog.
        eapply wf_cell_for; eauto.
      * right. exists n. rewrite Hids1, Hlog1, Hlog. split; [assumption|].
        set_solver.
  - intros cell l s l1 s1 l2 s2 [Hext1 Hk1] [Hext2 Hk2]. split.
    + eapply ext_trans; eauto.
    + intros Hwf Hcur. apply Hk2; [now apply Hk1|]. eapply cur_ext; eauto.
Qed.

Lemma same_core_refl s : same_core s s.
Proof. repeat split. Qed.

Lemma same_core_trans s1 s2 s3 :
  same_core s1 s2 -> same_core s2 s3 -> same_core s1 s3.
Proof. intros (?&?&?) (?&?&?). repeat split; congruence. Qed.

Lemma assign_layers_core parse entries :
  forall used s, same_core s (snd (assign_layers parse entries used s)).
Proof.
  induction entries as [|[name index] rest IH]; intros used s; cbn [assign_layers].
  - apply same_core_refl.
  - destruct (parse name) as [lp|]; [|apply IH].
    destruct (bool_decide _); [|apply IH].
    eapply same_core_trans; [|apply IH]. repeat split.
Qed.

Lemma assign_names_core entries :
  forall s, same_core s (assign_names entries s).
Proof.
  induction entries as [|[name index] rest IH]; intros s; cbn [assign_names].
  - apply same_core_refl.
  - eapply same_core_trans; [|apply IH]. repeat split.
Qed.

Lemma finalize_layers_core s : same_core s (finalize_layers s).
Proof.
  unfold finalize_layers. destruct (m_new_layers s) eqn:Hnl.
  - apply same_core_refl.
  - rewrite <- Hnl.
    pose proof (assign_layers_core parse_plain (m_new_layers s)
                  (layout_ld_pairs (layout s)) s) as H1.
    destruct (assign_layers parse_plain _ _ s) as [u1 s1]. cbn [snd] in H1.
    pose proof (assign_layers_core parse_ld (m_new_layers s1) u1 s1) as H2.
    destruct (assign_layers parse_ld _ _ s1) as [u2 s2]. cbn [snd] in H2.
    eapply same_core_trans; [exact H1|].
    eapply same_core_trans; [exact H2|]. apply assign_names_core.
Qed.

Lemma do_read_returns fuel s s' :
  do_read fuel s = Returns tt s' ->
  exists sf s0 l s1,
    m_cells_by_id s0 = m_cells_by_id s /\
    cmd_log s0 = cmd_log s /\
    cells (layout s0) = cells (layout s) ++ [Some (new_cell EmptyString)] /\
    read_cell_loop fuel (length (cells (layout s))) sf 0 init_locals s0
      = Returns l s1 /\
    m_cells_by_id s' = m_cells_by_id s1 /\
    cmd_log s' = cmd_log s1 /\
    cells (layout s')
      = cells (settle_top (length (cells (layout s))) (nonempty l) (layout s1)).
Proof.
  unfold do_read. intros H. run_more.
  all: match goal with
       | Ha : add_cell _ _ = _ |- _ =>
           apply add_cell_eq in Ha; destruct Ha as [-> Ha]
       end.
  all: match goal with
       | Hr : read_cell _ _ _ _ _ = Returns _ _ |- _ =>
           unfold read_cell in Hr; apply read_cell_frame_returns in Hr;
           destruct Hr as (s0 & l0 & (Hids & Hcells & Hlog) & _ & _ & Hloop & ->)
       end.
  all: match goal with
       | |- context [finalize_layers ?st] =>
           destruct (finalize_layers_core st) as (Hfi & Hfc & Hfl)
       end.
  all: eexists _, s0, l0, _; split; [exact Hids|]; split; [exact Hlog|];
    split; [rewrite Hcells; eassumption|]; split; [exact Hloop|].
  all: split; [rewrite Hfi; reflexivity|]; split; [rewrite Hfl; reflexivity|].
  all: rewrite Hfc; unfold settle_top;
    match goal with Hb : negb _ = _ |- _ =>
      apply (f_equal negb) in Hb; rewrite negb_involutive in Hb; rewrite Hb end;
    reflexivity.
Qed.

Lemma settle_top_other top filled lay i :
  i <> top -> cells (settle_top top filled lay) !! i = cells lay !! i.
Proof.
  intros Hi. unfold settle_top. destruct filled.
  - destruct (touches_update_cell top
      (fun c => {| cell_name := uniquify_cell_name "CIF_TOP" lay;
                   cell_shapes := cell_shapes c; cell_insts := cell_insts c |})
      lay) as [_ H].
    now apply H.
  - unfold delete_cell, with_cells. cbn [cells].
    apply list_lookup_insert_ne. auto.
Qed.

Lemma settle_top_length top filled lay :
  length (cells (settle_top top filled lay)) = length (cells lay).
Proof.
  unfold settle_top. destruct filled.
  - apply occupied_length.
    apply (touches_update_cell top
      (fun c => {| cell_name := uniquify_cell_name "CIF_TOP" lay;
                   cell_shapes := cell_shapes c; cell_insts := cell_insts c |})
      lay).
  - unfold delete_cell, with_cells. cbn [cells]. apply length_insert.
Qed.

(** C7.  After a successful read by a fresh reader, every cell id a [C]
    command referred to is bound in [m_cells_by_id] to a cell that is in the
    layout; when no [DS] took up that id the cell is the empty cell named
    [C<id>].  Distinct ids have distinct cells, and the layout holds the
    cells it had before, the top cell and exactly one cell per id: a [DS]
    for an id that a [C] has used fills the cell made for the [C]. *)
Theorem instance_ids_have_cells fuel s s' :
  do_read fuel s = Returns tt s' ->
  m_cells_by_id s = ∅ -> cmd_log s = [] ->
  (forall n, CmdC n ∈ cmd_log s' ->
     exists ci c,
       m_cells_by_id s' !! n = Some ci /\
       cells (layout s') !! ci = Some (Some c) /\
       (CmdDS n ∉ cmd_log s' -> c = new_cell ("C" +:+ to_string n))) /\
  (forall n m ci,
     m_cells_by_id s' !! n = Some ci -> m_cells_by_id s' !! m = Some ci ->
     n = m) /\
  length (cells (layout s'))
    = (length (cells (layout s)) + 1 + size (m_cells_by_id s'))%nat.
Proof.
  intros Hread Hids Hlog.
  apply do_read_returns in Hread.
  destruct Hread as (sf & s0 & l & s1 & Hids0 & Hlog0 & Hcells0 & Hloop
                     & Hids' & Hlog' & Hcells').
  set (top := length (cells (layout s))) in *.
  apply (read_cell_loop_wf top) in Hloop. destruct Hloop as [_ Hkeep].
  assert (Hwf : wf_state top s1).
  { apply Hkeep; [|now left].
    unfold wf_state. rewrite Hids0, Hlog0, Hcells0, Hids, Hlog. split.
    - intros n ci Hn. rewrite lookup_empty in Hn. discriminate.
    - intros n m ci Hn. rewrite lookup_empty in Hn. discriminate.
    - rewrite length_app, map_size_empty. cbn. fold top. lia.
    - intros n ci Hn. rewrite lookup_empty in Hn. discriminate.
    - intros n Hn. apply elem_of_nil in Hn. contradiction. }
  destruct Hwf as [Hlive Hinj Hlen Hfresh Hcalled].
  rewrite Hids', Hlog', Hcells'. split; [|split].
  - intros n Hn. destruct (Hcalled n Hn) as [ci Hci].
    destruct (Hlive n ci Hci) as [Htop [c Hc]].
    exists ci, c. split; [assumption|].
    rewrite settle_top_other by lia. split; [assumption|].
    intros Hdef. specialize (Hfresh n ci Hci Hdef). congruence.
  - exact Hinj.
  - rewrite settle_top_length. exact Hlen.
Qed.

Lemma instance_ids_have_cells_witness :
  size (m_cells_by_id (state_of (do_read 30 calls_example) calls_example))
  = 2%nat /\
  length (cells (layout (state_of (do_read 30 calls_example) calls_example)))
  = 3%nat.
Proof.
  assert (Hrun : do_read 30 calls_example
                 = Returns tt (state_of (do_read 30 calls_example) calls_example))
    by (vm_compute; reflexivity).
  destruct (instance_ids_have_cells _ _ _ Hrun eq_refl eq_refl) as (_ & _ & Hlen).
  split; [vm_compute; reflexivity|].
  rewrite Hlen. vm_compute. reflexivity.
Defined.

(** *** The empty cell rule *)












(** *** Shapes without a layer *)

Lemma skip_to_end_from_tail tail rest :
  no_semicolon tail -> skip_to_end_from (tail ++ ";"%char :: rest) = rest.
Proof.
  induction 1 as [|c tail Hc _ IH]; cbn [app skip_to_end_from].
  - reflexivity.
  - rewrite Hc. cbn [negb]. exact IH.
Qed.

Lemma ignore_shape_run msg l st tail rest :
  (layer l <? 0) = true -> no_semicolon tail ->
  m_stream st = tail ++ ";"%char :: rest ->
  exists s1,
    bind (warn_no_layer l msg) (fun _ => bind (lex skip_to_end) (fun _ => ret l)) st
    = Returns l (set_stream rest s1) /\ same_layout st s1.
Proof.
  intros Hl Htail Hst. unfold warn_no_layer, bind.
  destruct (layer l <? -1).
  - unfold warn, modify, lex, skip_to_end, modify, ret.
    cbn [m_stream set_stream set_warnings]. rewrite Hst.
    rewrite skip_to_end_from_tail by assumption.
    eexists (set_warnings _ st). split; [reflexivity|]. split; reflexivity.
  - unfold ret at 1. unfold lex, skip_to_end, modify, ret. rewrite Hst.
    rewrite skip_to_end_from_tail by assumption.
    exists st. split; [reflexivity|]. split; reflexivity.
Qed.

Ltac ignored_shape_command msg :=
  match goal with
  | Hl : (layer ?l <? 0) = true, Ht : no_semicolon ?tail,
    Hst : m_stream ?st = ?tail ++ _ :: ?rest |- _ =>
      erewrite bind_run by reflexivity; cbv zeta;
      change (layer (incr_shapes l)) with (layer l); rewrite Hl;
      match goal with
      | |- context [bind _ _ ?st1] =>
          let s1 := fresh "s" in
          let Hrun := fresh "Hrun" in
          let Hsame := fresh "Hsame" in
          destruct (ignore_shape_run msg (incr_shapes l) st1 tail rest Hl Ht Hst)
            as (s1 & Hrun & Hsame);
          exists s1; split; [exact Hrun|exact Hsame]
      end
  end.

Lemma command_B_ignored cell sf l st tail rest :
  (layer l <? 0) = true -> no_semicolon tail ->
  m_stream st = tail ++ ";"%char :: rest ->
  exists s1,
    command_B cell sf l st = Returns (incr_shapes l) (set_stream rest s1) /\
    same_layout st s1.
Proof.
  intros Hl Ht Hst. unfold command_B.
  ignored_shape_command "'B' command ignored since no layer was selected"%string.
Qed.

Lemma command_P_ignored fuel cell sf l st tail rest :
  (layer l <? 0) = true -> no_semicolon tail ->
  m_stream st = tail ++ ";"%char :: rest ->
  exists s1,
    command_P fuel cell sf l st = Returns (incr_shapes l) (set_stream rest s1) /\
    same_layout st s1.
Proof.
  intros Hl Ht Hst. unfold command_P.
  ignored_shape_command "'P' command ignored since no layer was selected"%string.
Qed.

Lemma command_R_ignored cell sf l st tail rest :
  (layer l <? 0) = true -> no_semicolon tail ->
  m_stream st = tail ++ ";"%char :: rest ->
  exists s1,
    command_R cell sf l st = Returns (incr_shapes l) (set_stream rest s1) /\
    same_layout st s1.
Proof.
  intros Hl Ht Hst. unfold command_R.
  ignored_shape_command "'R' command ignored since no layer was selected"%string.
Qed.

Lemma command_W_ignored fuel cell sf l st tail rest :
  (layer l <? 0) = true -> no_semicolon tail ->
  m_stream st = tail ++ ";"%char :: rest ->
  exists s1,
    command_W fuel cell sf l st = Returns (incr_shapes l) (set_stream rest s1) /\
    same_layout st s1.
Proof.
  intros Hl Ht Hst. unfold command_W.
  ignored_shape_command "'W' command ignored since no layer was selected"%string.
Qed.

Lemma label_ignored msg l st :
  (layer l <? 0) = true ->
  exists s1,
    bind (warn_no_layer l msg) (fun _ => ret l) st = Returns l s1 /\
    same_layout st s1 /\ m_stream s1 = m_stream st.
Proof.
  intros Hl. unfold warn_no_layer, bind. destruct (layer l <? -1).
  - eexists. split; [reflexivity|]. repeat split.
  - eexists. split; [reflexivity|]. repeat split.
Qed.

Lemma lex_skip_to_end_tail st tail rest :
  no_semicolon tail -> m_stream st = tail ++ ";"%char :: rest ->
  lex skip_to_end st = Returns tt (set_stream rest st).
Proof.
  intros Ht Hst. unfold lex, skip_to_end, modify. rewrite Hst.
  now rewrite skip_to_end_from_tail.
Qed.

Lemma command_94_ignored cell sf l s r :
  (layer l <? 0) = true ->
  exists s1,
    command_94 cell sf l (set_stream ("4"%char :: r) s)
    = Returns (incr_shapes l) s1 /\ same_layout s s1 /\ m_stream s1 = r.
Proof.
  intros Hl. unfold command_94.
  erewrite bind_run by reflexivity.
  erewrite bind_run by reflexivity.
  cbv zeta. change (layer (incr_shapes l)) with (layer l). rewrite Hl.
  match goal with
  | |- context [bind _ _ ?st1] =>
      destruct (label_ignored "'94' command ignored since no layer was selected"
                  (incr_shapes l) st1 Hl) as (s1 & Hrun & Hsame & Hstream)
  end.
  exists s1. split; [exact Hrun|]. split; [exact Hsame|exact Hstream].
Qed.

Lemma command_95_ignored cell sf l s r :
  (layer l <? 0) = true ->
  exists s1,
    command_95 cell sf l (set_stream ("5"%char :: r) s)
    = Returns (incr_shapes l) s1 /\ same_layout s s1 /\ m_stream s1 = r.
Proof.
  intros Hl. unfold command_95.
  erewrite bind_run by reflexivity.
  erewrite bind_run by reflexivity.
  cbv zeta. change (layer (incr_shapes l)) with (layer l). rewrite Hl.
  match goal with
  | |- context [bind _ _ ?st1] =>
      destruct (label_ignored "'95' command ignored since no layer was selected"
                  (incr_shapes l) st1 Hl) as (s1 & Hrun & Hsame & Hstream)
  end.
  exists s1. split; [exact Hrun|]. split; [exact Hsame|exact Hstream].
Qed.

Lemma command_digit_94_ignored cell sf l s tail rest :
  (layer l <? 0) = true -> no_semicolon tail ->
  exists s1,
    command_digit cell sf "9" l (set_stream ("4"%char :: tail ++ ";"%char :: rest) s)
    = Returns (incr_shapes l) (set_stream rest s1) /\ same_layout s s1.
Proof.
  intros Hl Ht. unfold command_digit.
  erewrite bind_run by reflexivity.
  change (char_is "9" "9" && char_is "4" "3") with false.
  change (char_is "9" "9" && char_is "4" "4") with true. cbv iota.
  destruct (command_94_ignored cell sf l s (tail ++ ";"%char :: rest) Hl)
    as (s1 & Hrun & Hsame & Hstream).
  erewrite bind_run by exact Hrun.
  erewrite bind_run by (eapply lex_skip_to_end_tail; eassumption).
  exists s1. split; [reflexivity|exact Hsame].
Qed.

Lemma command_digit_95_ignored cell sf l s tail rest :
  (layer l <? 0) = true -> no_semicolon tail ->
  exists s1,
    command_digit cell sf "9" l (set_stream ("5"%char :: tail ++ ";"%char :: rest) s)
    = Returns (incr_shapes l) (set_stream rest s1) /\ same_layout s s1.
Proof.
  intros Hl Ht. unfold command_digit.
  erewrite bind_run by reflexivity.
  change (char_is "9" "9" && char_is "5" "3") with false.
  change (char_is "9" "9" && char_is "5" "4") with false.
  change (char_is "9" "9" && char_is "5" "5") with true. cbv iota.
  destruct (command_95_ignored cell sf l s (tail ++ ";"%char :: rest) Hl)
    as (s1 & Hrun & Hsame & Hstream).
  erewrite bind_run by exact Hrun.
  erewrite bind_run by (eapply lex_skip_to_end_tail; eassumption).
  exists s1. split; [reflexivity|exact Hsame].
Qed.

Lemma read_cell_loop_shape_ignored cmd :
  shape_command cmd ->
  forall fuel cell sf level l s rest,
    (layer l <? 0) = true ->
    exists s1,
      read_cell_loop (S fuel) cell sf level l (set_stream (cmd ++ rest) s)
      = read_cell_loop fuel cell sf level (incr_shapes l) (set_stream rest s1)
      /\ same_layout s s1.
Proof.
  intros [blanks tail Hb Ht|blanks tail Hb Ht|blanks tail Hb Ht
          |blanks tail Hb Ht|blanks tail Hb Ht|blanks tail Hb Ht]
    fuel cell sf level l s rest Hl.
  all: rewrite <- app_assoc, <- ?app_comm_cons, <- app_assoc; cbn [app].
  all: cbn [read_cell_loop].
  all: match goal with
       | Hbl : all_blank ?bl |- context [set_stream (?bl ++ ?c :: _) _] =>
           rewrite (bind_run _ _ _ _ _
                      (lex_skip_blanks_blanks bl c _ _ Hbl eq_refl))
       end.
  all: rewrite (bind_run _ _ _ _ _ (lex_get_char_cons _ _ _)).
  all: unfold read_command; cbn [char_is Ascii.eqb Bool.eqb andb orb negb]; cbv iota.
  - destruct (command_B_ignored cell sf l (set_stream (tail ++ ";"%char :: rest) s)
                tail rest Hl Ht eq_refl) as (s1 & Hrun & Hsame).
    exists s1. split; [|exact Hsame].
    erewrite bind_run by (erewrite bind_run by exact Hrun; reflexivity).
    reflexivity.
  - destruct (command_P_ignored fuel cell sf l (set_stream (tail ++ ";"%char :: rest) s)
                tail rest Hl Ht eq_refl) as (s1 & Hrun & Hsame).
    exists s1. split; [|exact Hsame].
    erewrite bind_run by (erewrite bind_run by exact Hrun; reflexivity).
    reflexivity.
  - destruct (command_R_ignored cell sf l (set_stream (tail ++ ";"%char :: rest) s)
                tail rest Hl Ht eq_refl) as (s1 & Hrun & Hsame).
    exists s1. split; [|exact Hsame].
    erewrite bind_run by (erewrite bind_run by exact Hrun; reflexivity).
    reflexivity.
  - destruct (command_W_ignored fuel cell sf l (set_stream (tail ++ ";"%char :: rest) s)
                tail rest Hl Ht eq_refl) as (s1 & Hrun & Hsame).
    exists s1. split; [|exact Hsame].
    erewrite bind_run by (erewrite bind_run by exact Hrun; reflexivity).
    reflexivity.
  - change (isdigit "9") with true. cbv iota.
    destruct (command_digit_94_ignored cell sf l s tail rest Hl Ht)
      as (s1 & Hrun & Hsame).
    exists s1. split; [|exact Hsame].
    erewrite bind_run by (erewrite bind_run by exact Hrun; reflexivity).
    reflexivity.
  - change (isdigit "9") with true. cbv iota.
    destruct (command_digit_95_ignored cell sf l s tail rest Hl Ht)
      as (s1 & Hrun & Hsame).
    exists s1. split; [|exact Hsame].
    erewrite bind_run by (erewrite bind_run by exact Hrun; reflexivity).
    reflexivity.
Qed.

Lemma same_layout_trans s1 s2 s3 :
  same_layout s1 s2 -> same_layout s2 s3 -> same_layout s1 s3.
Proof. intros [? ?] [? ?]. split; congruence. Qed.

Lemma read_cell_loop_shapes_ignored cmds :
  Forall shape_command cmds ->
  forall fuel cell sf level l s rest,
    (layer l <? 0) = true ->
    exists s1,
      read_cell_loop (length cmds + fuel) cell sf level l
        (set_stream (concat cmds ++ rest) s)
      = read_cell_loop fuel cell sf level (Nat.iter (length cmds) incr_shapes l)
          (set_stream rest s1)
      /\ same_layout s s1.
Proof.
  induction 1 as [|cmd cmds Hcmd _ IH]; intros fuel cell sf level l s rest Hl.
  - exists s. split; [reflexivity|]. split; reflexivity.
  - cbn [concat length Nat.add]. rewrite <- app_assoc.
    destruct (read_cell_loop_shape_ignored cmd Hcmd (length cmds + fuel) cell sf
                level l s (concat cmds ++ rest) Hl) as (s1 & Hrun & Hsame).
    destruct (IH fuel cell sf level (incr_shapes l) s1 rest Hl)
      as (s2 & Hrun2 & Hsame2).
    exists s2. split; [|eapply same_layout_trans; eauto].
    rewrite Hrun, Hrun2, Nat.iter_succ_r. reflexivity.
Qed.

Lemma iter_incr_shapes n l :
  layer (Nat.iter n incr_shapes l) = layer l /\
  insts (Nat.iter n incr_shapes l) = insts l /\
  layer_specs (Nat.iter n incr_shapes l) = layer_specs l /\
  (shapes l = 0 -> shapes (Nat.iter n incr_shapes l) = wrap_size (Z.of_nat n)).
Proof.
  induction n as [|n (IH1 & IH2 & IH3 & IH4)]; [repeat split; auto|].
  rewrite Nat.iter_succ. cbn [layer insts layer_specs shapes incr_shapes].
  repeat split; try assumption.
  intros Hz. rewrite (IH4 Hz).
  unfold wrap_size. rewrite Zplus_mod_idemp_l. f_equal. lia.
Qed.

Lemma read_cell_loop_E fuel cell sf l s blanks rest :
  all_blank blanks ->
  read_cell_loop (S fuel) cell sf 0 l (set_stream (blanks ++ "E"%char :: rest) s)
  = Returns l (set_stream (skip_blanks_from rest)
                 (set_cmd_log (cmd_log s ++ [CmdE]) s)).
Proof.
  intros Hb. cbn [read_cell_loop].
  rewrite (bind_run _ _ _ _ _ (lex_skip_blanks_blanks blanks "E" _ _ Hb eq_refl)).
  reflexivity.
Qed.

Lemma read_cell_shapes_ignored cmds :
  Forall shape_command cmds ->
  forall cell sf st blanks rest,
    (0 < length cmds)%nat -> Z.of_nat (length cmds) < 2 ^ 64 ->
    all_blank blanks ->
    m_stream st = concat cmds ++ blanks ++ "E"%char :: rest ->
    exists s1,
      read_cell (length cmds + 1) cell sf 0 st = Returns true s1 /\
      same_layout st s1.
Proof.
  intros Hcmds cell sf st blanks rest Hpos Hlen Hb Hst.
  assert (Hloop : forall st0, m_stream st0 = m_stream st ->
            exists s1,
              read_cell_loop (length cmds + 1) cell sf 0 init_locals st0
              = Returns (Nat.iter (length cmds) incr_shapes init_locals) s1 /\
              same_layout st0 s1).
  { intros st0 Hst0.
    destruct (read_cell_loop_shapes_ignored cmds Hcmds 1 cell sf 0 init_locals st0
                (blanks ++ "E"%char :: rest) eq_refl) as (s1 & Hrun & Hsame).
    rewrite <- Hst, <- Hst0, set_stream_same in Hrun.
    rewrite Hrun, read_cell_loop_E by exact Hb. eexists. split; [reflexivity|].
    eapply same_layout_trans; [exact Hsame|]. split; reflexivity. }
  assert (Hne : nonempty (Nat.iter (length cmds) incr_shapes init_locals) = true).
  { unfold nonempty.
    destruct (iter_incr_shapes (length cmds) init_locals) as (_ & _ & _ & Hs).
    rewrite (Hs eq_refl). unfold wrap_size. rewrite Z.mod_small by lia.
    replace (0 <? Z.of_nat (length cmds)) with true
      by (symmetry; apply Z.ltb_lt; lia).
    now rewrite orb_true_r. }
  unfold read_cell, read_cell_frame.
  erewrite bind_run by reflexivity.
  destruct (scale_is_not_integer sf).
  - erewrite bind_run by reflexivity.
    match goal with
    | |- context [bind _ _ ?st0] =>
        destruct (Hloop st0 eq_refl) as (s1 & Hrun & Hsame)
    end.
    erewrite bind_run by exact Hrun. rewrite Hne.
    exists s1. split; [reflexivity|].
    eapply same_layout_trans; [|exact Hsame]. split; reflexivity.
  - erewrite bind_run by reflexivity.
    destruct (Hloop st eq_refl) as (s1 & Hrun & Hsame).
    erewrite bind_run by exact Hrun. rewrite Hne.
    exists s1. split; [reflexivity|exact Hsame].
Qed.

Lemma finalize_layers_nothing s : m_new_layers s = [] -> finalize_layers s = s.
Proof. intros H. unfold finalize_layers. now rewrite H. Qed.

Lemma do_read_unfold fuel s :
  do_read fuel s =
  match read_cell fuel (length (cells (layout s))) (0.01 / m_dbu s) 0 (prepare s) with
  | Returns filled s1 =>
      Returns tt (finish (length (cells (layout s))) filled s1)
  | Throws msg s1 => Throws msg s1
  | OutOfFuel => OutOfFuel
  end.
Proof.
  unfold do_read, bind, get_state, on_layout, modify, put_state, ret.
  cbn [add_cell]. unfold prepare. cbn [add_cell snd].
  match goal with
  | |- _ = match ?r with _ => _ end =>
      let x := fresh "r" in
      set (x := r);
      match goal with
      | |- match ?r' with _ => _ end = _ => change r' with x
      end;
      destruct x as [filled s1|msg s1|]
  end; try reflexivity.
  unfold finish, settle_top, lex, skip_blanks, at_end, modify, warn, modify.
  destruct filled; cbn [negb];
    cbn [m_stream set_stream set_cellname set_layout];
    destruct (skip_blanks_from (m_stream s1)); reflexivity.
Qed.

Lemma settle_top_filled lay :
  exists name,
    cells (settle_top (length (cells lay)) true (snd (add_cell EmptyString lay)))
    = cells lay ++ [Some (new_cell name)] /\
    (cells lay = [] -> name = "CIF_TOP"%string).
Proof.
  eexists. unfold settle_top, rename_cell, update_cell, add_cell, with_cells.
  cbn [snd cells]. rewrite list_lookup_middle by reflexivity.
  rewrite insert_app_r_alt by lia. rewrite Nat.sub_diag. cbn [insert list_insert].
  split; [reflexivity|].
  intros H. unfold uniquify_cell_name, name_used. cbn [cells]. rewrite H.
  reflexivity.
Qed.

Lemma do_read_shapes_kept cmds blanks rest s :
  Forall shape_command cmds ->
  (0 < length cmds)%nat -> Z.of_nat (length cmds) < 2 ^ 64 ->
  all_blank blanks ->
  exists s' name,
    do_read (length cmds + 1)
      (set_stream (concat cmds ++ blanks ++ "E"%char :: rest) s)
    = Returns tt s' /\
    cells (layout s') = cells (layout s) ++ [Some (new_cell name)] /\
    (cells (layout s) = [] -> name = "CIF_TOP"%string).
Proof.
  intros Hcmds Hpos Hlen Hb.
  rewrite do_read_unfold.
  match goal with
  | |- context [read_cell _ ?c ?f _ ?st] =>
      destruct (read_cell_shapes_ignored cmds Hcmds c f st blanks rest Hpos Hlen
                  Hb eq_refl)
        as (s1 & Hrun & Hlay & Hnl)
  end.
  rewrite Hrun.
  destruct (settle_top_filled (set_dbu (m_dbu s) (layout s)))
    as (name & Hname & Hfresh).
  eexists. exists name. split; [reflexivity|]. split; [|exact Hfresh].
  unfold finish. cbv zeta.
  rewrite finalize_layers_nothing.
  2:{ destruct (m_stream _); exact Hnl. }
  replace (cells (layout _)) with
    (cells (settle_top (length (cells (layout s))) true (layout s1)))
    by (destruct (m_stream _); reflexivity).
  rewrite Hlay. exact Hname.
Qed.

(** C10. Each of the shape commands [B], [P], [R], [W], [94] and [95] read
    while no layer is selected (the layer is negative: none was chosen, or
    the chosen one is not mapped) is skipped up to its semicolon, changes
    nothing in the layout and still adds one to the shapes counter.  Hence
    an input made of such commands only, followed by [E], is read
    successfully and leaves the top cell in the layout, renamed after
    [CIF_TOP] ([CIF_TOP] itself in a layout without cells), without shapes
    and without instances. *)
Theorem ignored_shapes_keep_top_cell cmds blanks rest s :
  Forall shape_command cmds ->
  (0 < length cmds)%nat -> Z.of_nat (length cmds) < 2 ^ 64 ->
  all_blank blanks ->
  (forall cmd, cmd ∈ cmds ->
     forall fuel cell sf level l st rest',
       layer l < 0 ->
       exists st1,
         read_cell_loop (S fuel) cell sf level l (set_stream (cmd ++ rest') st)
         = read_cell_loop fuel cell sf level (incr_shapes l)
             (set_stream rest' st1)
         /\ layout st1 = layout st
         /\ shapes (incr_shapes l) = wrap_size (shapes l + 1)) /\
  (exists s' name,
     do_read (length cmds + 1)
       (set_stream (concat cmds ++ blanks ++ "E"%char :: rest) s)
     = Returns tt s' /\
     cells (layout s') = cells (layout s) ++ [Some (new_cell name)] /\
     (cells (layout s) = [] -> name = "CIF_TOP"%string)).
Proof.
  intros Hcmds Hpos Hlen Hb. split.
  - intros cmd Hin fuel cell sf level l st rest' Hl.
    rewrite Forall_forall in Hcmds.
    destruct (read_cell_loop_shape_ignored cmd (Hcmds cmd Hin) fuel cell sf level
                l st rest') as (st1 & Hrun & Hlay & _).
    { now apply Z.ltb_lt. }
    exists st1. repeat split; assumption.
  - now apply do_read_shapes_kept.
Qed.

Lemma ignored_shapes_keep_top_cell_witness :
  exists s' name,
    do_read 3 (default_reader "B 1 1 0 0; 94 txt 1 1; E") = Returns tt s' /\
    cells (layout s') = [Some (new_cell name)] /\
    (@nil (option Cell) = [] -> name = "CIF_TOP"%string).
Proof.
  refine (proj2 (ignored_shapes_keep_top_cell shapes_example [" "%char] []
                   (default_reader "") _ _ _ _)).
  - repeat constructor.
    + apply (shape_B [] (list_ascii_of_string " 1 1 0 0")); repeat constructor.
    + apply (shape_94 [" "%char] (list_ascii_of_string " txt 1 1"));
        repeat constructor.
  - cbn. lia.
  - cbn. lia.
  - repeat constructor.
Defined.

(** *** The assignment of layers *)























(** *** Instances *)

Lemma read_transformation_T fuel sf blanks str x str1 y str2 rest :
  all_blank blanks ->
  read_sinteger str = Returns x str1 ->
  read_sinteger str1 = Returns y str2 ->
  test_semi str2 = Returns true rest ->
  read_transformation (S (S fuel)) sf DCplxTrans_unit (blanks ++ "T"%char :: str)
  = Returns
      (DCplxTrans_mul
         (DCplxTrans_disp {| px := int_mul x sf; py := int_mul y sf |})
         DCplxTrans_unit)
      rest.
Proof.
  intros Hb Hx Hy Hsemi.
  assert (Hskip : skip_blanks_from (blanks ++ "T"%char :: str) = "T"%char :: str)
    by (now apply skip_blanks_from_blanks).
  cbn [read_transformation].
  erewrite bind_run.
  2:{ unfold test_semi, bind, skip_blanks, modify, at_end, peek_char, ret.
      rewrite Hskip. reflexivity. }
  cbn [negb andb]. change (char_is "T" ";") with false. cbv iota.
  erewrite bind_run by reflexivity.
  erewrite bind_run by reflexivity.
  change (char_is "T" "M") with false. change (char_is "T" "T") with true.
  cbv iota.
  erewrite bind_run.
  2:{ erewrite bind_run by exact Hx. erewrite bind_run by exact Hy. reflexivity. }
  erewrite bind_run by exact Hsemi. reflexivity.
Qed.

(** *** Numbers and separators *)

Lemma skip_sep_from_seps seps rest :
  all_sep seps -> at_sep_stop rest -> skip_sep_from (seps ++ rest) = rest.
Proof.
  intros Hs Hr. induction Hs as [|b seps Hb _ IH]; cbn [app].
  - destruct rest as [|c rest]; [reflexivity|]. cbn in Hr. cbn [skip_sep_from].
    now rewrite Hr.
  - cbn [skip_sep_from]. now rewrite Hb.
Qed.

Lemma digit_stops_sep c : isdigit c = true -> stops_sep c = true.
Proof. intros H. unfold stops_sep. now rewrite H. Qed.

Lemma digit_not_minus c : isdigit c = true -> char_is c "-" = false.
Proof.
  intros H. unfold char_is. destruct (Ascii.eqb_spec c "-") as [->|]; [|reflexivity].
  discriminate H.
Qed.

Lemma read_integer_digits_value c ds rest :
  all_digits (c :: ds) -> ends_number rest ->
  number_from 0 (c :: ds) <= INT_MAX ->
  read_integer_digits (c :: ds ++ rest) = Returns (number_from 0 (c :: ds)) rest.
Proof.
  intros Hds Hrest Hmax.
  unfold read_integer_digits, at_end, peek_char, bind.
  inversion Hds as [|? ? Hc _]; subst. rewrite Hc. cbn [orb negb]. unfold ret.
  apply (read_integer_digits_from_value (c :: ds) Hds 0 rest);
    [lia|exact Hmax|exact Hrest].
Qed.

Lemma read_integer_digits_none rest :
  ends_number rest -> read_integer_digits rest = Throws "Digit expected" rest.
Proof.
  intros Hr. unfold read_integer_digits, at_end, peek_char, bind.
  destruct rest as [|c rest]; [reflexivity|]. cbn in Hr. now rewrite Hr.
Qed.

(** X2.  After any separators, an optional minus sign directly followed by a
    decimal number of at most 2^31-1 is read by [read_sinteger] as that
    number, negated when the sign is there; the stream stands behind the
    last digit. *)
Theorem read_sinteger_value seps neg c ds rest :
  all_sep seps -> all_digits (c :: ds) -> ends_number rest ->
  number_from 0 (c :: ds) <= INT_MAX ->
  read_sinteger (seps ++ sign_text neg ++ c :: ds ++ rest)
  = Returns (if neg then - number_from 0 (c :: ds) else number_from 0 (c :: ds))
      rest.
Proof.
  intros Hseps Hds Hrest Hmax.
  assert (Hc : isdigit c = true) by (now inversion Hds).
  pose proof (number_from_ge (c :: ds) Hds 0 ltac:(lia)) as Hge.
  unfold read_sinteger, skip_sep, modify, bind at 1.
  rewrite skip_sep_from_seps; [|exact Hseps|].
  2:{ destruct neg; cbn; [reflexivity|now apply digit_stops_sep]. }
  destruct neg; cbn [sign_text app].
  - unfold bind, peek_char. cbn [char_is Ascii.eqb Bool.eqb andb]. cbv iota.
    unfold stream_get_char, ret.
    rewrite (read_integer_digits_value c ds rest Hds Hrest Hmax).
    f_equal. apply wrap_int_small. unfold INT_MAX in Hmax. lia.
  - unfold bind, peek_char. rewrite (digit_not_minus c Hc). unfold ret.
    now rewrite (read_integer_digits_value c ds rest Hds Hrest Hmax).
Qed.

Lemma read_sinteger_value_witness :
  read_sinteger (list_ascii_of_string ", -120 7;")
  = Returns (-120) (list_ascii_of_string " 7;").
Proof.
  apply (read_sinteger_value (list_ascii_of_string ", ") true "1"%char
           (list_ascii_of_string "20") (list_ascii_of_string " 7;")).
  - repeat constructor.
  - repeat constructor.
  - reflexivity.
  - vm_compute. discriminate.
Defined.

(** X3.  Where no digit follows, the number readers fail with the error
    "Digit expected" and leave the stream at the character they found:
    [read_integer] when the separators end at the end of the input or at
    one of - ( ) ;, and [read_sinteger] when the minus sign is not
    directly followed by a digit (blanks after the sign are not skipped). *)
Theorem digit_expected seps rest :
  all_sep seps -> ends_number rest ->
  (at_sep_stop rest -> read_integer (seps ++ rest) = Throws "Digit expected" rest) /\
  read_sinteger (seps ++ "-"%char :: rest) = Throws "Digit expected" rest.
Proof.
  intros Hseps Hrest. split.
  - intros Hstop. unfold read_integer, skip_sep, modify, bind at 1.
    rewrite skip_sep_from_seps by assumption.
    now apply read_integer_digits_none.
  - unfold read_sinteger, skip_sep, modify, bind at 1.
    rewrite skip_sep_from_seps; [|exact Hseps|reflexivity].
    unfold bind, peek_char. cbn [char_is Ascii.eqb Bool.eqb andb]. cbv iota.
    unfold stream_get_char, ret.
    now rewrite read_integer_digits_none.
Qed.

Lemma digit_expected_witness :
  read_integer (list_ascii_of_string " ;") = Throws "Digit expected" [";"%char] /\
  read_sinteger (list_ascii_of_string " - 5") =
    Throws "Digit expected" (list_ascii_of_string " 5").
Proof.
  destruct (digit_expected [" "%char] [";"%char]) as [H1 _];
    [repeat constructor|reflexivity|].
  destruct (digit_expected [" "%char] (list_ascii_of_string " 5")) as [_ H2];
    [repeat constructor|reflexivity|].
  split; [apply H1; reflexivity|exact H2].
Defined.

(** *** Blanks, separators and terminators *)

Lemma skip_blanks_from_split str :
  exists blanks,
    str = blanks ++ skip_blanks_from str /\ all_blank blanks /\
    at_blank_stop (skip_blanks_from str).
Proof.
  induction str as [|c str (blanks & Heq & Hb & Hstop)].
  - exists []. repeat split. constructor.
  - cbn [skip_blanks_from]. destruct (stops_blanks c) eqn:Hc.
    + exists []. repeat split; [constructor|exact Hc].
    + exists (c :: blanks). cbn [app]. split; [now f_equal|].
      split; [now constructor|exact Hstop].
Qed.

Lemma skip_sep_from_split str :
  exists seps,
    str = seps ++ skip_sep_from str /\ all_sep seps /\
    at_sep_stop (skip_sep_from str).
Proof.
  induction str as [|c str (seps & Heq & Hb & Hstop)].
  - exists []. repeat split. constructor.
  - cbn [skip_sep_from]. destruct (stops_sep c) eqn:Hc.
    + exists []. repeat split; [constructor|exact Hc].
    + exists (c :: seps). cbn [app]. split; [now f_equal|].
      split; [now constructor|exact Hstop].
Qed.

Lemma sep_stop_is_blank_stop c : stops_sep c = true -> stops_blanks c = true.
Proof.
  unfold stops_sep, stops_blanks. rewrite !orb_true_iff. tauto.
Qed.

Lemma skip_sep_after_blanks str :
  skip_sep_from (skip_blanks_from str) = skip_sep_from str.
Proof.
  induction str as [|c str IH]; [reflexivity|].
  cbn [skip_blanks_from skip_sep_from].
  destruct (stops_blanks c) eqn:Hb; [reflexivity|].
  destruct (stops_sep c) eqn:Hs; [|exact IH].
  apply sep_stop_is_blank_stop in Hs. congruence.
Qed.

(** X4.  [skip_blanks] and [skip_sep] never fail: each removes a prefix
    of the stream that consists of blanks (of separators) only and stops at
    the end of the input or at the first character that is none; skipping
    separators after blanks is skipping separators. *)
Theorem skip_blanks_and_separators str :
  (exists blanks rest,
     skip_blanks str = Returns tt rest /\ str = blanks ++ rest /\
     all_blank blanks /\ at_blank_stop rest) /\
  (exists seps rest,
     skip_sep str = Returns tt rest /\ str = seps ++ rest /\
     all_sep seps /\ at_sep_stop rest) /\
  bind skip_blanks (fun _ => skip_sep) str = skip_sep str.
Proof.
  split; [|split].
  - destruct (skip_blanks_from_split str) as (blanks & Heq & Hb & Hstop).
    exists blanks, (skip_blanks_from str). now repeat split.
  - destruct (skip_sep_from_split str) as (seps & Heq & Hb & Hstop).
    exists seps, (skip_sep_from str). now repeat split.
  - unfold bind, skip_blanks, skip_sep, modify.
    now rewrite skip_sep_after_blanks.
Qed.

Lemma test_semi_blanks blanks rest :
  all_blank blanks -> at_blank_stop rest ->
  test_semi (blanks ++ rest)
  = Returns (match rest with c :: _ => char_is c ";" | [] => false end) rest.
Proof.
  intros Hb Hr. unfold test_semi, skip_blanks, modify, bind at 1.
  replace (skip_blanks_from (blanks ++ rest)) with rest.
  - destruct rest; reflexivity.
  - destruct rest as [|c rest].
    + rewrite app_nil_r. induction Hb as [|b blanks Hb' _ IH]; [reflexivity|].
      cbn [skip_blanks_from]. now rewrite Hb'.
    + symmetry. now apply skip_blanks_from_blanks.
Qed.

(** X5.  [expect_semi] skips blanks and then takes the semicolon; when
    the blanks end at another character or at the end of the input it
    fails with "Expected ';' command terminator" and leaves the stream at
    that place. *)
Theorem expect_semi_terminator blanks rest :
  all_blank blanks -> at_blank_stop rest ->
  expect_semi (blanks ++ rest)
  = match rest with
    | c :: rest' =>
        if char_is c ";" then Returns tt rest'
        else Throws "Expected ';' command terminator" rest
    | [] => Throws "Expected ';' command terminator" []
    end.
Proof.
  intros Hb Hr. unfold expect_semi, bind at 1.
  rewrite test_semi_blanks by assumption.
  destruct rest as [|c rest']; [reflexivity|].
  destruct (char_is c ";"); reflexivity.
Qed.

Lemma expect_semi_terminator_witness :
  expect_semi (list_ascii_of_string "  ; E") = Returns tt (list_ascii_of_string " E") /\
  expect_semi (list_ascii_of_string " 5;")
  = Throws "Expected ';' command terminator" (list_ascii_of_string "5;").
Proof.
  split.
  - apply (expect_semi_terminator (list_ascii_of_string "  ")
             (list_ascii_of_string "; E")); [repeat constructor|reflexivity].
  - apply (expect_semi_terminator [" "%char] (list_ascii_of_string "5;"));
      [repeat constructor|reflexivity].
Defined.

Lemma skip_to_end_from_open tail : no_semicolon tail -> skip_to_end_from tail = [].
Proof.
  induction 1 as [|c tail Hc _ IH]; [reflexivity|].
  cbn [skip_to_end_from]. rewrite Hc. exact IH.
Qed.

(** X6.  [skip_to_end] never fails: it leaves the stream behind the first
    semicolon, and at the end of the input when there is no semicolon. *)
Theorem skip_to_end_semicolon tail :
  no_semicolon tail ->
  (forall rest, skip_to_end (tail ++ ";"%char :: rest) = Returns tt rest) /\
  skip_to_end tail = Returns tt [].
Proof.
  intros Ht. split.
  - intros rest. unfold skip_to_end, modify. now rewrite skip_to_end_from_tail.
  - unfold skip_to_end, modify. now rewrite skip_to_end_from_open.
Qed.

Lemma skip_to_end_semicolon_witness :
  skip_to_end (list_ascii_of_string "a (b; c;") = Returns tt (list_ascii_of_string " c;") /\
  skip_to_end (list_ascii_of_string "a (b") = Returns tt [].
Proof.
  destruct (skip_to_end_semicolon (list_ascii_of_string "a (b")) as [H1 H2];
    [repeat constructor|].
  split; [exact (H1 (list_ascii_of_string " c;"))|exact H2].
Defined.

(** *** Names and strings *)

Lemma span_chars_prefix p word rest :
  Forall (fun c => p c = true) word -> stops_at p rest ->
  span_chars p (word ++ rest) = (string_of_list_ascii word, rest).
Proof.
  intros Hw Hr. induction Hw as [|c word Hc _ IH]; cbn [app].
  - destruct rest as [|c rest]; [reflexivity|]. cbn in Hr. cbn [span_chars].
    now rewrite Hr.
  - cbn [span_chars string_of_list_ascii]. now rewrite Hc, IH.
Qed.

(** X7.  [read_name] gives the word that begins at the first upper case
    letter or digit after the blanks: lower case letters and the underscore
    are blanks in front of a name and are part of it only after its first
    character.  It gives the empty name, without failing, when the blanks
    end at a character that no name holds or at the end of the input. *)
Theorem read_name_token blanks rest :
  all_blank blanks ->
  (forall c tail,
     isupper c || isdigit c = true ->
     Forall (fun c => is_name_char c = true) tail ->
     stops_at is_name_char rest ->
     read_name (blanks ++ c :: tail ++ rest)
     = Returns (string_of_list_ascii (c :: tail)) rest) /\
  (at_blank_stop rest -> stops_at is_name_char rest ->
   read_name (blanks ++ rest) = Returns EmptyString rest).
Proof.
  intros Hb. split.
  - intros c tail Hc Htail Hrest.
    assert (Hstop : stops_blanks c = true).
    { unfold stops_blanks. apply orb_true_iff in Hc as [->| ->]; [reflexivity|].
      now rewrite orb_true_r. }
    assert (Hname : is_name_char c = true).
    { unfold is_name_char. apply orb_true_iff in Hc as [->| ->]; [reflexivity|].
      now rewrite !orb_true_r. }
    unfold read_name, skip_blanks, modify, bind, take_while.
    rewrite skip_blanks_from_blanks by assumption.
    change (c :: tail ++ rest) with ((c :: tail) ++ rest).
    rewrite (span_chars_prefix is_name_char (c :: tail) rest);
      [reflexivity|now constructor|assumption].
  - intros Hstop Hrest.
    unfold read_name, bind.
    pose proof (test_semi_blanks blanks rest Hb Hstop) as Ht.
    unfold test_semi, bind, skip_blanks, modify in *.
    destruct (skip_blanks_from (blanks ++ rest)) eqn:Hs; cbn in Ht;
      injection Ht as _ <-; unfold take_while.
    + reflexivity.
    + cbn in Hrest. cbn [span_chars]. now rewrite Hrest.
Qed.

Lemma read_name_token_witness :
  read_name (list_ascii_of_string " metal1_a;")
  = Returns "1_a"%string [";"%char].
Proof.
  destruct (read_name_token (list_ascii_of_string " metal") [";"%char]) as [H _].
  - repeat constructor.
  - apply (H "1"%char (list_ascii_of_string "_a")).
    + reflexivity.
    + repeat constructor.
    + reflexivity.
Defined.

Lemma stream_skip_from_spaces spaces rest :
  Forall (fun c => isspace c = true) spaces -> stops_at isspace rest ->
  stream_skip_from (spaces ++ rest) = rest.
Proof.
  intros Hs Hr. induction Hs as [|c spaces Hc _ IH]; cbn [app].
  - destruct rest as [|c rest]; [reflexivity|]. cbn in Hr.
    cbn [stream_skip_from]. now rewrite Hr.
  - cbn [stream_skip_from]. now rewrite Hc.
Qed.

Lemma read_quoted_from_text q s rest :
  is_quote q = true ->
  read_quoted_from q (quoted_text q s ++ q :: rest) = (s, q :: rest).
Proof.
  intros Hq.
  assert (Hqq : char_is q q = true) by apply Ascii.eqb_refl.
  assert (Hbq : char_is "\" q = false).
  { unfold is_quote, char_is in *. rewrite Ascii.eqb_sym.
    destruct (Ascii.eqb_spec q "\") as [->|]; [discriminate Hq|reflexivity]. }
  induction s as [|c s IH]; cbn [quoted_text app].
  - cbn [read_quoted_from]. now rewrite Hqq.
  - destruct (char_is c q) eqn:Hcq; cbn [orb].
    + cbn [app read_quoted_from]. rewrite Hbq.
      change (char_is "\" "\") with true. cbv iota. now rewrite IH.
    + destruct (char_is c "\") eqn:Hcb.
      * cbn [app read_quoted_from]. rewrite Hbq.
        change (char_is "\" "\") with true. cbv iota. now rewrite IH.
      * cbn [app read_quoted_from]. rewrite Hcq, Hcb. now rewrite IH.
Qed.

Lemma read_quoted_from_open q s :
  is_quote q = true ->
  read_quoted_from q (quoted_text q s) = (s, []).
Proof.
  intros Hq.
  assert (Hbq : char_is "\" q = false).
  { unfold is_quote, char_is in *. rewrite Ascii.eqb_sym.
    destruct (Ascii.eqb_spec q "\") as [->|]; [discriminate Hq|reflexivity]. }
  induction s as [|c s IH]; cbn [quoted_text app]; [reflexivity|].
  destruct (char_is c q) eqn:Hcq; cbn [orb].
  - cbn [app read_quoted_from]. rewrite Hbq.
    change (char_is "\" "\") with true. cbv iota. now rewrite IH.
  - destruct (char_is c "\") eqn:Hcb.
    + cbn [app read_quoted_from]. rewrite Hbq.
      change (char_is "\" "\") with true. cbv iota. now rewrite IH.
    + cbn [app read_quoted_from]. rewrite Hcq, Hcb. now rewrite IH.
Qed.

Lemma quote_not_space q : is_quote q = true -> isspace q = false.
Proof.
  unfold is_quote, char_is. intros H. apply orb_true_iff in H as [H|H];
    apply Ascii.eqb_eq in H; subst; reflexivity.
Qed.

(** X8.  A text between two quotes (both double or both single), written
    with a backslash before each of its quotes and backslashes, is read
    back by [read_string] after any white space, and the stream stands
    behind the closing quote; when the closing quote is missing the string
    runs to the end of the input without an error. *)
Theorem read_string_quoted spaces q s :
  Forall (fun c => isspace c = true) spaces -> is_quote q = true ->
  (forall rest,
     read_string (spaces ++ q :: quoted_text q s ++ q :: rest) = Returns s rest) /\
  read_string (spaces ++ q :: quoted_text q s) = Returns s [].
Proof.
  intros Hs Hq.
  assert (Hskip : forall r, stream_skip_from (spaces ++ q :: r) = q :: r).
  { intros r. apply stream_skip_from_spaces; [assumption|].
    now apply quote_not_space. }
  unfold is_quote in Hq.
  split; [intros rest|].
  all: unfold read_string, stream_skip, modify, bind at 1; rewrite Hskip.
  all: unfold bind, at_end, peek_char; rewrite Hq; unfold get_char, bind, at_end,
         stream_get_char.
  - rewrite read_quoted_from_text by exact Hq. reflexivity.
  - rewrite read_quoted_from_open by exact Hq. reflexivity.
Qed.

Lemma read_string_quoted_witness :
  read_string (list_ascii_of_string " 'it\'s' 1 2;")
  = Returns "it's"%string (list_ascii_of_string " 1 2;").
Proof.
  destruct (read_string_quoted [" "%char] "'"%char "it's") as [H _].
  - repeat constructor.
  - reflexivity.
  - exact (H (list_ascii_of_string " 1 2;")).
Defined.

(** X9.  A string that does not begin with a quote is read by
    [read_string], after any white space, up to the next white space or
    semicolon, which stays in the stream. *)
Theorem read_string_word spaces c word rest :
  Forall (fun c => isspace c = true) spaces ->
  is_word_char c = true -> is_quote c = false ->
  Forall (fun c => is_word_char c = true) word ->
  stops_at is_word_char rest ->
  read_string (spaces ++ c :: word ++ rest)
  = Returns (string_of_list_ascii (c :: word)) rest.
Proof.
  intros Hs Hc Hq Hw Hr.
  assert (Hsp : isspace c = false).
  { unfold is_word_char in Hc. apply andb_true_iff in Hc as [Hc _].
    now apply negb_true_iff in Hc. }
  unfold read_string, stream_skip, modify, bind at 1.
  rewrite stream_skip_from_spaces; [|assumption|exact Hsp].
  unfold bind, at_end, peek_char. unfold is_quote in Hq. rewrite Hq.
  unfold take_while.
  change (c :: word ++ rest) with ((c :: word) ++ rest).
  fold is_word_char.
  rewrite (span_chars_prefix is_word_char (c :: word) rest);
    [reflexivity|now constructor|assumption].
Qed.

Lemma read_string_word_witness :
  read_string (list_ascii_of_string "  vdd! 3 4;")
  = Returns "vdd!"%string (list_ascii_of_string " 3 4;").
Proof.
  apply (read_string_word (list_ascii_of_string "  ") "v"%char
           (list_ascii_of_string "dd!") (list_ascii_of_string " 3 4;")).
  - repeat constructor.
  - reflexivity.
  - reflexivity.
  - repeat constructor.
  - reflexivity.
Defined.

(** *** Layer names *)

Lemma string_append_cons c (s r : string) :
  (String c s ++ r)%string = String c (s ++ r)%string.
Proof. reflexivity. Qed.

Lemma string_append_nil (r : string) : ("" ++ r)%string = r.
Proof. reflexivity. Qed.

Lemma string_append_empty (s : string) : (s ++ "")%string = s.
Proof.
  induction s as [|c s IH]; [reflexivity|].
  change (String c s +:+ "")%string with (String c (s +:+ "")). now rewrite IH.
Qed.

Lemma layer_digits_value ds :
  all_digits (list_ascii_of_string ds) ->
  forall i rest,
    0 <= i -> number_from i (list_ascii_of_string ds) <= INT_MAX ->
    no_digit_next rest ->
    layer_digits i (ds ++ rest) = (number_from i (list_ascii_of_string ds), rest).
Proof.
  induction ds as [|c ds IH]; intros Hds i rest Hi Hmax Hrest.
  - cbn [String.append list_ascii_of_string number_from].
    destruct rest as [|c rest]; [reflexivity|].
    unfold no_digit_next in Hrest. cbn [starts_with_digit] in Hrest.
    change ("" +:+ String c rest)%string with (String c rest).
    cbn [layer_digits]. now rewrite Hrest.
  - cbn [list_ascii_of_string] in *. inversion Hds as [|? ? Hc Hds']; subst.
    change (String c ds +:+ rest)%string with (String c (ds +:+ rest)).
    cbn [number_from layer_digits] in *. rewrite Hc.
    pose proof (digit_value_range c Hc) as Hd.
    pose proof (number_from_ge _ Hds' (i * 10 + digit_value c)) as Hge.
    unfold INT_MAX in *.
    rewrite wrap_int_small by lia.
    apply IH; [assumption|lia|assumption|assumption].
Qed.

Lemma denotes_starts ds v : denotes ds v -> starts_with_digit ds = true.
Proof.
  intros (Hne & Hds & _). destruct ds as [|c ds]; [contradiction|].
  cbn in *. now inversion Hds.
Qed.

Lemma denotes_layer_digits ds v rest :
  denotes ds v -> no_digit_next rest -> layer_digits 0 (ds ++ rest) = (v, rest).
Proof.
  intros (Hne & Hds & -> & Hmax) Hrest.
  apply layer_digits_value; [assumption|lia|assumption|assumption].
Qed.

Lemma layer_digits_all_digits s :
  forall i l, layer_digits i s = (l, EmptyString) ->
  all_digits (list_ascii_of_string s).
Proof.
  induction s as [|c s IH]; intros i l H; [constructor|].
  cbn [layer_digits] in H. destruct (isdigit c) eqn:Hc; [|discriminate].
  cbn [list_ascii_of_string]. constructor; [exact Hc|]. eapply IH; exact H.
Qed.

(** X10.  [extract_plain_layer] accepts a nonempty string of digits (of a
    value an [int] holds) with its value, and accepts nothing else: an
    accepted name is not empty and consists of digits only.  Every name it
    accepts is accepted by [extract_ld] too, as the same layer with
    datatype 0 and no name. *)
Theorem extract_plain_layer_digits :
  (forall ds v, denotes ds v -> extract_plain_layer ds = Some v) /\
  (forall s l,
     extract_plain_layer s = Some l ->
     s <> EmptyString /\ all_digits (list_ascii_of_string s) /\
     extract_ld s = Some (l, 0, EmptyString)).
Proof.
  split.
  - intros ds v Hd. pose proof (denotes_layer_digits ds v EmptyString Hd eq_refl) as H.
    rewrite string_append_empty in H.
    destruct Hd as (Hne & _). unfold extract_plain_layer.
    destruct ds; [contradiction|]. now rewrite H.
  - intros s l H. unfold extract_plain_layer in H.
    destruct s as [|c s]; [discriminate|].
    destruct (layer_digits 0 (String c s)) as [l' r] eqn:Hl.
    destruct r; [|discriminate]. injection H as ->.
    pose proof (layer_digits_all_digits _ _ _ Hl) as Hds.
    split; [discriminate|]. split; [exact Hds|].
    cbn [list_ascii_of_string] in Hds. inversion Hds as [|? ? Hc _]; subst.
    unfold extract_ld.
    replace (char_is c "L") with false.
    2:{ symmetry. unfold char_is. destruct (Ascii.eqb_spec c "L") as [->|];
          [discriminate Hc|reflexivity]. }
    cbn [starts_with_digit]. rewrite Hc. cbn [negb]. now rewrite Hl.
Qed.

(** X11.  [extract_ld] reads the notation of a layer: an optional [L],
    the layer number, optionally [D] or a dot and the datatype number
    (datatype 0 when absent), optionally an underscore or a white space
    and the name that follows it (no name when absent). *)
Theorem extract_ld_notation with_l dl l dd tag :
  denotes dl l ->
  match dd with
  | Some (dsep, d) => is_datatype_sep dsep = true /\ exists v, denotes d v
  | None => True
  end ->
  match tag with
  | Some (tsep, _) => is_tag_sep tsep = true
  | None => True
  end ->
  extract_ld (ld_name with_l dl dd tag)
  = Some (l,
          match dd with
          | Some (_, d) => number_from 0 (list_ascii_of_string d)
          | None => 0
          end,
          match tag with Some (_, n) => n | None => EmptyString end).
Proof.
  intros Hl Hdd Htag.
  pose proof (denotes_starts dl l Hl) as Hstart.
  assert (Hhead : forall r, starts_with_digit (dl ++ r) = true).
  { intros r. destruct dl; [discriminate|exact Hstart]. }
  assert (HnotL : forall r,
            match (dl ++ r)%string with
            | String c rest => if char_is c "L" then rest else (dl ++ r)%string
            | EmptyString => (dl ++ r)%string
            end = (dl ++ r)%string).
  { intros r. destruct dl as [|c dl]; [discriminate|].
    rewrite string_append_cons. cbn [starts_with_digit] in Hstart.
    replace (char_is c "L") with false; [reflexivity|].
    symmetry. unfold char_is. destruct (Ascii.eqb_spec c "L") as [->|];
      [discriminate Hstart|reflexivity]. }
  assert (Htsep : forall c, is_tag_sep c = true -> isdigit c = false).
  { intros c. unfold is_tag_sep, char_is. intros H.
    destruct (isdigit c) eqn:Hc; [|reflexivity].
    apply orb_true_iff in H as [H|H].
    - unfold isspace, char_is in H. apply orb_true_iff in H as [H|H].
      + apply Ascii.eqb_eq in H. subst. discriminate.
      + unfold isdigit, char_between, Ascii.leb, Ascii.compare in *.
        revert H Hc. generalize (N_of_ascii c). intros n.
        change (N_of_ascii "009") with 9%N. change (N_of_ascii "013") with 13%N.
        change (N_of_ascii "0") with 48%N. change (N_of_ascii "9") with 57%N.
        destruct (9 ?= n)%N eqn:H1, (n ?= 13)%N eqn:H2, (48 ?= n)%N eqn:H3;
          cbn; try discriminate;
          rewrite ?N.compare_eq_iff, ?N.compare_lt_iff, ?N.compare_gt_iff in *;
          lia.
    - apply Ascii.eqb_eq in H. subst. discriminate. }
  assert (Hdsep : forall c, is_datatype_sep c = true -> isdigit c = false).
  { intros c. unfold is_datatype_sep, char_is. intros H.
    apply orb_true_iff in H as [H|H]; apply Ascii.eqb_eq in H; subst; reflexivity. }
  assert (Hsepsep : forall c, is_tag_sep c = true -> is_datatype_sep c = false).
  { intros c H. unfold is_datatype_sep, char_is.
    destruct (Ascii.eqb_spec c "D") as [->|]; [discriminate H|].
    destruct (Ascii.eqb_spec c ".") as [->|]; [discriminate H|reflexivity]. }
  unfold ld_name, extract_ld.
  set (body := (dl ++ _)%string).
  replace (match ((if with_l then "L" else "") ++ body)%string with
           | String c rest =>
               if char_is c "L" then rest
               else ((if with_l then "L" else "") ++ body)%string
           | EmptyString => ((if with_l then "L" else "") ++ body)%string
           end) with body.
  2:{ destruct with_l; [reflexivity|]. rewrite string_append_nil. subst body.
      now rewrite HnotL. }
  subst body. rewrite Hhead. cbn [negb].
  destruct dd as [[dsep d]|].
  - destruct Hdd as (Hsep & v & Hd).
    rewrite (denotes_layer_digits dl l _ Hl) by (apply Hdsep; exact Hsep).
    unfold is_datatype_sep in Hsep. rewrite string_append_cons. cbv iota.
    rewrite Hsep.
    pose proof (denotes_starts d v Hd) as Hdstart.
    replace (starts_with_digit (d ++ _)) with true
      by (destruct d; [discriminate|symmetry; exact Hdstart]).
    cbn [negb].
    destruct tag as [[tsep n]|].
    + rewrite (denotes_layer_digits d v _ Hd) by (apply Htsep; exact Htag).
      unfold is_tag_sep in Htag. rewrite Htag.
      destruct Hd as (_ & _ & -> & _). reflexivity.
    + rewrite (denotes_layer_digits d v _ Hd) by reflexivity.
      destruct Hd as (_ & _ & -> & _). reflexivity.
  - destruct tag as [[tsep n]|].
    + rewrite (denotes_layer_digits dl l _ Hl) by (apply Htsep; exact Htag).
      pose proof (Hsepsep tsep Htag) as Hns. unfold is_datatype_sep in Hns.
      rewrite string_append_nil. cbv iota. rewrite Hns.
      unfold is_tag_sep in Htag. now rewrite Htag.
    + rewrite (denotes_layer_digits dl l _ Hl) by reflexivity. reflexivity.
Qed.

Lemma extract_ld_notation_witness :
  extract_ld "L12D3_met" = Some (12, 3, "met"%string).
Proof.
  apply (extract_ld_notation true "12" 12 (Some ("D"%char, "3"%string))
           (Some ("_"%char, "met"%string))).
  - repeat split; [discriminate|repeat constructor|vm_compute; discriminate].
  - split; [reflexivity|]. exists 3.
    repeat split; [discriminate|repeat constructor|vm_compute; discriminate].
  - reflexivity.
Defined.

Lemma extract_plain_layer_digits_witness :
  extract_plain_layer "045" = Some 45 /\ extract_ld "045" = Some (45, 0, EmptyString).
Proof.
  destruct extract_plain_layer_digits as [H1 H2].
  assert (H : extract_plain_layer "045" = Some 45).
  { apply H1. repeat split; [discriminate|repeat constructor|vm_compute; discriminate]. }
  split; [exact H|]. apply (H2 "045"%string 45 H).
Defined.

(** *** Errors of the command loop *)

Lemma read_cell_exception fuel cell sf level s e :
  (forall st, m_stream st = m_stream s -> m_cellname st = m_cellname s ->
     exception (read_cell_loop fuel cell sf level init_locals st) = Some e) ->
  exception (read_cell fuel cell sf level s) = Some e.
Proof.
  intros H. unfold read_cell, read_cell_frame, bind, get_state, warn, modify, ret.
  destruct (scale_is_not_integer sf).
  - match goal with
    | |- context [read_cell_loop _ _ _ _ _ ?st] =>
        specialize (H st eq_refl eq_refl);
        destruct (read_cell_loop fuel cell sf level init_locals st)
    end; try discriminate H. exact H.
  - specialize (H s eq_refl eq_refl).
    destruct (read_cell_loop fuel cell sf level init_locals s);
      try discriminate H. exact H.
Qed.

Lemma do_read_exception fuel s e :
  (forall st, m_stream st = m_stream s -> m_cellname st = "{CIF top level}"%string ->
     exception (read_cell_loop fuel (length (cells (layout s))) (0.01 / m_dbu s) 0
                  init_locals st) = Some e) ->
  exception (do_read fuel s) = Some e.
Proof.
  intros H. rewrite do_read_unfold.
  pose proof (read_cell_exception fuel (length (cells (layout s)))
                (0.01 / m_dbu s) 0 (prepare s) e) as Hr.
  destruct (read_cell fuel (length (cells (layout s))) (0.01 / m_dbu s) 0
              (prepare s)).
  - discriminate Hr. intros st Hst Hname. apply H; assumption.
  - apply Hr. intros st Hst Hname. apply H; assumption.
  - discriminate Hr. intros st Hst Hname. apply H; assumption.
Qed.

Lemma skip_comment_from_unclosed body :
  unclosed body ->
  forall bl, 0 <= bl -> bl + Z.of_nat (length body) < 2 ^ 31 ->
  skip_comment_from bl body = [].
Proof.
  induction 1 as [body Hb|body tail Hb _ IH]; intros bl Hbl Hlen.
  - rewrite <- (app_nil_r body).
    now rewrite skip_comment_from_balanced by (trivial; lia).
  - rewrite length_app in Hlen. cbn [length] in Hlen.
    rewrite skip_comment_from_balanced by (trivial; lia).
    cbn [skip_comment_from].
    change (char_is "(" ")") with false. change (char_is "(" "(") with true.
    cbn [negb orb]. rewrite wrap_int_small by lia.
    apply IH; lia.
Qed.

Lemma read_cell_loop_end fuel cell sf level l s blanks :
  all_blank blanks ->
  read_cell_loop (S fuel) cell sf level l (set_stream blanks s)
  = Throws "Unexpected end of file" (set_stream [] s).
Proof.
  intros Hb. cbn [read_cell_loop].
  assert (Hskip : lex skip_blanks (set_stream blanks s)
                  = Returns tt (set_stream [] s)).
  { unfold lex, skip_blanks, modify. cbn [m_stream set_stream].
    replace (skip_blanks_from blanks) with (@nil ascii); [reflexivity|].
    induction Hb as [|b blanks Hb' _ IH]; [reflexivity|].
    cbn [skip_blanks_from]. now rewrite Hb'. }
  rewrite (bind_run _ _ _ _ _ Hskip). reflexivity.
Qed.

(** X12.  A comment that is not closed before the input ends is no error
    for [skip_comment], which runs to the end of the input; the command
    loop then fails with "Unexpected end of file", which [do_read] reports
    for the top level. *)
Theorem unterminated_comment body :
  unclosed body -> Z.of_nat (length body) < 2 ^ 31 ->
  skip_comment body = Returns tt [] /\
  (forall fuel cell sf level l s,
     read_cell_loop (S (S fuel)) cell sf level l (set_stream ("("%char :: body) s)
     = Throws "Unexpected end of file" (set_stream [] s)) /\
  (forall fuel s,
     exception (do_read (S (S fuel)) (set_stream ("("%char :: body) s))
     = Some ("Unexpected end of file", "{CIF top level}")%string).
Proof.
  intros Hu Hlen.
  assert (Hskip : skip_comment body = Returns tt []).
  { unfold skip_comment, modify. now rewrite skip_comment_from_unclosed by (trivial; lia). }
  assert (Hloop : forall fuel cell sf level l s,
            read_cell_loop (S (S fuel)) cell sf level l
              (set_stream ("("%char :: body) s)
            = Throws "Unexpected end of file" (set_stream [] s)).
  { intros fuel cell sf level l s.
    remember (S fuel) as fuel1. cbn [read_cell_loop].
    rewrite (bind_run _ _ _ _ _ (lex_skip_blanks_stop "(" _ _ eq_refl)).
    rewrite (bind_run _ _ _ _ _ (lex_get_char_cons _ _ _)).
    unfold read_command.
    change (char_is "(" ";") with false. change (char_is "(" "(") with true.
    cbn iota.
    assert (Hlex : lex skip_comment (set_stream body s)
                   = Returns tt (set_stream [] s)).
    { unfold lex. cbn [m_stream set_stream]. now rewrite Hskip. }
    erewrite bind_run.
    2:{ erewrite bind_run.
        2:{ erewrite bind_run; [|exact Hlex]. reflexivity. }
        reflexivity. }
    cbv beta iota. subst fuel1.
    exact (read_cell_loop_end fuel cell sf level l s [] ltac:(constructor)). }
  split; [exact Hskip|]. split; [exact Hloop|].
  intros fuel s. apply do_read_exception. intros st Hst Hname.
  rewrite <- (set_stream_same st), Hst. cbn [m_stream set_stream].
  rewrite Hloop. cbn [exception m_cellname set_stream]. now rewrite Hname.
Qed.

Lemma unterminated_comment_witness :
  exception (do_read 2 (default_reader "(a (b) (c"))
  = Some ("Unexpected end of file", "{CIF top level}")%string.
Proof.
  assert (Hu : unclosed (list_ascii_of_string "a (b) (c")).
  { apply (unclosed_open (list_ascii_of_string "a (b) ") ["c"%char]).
    - apply balanced_char; [reflexivity..|].
      apply balanced_char; [reflexivity..|].
      apply (balanced_nest ["b"%char] [" "%char]).
      + apply balanced_char; [reflexivity..|]. apply balanced_nil.
      + apply balanced_char; [reflexivity..|]. apply balanced_nil.
    - apply unclosed_balanced.
      apply balanced_char; [reflexivity..|]. apply balanced_nil. }
  destruct (unterminated_comment _ Hu ltac:(cbn; lia)) as (_ & _ & H).
  exact (H 0%nat (default_reader "")).
Defined.

(** *** The terminators of the command loop *)

Lemma read_command_break rc fuel cell sf level c l s r s' :
  read_command rc fuel cell sf level c l s = Returns r s' -> fst r = true ->
  (exists log, cmd_log s' = log ++ [CmdE] /\ (0 <? level) = false) \/
  (exists log, cmd_log s' = log ++ [CmdDF] /\ (level =? 0) = false).
Proof.
  unfold read_command. intros H Hr. run_more; try discriminate Hr.
  - left. unfold command_E in *. run_more. eexists. split; reflexivity.
  - right. unfold command_DF in *. run_more.
    eexists. split; reflexivity.
Qed.

Lemma read_cell_loop_last fuel :
  forall cell sf level l s l' s',
    read_cell_loop fuel cell sf level l s = Returns l' s' ->
    (last (cmd_log s') = Some CmdE /\ (0 <? level) = false) \/
    (last (cmd_log s') = Some CmdDF /\ (level =? 0) = false).
Proof.
  induction fuel as [|fuel IH]; intros cell sf level l s l' s' H.
  - discriminate H.
  - cbn [read_cell_loop] in H. run_more.
    + match goal with
      | Hc : read_command _ _ _ _ _ _ _ _ = _ |- _ =>
          apply read_command_break in Hc; [|reflexivity];
          destruct Hc as [(log & -> & Hl)|(log & -> & Hl)]
      end.
      * left. split; [apply last_snoc|exact Hl].
      * right. split; [apply last_snoc|exact Hl].
    + eapply IH. eassumption.
Qed.

(** X13.  A read that succeeds has taken up an [E] command, and it is the
    last command it took up: the command loop of the top level is left
    through [E] only ([DF] is an error there). *)
Theorem read_ends_with_E fuel s s' :
  do_read fuel s = Returns tt s' -> last (cmd_log s') = Some CmdE.
Proof.
  intros H. apply do_read_returns in H.
  destruct H as (sf & s0 & l & s1 & _ & _ & _ & Hloop & _ & -> & _).
  apply read_cell_loop_last in Hloop.
  destruct Hloop as [[Hlast _]|[_ Hl]]; [exact Hlast|discriminate Hl].
Qed.

Lemma read_ends_with_E_witness :
  last (cmd_log (state_of (do_read 20 top_example) top_example)) = Some CmdE.
Proof.
  apply (read_ends_with_E 20 top_example). vm_compute. reflexivity.
Defined.

Lemma bind_throws {S A B} (m : Comp S A) (k : A -> Comp S B) s msg s' :
  m s = Throws msg s' -> bind m k s = Throws msg s'.
Proof. intros H. unfold bind. now rewrite H. Qed.

Lemma lex_get_char_at st c rest :
  m_stream st = c :: rest -> lex get_char st = Returns c (set_stream rest st).
Proof. intros H. unfold lex, get_char, bind, at_end, stream_get_char. now rewrite H. Qed.

(** X14.  At any turn of the command loop: [E] inside a cell definition
    (level above 0) fails with "'E' command must be outside a cell
    specification"; [DF] at the top level fails with the message "'DS'
    command must be inside a cell specification"; and [D] followed by a
    command character other than [S], [F] and [D] fails with "Invalid 'D'
    sub-command".  The stream stands behind the command characters. *)
Theorem misplaced_terminator blanks rest fuel cell sf level l s :
  all_blank blanks ->
  (0 < level ->
   read_cell_loop (S fuel) cell sf level l (set_stream (blanks ++ "E"%char :: rest) s)
   = Throws "'E' command must be outside a cell specification"
       (set_cmd_log (cmd_log s ++ [CmdE]) (set_stream rest s))) /\
  (level = 0 ->
   forall blanks',
     all_blank blanks' ->
     read_cell_loop (S fuel) cell sf level l
       (set_stream (blanks ++ "D"%char :: blanks' ++ "F"%char :: rest) s)
     = Throws "'DS' command must be inside a cell specification"
         (set_cmd_log (cmd_log s ++ [CmdDF]) (set_stream rest s))) /\
  (forall blanks' c,
     all_blank blanks' -> stops_blanks c = true ->
     char_is c "S" = false -> char_is c "F" = false -> char_is c "D" = false ->
     read_cell_loop (S fuel) cell sf level l
       (set_stream (blanks ++ "D"%char :: blanks' ++ c :: rest) s)
     = Throws "Invalid 'D' sub-command"
         (set_cmd_log (cmd_log s ++ [CmdDInvalid]) (set_stream rest s))).
Proof.
  intros Hb. split; [|split].
  - intros Hlevel. cbn [read_cell_loop].
    rewrite (bind_run _ _ _ _ _ (lex_skip_blanks_blanks blanks "E" _ _ Hb eq_refl)).
    rewrite (bind_run _ _ _ _ _ (lex_get_char_cons _ _ _)).
    unfold read_command.
    cbn [char_is Ascii.eqb Bool.eqb andb]. cbv iota.
    unfold command_E, bind, log_command, modify.
    replace (0 <? level) with true by (symmetry; now apply Z.ltb_lt).
    reflexivity.
  - intros -> blanks' Hb'. cbn [read_cell_loop].
    rewrite (bind_run _ _ _ _ _ (lex_skip_blanks_blanks blanks "D" _ _ Hb eq_refl)).
    rewrite (bind_run _ _ _ _ _ (lex_get_char_cons _ _ _)).
    unfold read_command.
    cbn [char_is Ascii.eqb Bool.eqb andb]. cbv iota.
    apply bind_throws.
    rewrite (bind_run _ _ _ _ _
               (lex_skip_blanks_blanks blanks' "F" _ _ Hb' eq_refl)).
    rewrite (bind_run _ _ _ _ _ (lex_get_char_cons _ _ _)).
    reflexivity.
  - intros blanks' c Hb' Hc HS HF HD. cbn [read_cell_loop].
    rewrite (bind_run _ _ _ _ _ (lex_skip_blanks_blanks blanks "D" _ _ Hb eq_refl)).
    rewrite (bind_run _ _ _ _ _ (lex_get_char_cons _ _ _)).
    unfold read_command.
    cbn [char_is Ascii.eqb Bool.eqb andb]. cbv iota.
    apply bind_throws.
    rewrite (bind_run _ _ _ _ _ (lex_skip_blanks_blanks blanks' c _ _ Hb' Hc)).
    rewrite (bind_run _ _ _ _ _ (lex_get_char_cons _ _ _)).
    rewrite HS, HF, HD. reflexivity.
Qed.

Lemma misplaced_terminator_witness :
  exception (do_read 5 (default_reader "DS 1; E"))
  = Some ("'E' command must be outside a cell specification", "C1")%string /\
  read_cell_loop 1 0 10 0 init_locals (default_reader " D F;")
  = Throws "'DS' command must be inside a cell specification"
      (set_cmd_log [CmdDF] (default_reader ";")).
Proof.
  split; [vm_compute; reflexivity|].
  destruct (misplaced_terminator [" "%char] [";"%char] 0 0%nat 10%float 0
              init_locals (default_reader "")) as (_ & H & _);
    [repeat constructor|].
  exact (H eq_refl [" "%char] ltac:(repeat constructor)).
Defined.

(** *** The instance of a [C] command *)

Lemma read_integer_number v text rest :
  number_text v text -> ends_number rest ->
  read_integer (text ++ rest) = Returns v rest.
Proof.
  intros (seps & c & ds & -> & Hseps & Hds & -> & Hmax) Hrest.
  rewrite <- app_assoc. cbn [app].
  unfold read_integer, skip_sep, modify, bind at 1.
  rewrite skip_sep_from_seps; [|exact Hseps|].
  2:{ cbn. apply digit_stops_sep. now inversion Hds. }
  now apply read_integer_digits_value.
Qed.

Lemma read_sinteger_number v text rest :
  signed_text v text -> ends_number rest ->
  read_sinteger (text ++ rest) = Returns v rest.
Proof.
  intros (seps & neg & c & ds & -> & Hseps & Hds & Hmax & ->) Hrest.
  assert (Hc : isdigit c = true) by (now inversion Hds).
  pose proof (number_from_ge (c :: ds) Hds 0 ltac:(lia)) as Hge.
  rewrite <- !app_assoc. cbn [app].
  unfold read_sinteger, skip_sep, modify, bind at 1.
  rewrite skip_sep_from_seps; [|exact Hseps|].
  2:{ destruct neg; cbn; [reflexivity|now apply digit_stops_sep]. }
  destruct neg; cbn [sign_text app].
  - unfold bind, peek_char. cbn [char_is Ascii.eqb Bool.eqb andb]. cbv iota.
    unfold stream_get_char, ret.
    rewrite (read_integer_digits_value c ds rest Hds Hrest Hmax).
    f_equal. apply wrap_int_small. unfold INT_MAX in Hmax. lia.
  - unfold bind, peek_char. rewrite (digit_not_minus c Hc). unfold ret.
    now rewrite (read_integer_digits_value c ds rest Hds Hrest Hmax).
Qed.

Lemma blanks_end_number blanks c rest :
  all_blank blanks -> isdigit c = false -> ends_number (blanks ++ c :: rest).
Proof.
  intros Hb Hc. destruct Hb as [|b blanks Hb _]; cbn; [exact Hc|].
  unfold stops_blanks in Hb. destruct (isdigit b); [|reflexivity].
  now rewrite orb_true_r in Hb.
Qed.

Lemma ends_number_app text rest :
  text <> [] -> ends_number text -> ends_number (text ++ rest).
Proof. destruct text; [contradiction|trivial]. Qed.

Lemma lex_run {A} (m : Lex A) st a rest :
  m (m_stream st) = Returns a rest -> lex m st = Returns a (set_stream rest st).
Proof. intros H. unfold lex. now rewrite H. Qed.

(** The run of a [C] command from the runs of its parts. *)
Lemma command_C_run fuel cell sf l s n0 str1 trans str2 str3 :
  read_integer (m_stream s) = Returns n0 str1 ->
  read_transformation fuel sf DCplxTrans_unit str1 = Returns trans str2 ->
  expect_semi str2 = Returns tt str3 ->
  command_C fuel cell sf l s
  = Returns (set_array 0 0 0 0 (incr_insts l))
      (called cell sf l (wrap_uint n0) trans str3 s).
Proof.
  intros Hn Ht Hsemi. unfold command_C. cbv zeta.
  rewrite (bind_run _ _ _ _ _ (lex_run _ _ _ _ Hn)).
  erewrite bind_run by reflexivity.
  erewrite bind_run by reflexivity.
  unfold called, cell_of_id.
  cbn [m_cells_by_id set_cmd_log set_stream layout].
  destruct (m_cells_by_id s !! wrap_uint n0) as [ci|].
  - erewrite bind_run by reflexivity.
    erewrite bind_run by (apply lex_run; exact Ht).
    erewrite bind_run by reflexivity.
    erewrite bind_run by (apply lex_run; exact Hsemi).
    reflexivity.
  - unfold add_cell. erewrite bind_run by reflexivity.
    erewrite bind_run by (apply lex_run; exact Ht).
    erewrite bind_run by reflexivity.
    erewrite bind_run by (apply lex_run; exact Hsemi).
    reflexivity.
Qed.

(** What the run of a [C] command that returns was made of. *)
Lemma command_C_returns fuel cell sf l s l' s' :
  command_C fuel cell sf l s = Returns l' s' ->
  exists n0 str1 trans str2 str3,
    read_integer (m_stream s) = Returns n0 str1 /\
    read_transformation fuel sf DCplxTrans_unit str1 = Returns trans str2 /\
    expect_semi str2 = Returns tt str3 /\
    l' = set_array 0 0 0 0 (incr_insts l) /\
    s' = called cell sf l (wrap_uint n0) trans str3 s.
Proof.
  intros H. pose proof H as Hrun. unfold command_C in Hrun. run_more.
  all: repeat match goal with
         | H : _ (m_stream _) = Returns _ _ |- _ =>
             cbn [m_stream set_stream set_cmd_log set_cells_by_id set_layout] in H
         end.
  all: match goal with
       | Hn : read_integer _ = Returns _ _,
         Ht : read_transformation _ _ _ _ = Returns _ _,
         Hs : expect_semi _ = Returns ?u _ |- _ =>
           destruct u;
           rewrite (command_C_run _ cell _ l _ _ _ _ _ _ Hn Ht Hs) in H;
           injection H as H;
           eexists _, _, _, _, _;
           split; [exact Hn|]; split; [exact Ht|]; split; [exact Hs|];
           split; [reflexivity|symmetry; exact H]
       end.
Qed.

Lemma called_set_stream cell sf l n trans rest str s :
  called cell sf l n trans rest (set_stream str s)
  = called cell sf l n trans rest s.
Proof.
  unfold called, cell_of_id.
  cbn [m_cells_by_id set_cmd_log set_stream layout cmd_log].
  destruct (m_cells_by_id s !! n); reflexivity.
Qed.

Lemma number_text_range v text : number_text v text -> 0 <= v <= INT_MAX.
Proof.
  intros (seps & c & ds & _ & _ & Hds & -> & Hmax).
  pose proof (number_from_ge (c :: ds) Hds 0 ltac:(lia)). lia.
Qed.

Lemma signed_text_nonempty v text : signed_text v text -> text <> [].
Proof.
  intros (seps & neg & c & ds & -> & _). destruct seps, neg; discriminate.
Qed.

Lemma read_cell_loop_call fuel cell sf level l s blanks text n0 str1 trans str2 str3 :
  all_blank blanks ->
  read_integer text = Returns n0 str1 ->
  read_transformation fuel sf DCplxTrans_unit str1 = Returns trans str2 ->
  expect_semi str2 = Returns tt str3 ->
  read_cell_loop (S fuel) cell sf level l
    (set_stream (blanks ++ "C"%char :: text) s)
  = read_cell_loop fuel cell sf level (set_array 0 0 0 0 (incr_insts l))
      (called cell sf l (wrap_uint n0) trans str3 s).
Proof.
  intros Hb Hn Ht Hsemi. cbn [read_cell_loop].
  rewrite (bind_run _ _ _ _ _ (lex_skip_blanks_blanks blanks "C" _ _ Hb eq_refl)).
  rewrite (bind_run _ _ _ _ _ (lex_get_char_cons _ _ _)).
  unfold read_command. cbn [char_is Ascii.eqb Bool.eqb andb]. cbv iota.
  erewrite bind_run.
  2:{ erewrite bind_run; [reflexivity|].
      apply (command_C_run fuel cell sf l (set_stream text s) n0 str1 trans str2
               str3); assumption. }
  cbv beta iota. now rewrite called_set_stream.
Qed.

(** The linear part of a transformation is a rotation or a mirrored
    rotation up to scale: the image of the y axis is the image of the x
    axis turned by a right angle, to the left or to the right. *)
Lemma linear_part_similar t :
  let '((a, c), (b, d)) := linear_part t in
  (b = - c /\ d = a) \/ (b = c /\ d = - a).
Proof.
  induction t as [|[|]|p|x y|t1 IH1 t2 IH2]; cbn [linear_part];
    try (left; split; reflexivity); try (right; split; reflexivity).
  unfold linear_mul.
  destruct (linear_part t1) as [[a1 c1] [b1 d1]].
  destruct (linear_part t2) as [[a2 c2] [b2 d2]].
  cbn [fst snd linear_apply].
  destruct IH1 as [[-> ->]|[-> ->]], IH2 as [[-> ->]|[-> ->]];
    first [left; split; ring | right; split; ring].
Qed.

Lemma is_ortho_axes t : is_ortho t = true <-> axes_to_axes (linear_part t).
Proof.
  unfold is_ortho, axes_to_axes. pose proof (linear_part_similar t) as H.
  destruct (linear_part t) as [[a c] [b d]]. cbn [fst].
  rewrite orb_true_iff, !Z.eqb_eq. lia.
Qed.

(** Displacements, mirrors and rotations onto an axis do not change whether
    a transformation is orthogonal. *)
Lemma is_ortho_factor t :
  (forall d, is_ortho (DCplxTrans_mul (DCplxTrans_disp d) t) = is_ortho t) /\
  (forall f, is_ortho (DCplxTrans_mul (DCplxTrans_fixpoint f) t) = is_ortho t) /\
  (forall x y, (x = 0 /\ y <> 0) \/ (y = 0 /\ x <> 0) ->
     is_ortho (DCplxTrans_mul (DCplxTrans_rot x y) t) = is_ortho t).
Proof.
  unfold is_ortho. cbn [linear_part]. unfold linear_mul.
  destruct (linear_part t) as [[a c] [b d]]. cbn [fst snd linear_apply].
  split; [|split].
  - intros _. f_equal; f_equal; lia.
  - intros [|]; cbn [fst snd linear_apply].
    + replace (1 * a + 0 * c) with a by lia.
      replace (0 * a + -1 * c) with (- c) by lia.
      f_equal. apply eq_iff_eq_true. rewrite !Z.eqb_eq. lia.
    + replace (-1 * a + 0 * c) with (- a) by lia.
      replace (0 * a + 1 * c) with c by lia.
      f_equal. apply eq_iff_eq_true. rewrite !Z.eqb_eq. lia.
  - intros x y [[-> Hy]|[-> Hx]].
    + replace (0 * a + - y * c) with (- y * c) by lia.
      replace (y * a + 0 * c) with (y * a) by lia.
      rewrite orb_comm. f_equal; apply eq_iff_eq_true;
        rewrite !Z.eqb_eq; nia.
    + replace (x * a + - 0 * c) with (x * a) by lia.
      replace (0 * a + x * c) with (x * c) by lia.
      f_equal; apply eq_iff_eq_true; rewrite !Z.eqb_eq; nia.
Qed.

(** C9.  A command [C n T x y;] read by the loop at scale [sf] logs the
    command, looks up or makes the cell of the id [n] and inserts, into the
    cell being read, the instance of that cell whose transformation is the
    displacement by (x * sf, y * sf), the products taken in [double]; it is
    stored as a simple transformation.  Every [C] command that returns has
    read an id, a transformation and a semicolon and leaves exactly the
    state [called] of them: the instance inserted is the one of the cell of
    the id with the transformation read, stored as a simple transformation
    when the composed transformation is orthogonal without magnification
    and as a complex one otherwise.  [cell_of_id] gives the cell bound to
    the id, a new cell at the end of the cell table when the id is new.
    Whether a transformation is orthogonal is decided on the composed
    transformation: it is orthogonal iff its linear part turns each axis
    onto an axis, and displacements, mirrors and rotations onto an axis do
    not change that. *)
Theorem instance_transformation :
  (forall fuel cell sf level l s blanks tn blanks1 tx ty blanks2 rest n x y,
     all_blank blanks -> number_text n tn -> all_blank blanks1 ->
     signed_text x tx -> signed_text y ty -> ends_number ty ->
     all_blank blanks2 ->
     let trans :=
       DCplxTrans_mul
         (DCplxTrans_disp {| px := int_mul x sf; py := int_mul y sf |})
         DCplxTrans_unit in
     read_cell_loop (S (S (S fuel))) cell sf level l
       (set_stream
          (blanks ++ "C"%char :: tn ++ blanks1 ++ "T"%char :: tx ++ ty
           ++ blanks2 ++ ";"%char :: rest) s)
     = read_cell_loop (S (S fuel)) cell sf level
         (set_array 0 0 0 0 (incr_insts l))
         (called cell sf l n trans rest s) /\
     forall ci,
       inst_trans (make_instance sf (incr_insts l) ci trans) = SimpleTrans trans) /\
  (forall fuel cell sf l s l' s',
     command_C fuel cell sf l s = Returns l' s' ->
     exists n0 str1 trans str2 str3,
       read_integer (m_stream s) = Returns n0 str1 /\
       read_transformation fuel sf DCplxTrans_unit str1 = Returns trans str2 /\
       expect_semi str2 = Returns tt str3 /\
       l' = set_array 0 0 0 0 (incr_insts l) /\
       s' = called cell sf l (wrap_uint n0) trans str3 s /\
       forall ci,
         inst_cell (make_instance sf (incr_insts l) ci trans) = ci /\
         inst_trans (make_instance sf (incr_insts l) ci trans)
         = if is_ortho trans && negb (is_mag trans) then SimpleTrans trans
           else ComplexTrans trans) /\
  (forall n name s,
     let '(ci, s1) := cell_of_id n name s in
     m_cells_by_id s1 !! n = Some ci /\
     match m_cells_by_id s !! n with
     | Some c => ci = c /\ s1 = s
     | None =>
         ci = length (cells (layout s)) /\
         cells (layout s1) = cells (layout s) ++ [Some (new_cell name)]
     end) /\
  (forall t,
     (is_ortho t = true <-> axes_to_axes (linear_part t)) /\
     (forall d, is_ortho (DCplxTrans_mul (DCplxTrans_disp d) t) = is_ortho t) /\
     (forall f, is_ortho (DCplxTrans_mul (DCplxTrans_fixpoint f) t) = is_ortho t) /\
     (forall x y, (x = 0 /\ y <> 0) \/ (y = 0 /\ x <> 0) ->
        is_ortho (DCplxTrans_mul (DCplxTrans_rot x y) t) = is_ortho t)).
Proof.
  split; [|split; [|split]].
  4:{ intros t. split; [apply is_ortho_axes|apply is_ortho_factor]. }
  - intros fuel cell sf level l s blanks tn blanks1 tx ty blanks2 rest n x y
      Hb Hn Hb1 Hx Hy Hty Hb2 trans.
    split.
    + pose proof (number_text_range n tn Hn) as Hrange.
      assert (Hw : wrap_uint n = n).
      { unfold wrap_uint. apply Z.mod_small. unfold INT_MAX in Hrange. lia. }
      rewrite <- Hw at 1. clear Hw.
      apply (read_cell_loop_call (S (S fuel)) cell sf level l s blanks _ n
               (blanks1 ++ "T"%char :: tx ++ ty ++ blanks2 ++ ";"%char :: rest)
               trans (";"%char :: rest) rest).
      * exact Hb.
      * apply read_integer_number; [exact Hn|].
        now apply blanks_end_number.
      * apply (read_transformation_T fuel sf blanks1 _ x
                 (ty ++ blanks2 ++ ";"%char :: rest) y
                 (blanks2 ++ ";"%char :: rest)).
        -- exact Hb1.
        -- apply read_sinteger_number; [exact Hx|].
           apply ends_number_app; [eapply signed_text_nonempty; exact Hy|exact Hty].
        -- apply read_sinteger_number; [exact Hy|].
           now apply blanks_end_number.
        -- now rewrite (test_semi_blanks blanks2 (";"%char :: rest)).
      * reflexivity.
    + intros ci. unfold make_instance, classify_trans.
      destruct ((0 <? nx (incr_insts l)) || (0 <? ny (incr_insts l)));
        reflexivity.
  - intros fuel cell sf l s l' s' H.
    destruct (command_C_returns _ _ _ _ _ _ _ H)
      as (n0 & str1 & trans & str2 & str3 & Hn & Ht & Hs & Hl & Hs').
    exists n0, str1, trans, str2, str3.
    repeat (split; [assumption|]).
    intros ci. unfold make_instance, classify_trans.
    destruct ((0 <? nx (incr_insts l)) || (0 <? ny (incr_insts l)));
      split; reflexivity.
  - intros n name s. unfold cell_of_id.
    destruct (m_cells_by_id s !! n) as [c|] eqn:Hc.
    + repeat split; assumption.
    + unfold add_cell. cbn [m_cells_by_id set_cells_by_id set_layout layout].
      split; [apply lookup_insert_eq|]. split; reflexivity.
Qed.

Lemma instance_transformation_witness :
  read_cell_loop 5 0 10 0 init_locals (default_reader " C 2 T 3 -4; E")
  = read_cell_loop 4 0 10 0 (set_array 0 0 0 0 (incr_insts init_locals))
      (called 0 10 init_locals 2
         (DCplxTrans_mul (DCplxTrans_disp {| px := 30; py := -40 |})
            DCplxTrans_unit)
         (list_ascii_of_string " E") (default_reader "")) /\
  stored_transformations (do_read 20 instance_example)
  = [SimpleTrans
       (DCplxTrans_mul (DCplxTrans_rot 1 1)
          (DCplxTrans_mul (DCplxTrans_rot 1 1) DCplxTrans_unit));
     SimpleTrans
       (DCplxTrans_mul (DCplxTrans_disp {| px := 30; py := -40 |})
          DCplxTrans_unit);
     ComplexTrans (DCplxTrans_mul (DCplxTrans_rot 1 1) DCplxTrans_unit)].
Proof.
  destruct instance_transformation as (HT & _). split.
  - refine (proj1 (HT 2%nat 0%nat 10%float 0 init_locals (default_reader "")
                     [" "%char] (list_ascii_of_string " 2") [" "%char]
                     (list_ascii_of_string " 3") (list_ascii_of_string " -4") []
                     (list_ascii_of_string " E") 2 3 (-4) _ _ _ _ _ _ _)).
    + repeat constructor.
    + exists [" "%char], "2"%char, []. repeat split; try reflexivity.
      * repeat constructor.
      * repeat constructor.
      * vm_compute. discriminate.
    + repeat constructor.
    + exists [" "%char], false, "3"%char, [].
      repeat split; try reflexivity; try (repeat constructor).
      vm_compute. discriminate.
    + exists [" "%char], true, "4"%char, [].
      repeat split; try reflexivity; try (repeat constructor).
      vm_compute. discriminate.
    + reflexivity.
    + constructor.
  - vm_compute. reflexivity.
Defined.

(** *** The cell name on an error in a definition *)

Lemma bind_throws_inv {S A B} (m : Comp S A) (k : A -> Comp S B) s msg s' :
  bind m k s = Throws msg s' ->
  m s = Throws msg s' \/ exists a s1, m s = Returns a s1 /\ k a s1 = Throws msg s'.
Proof.
  unfold bind. destruct (m s) as [a s1|msg1 s1|]; intros H.
  - right. eauto.
  - left. injection H as -> ->. reflexivity.
  - discriminate H.
Qed.

Lemma lex_throws {A} (m : Lex A) s msg s' :
  lex m s = Throws msg s' ->
  exists rest, m (m_stream s) = Throws msg rest /\ s' = set_stream rest s.
Proof.
  unfold lex. destruct (m (m_stream s)); intros H; try discriminate H.
  injection H as <- <-. eauto.
Qed.

(** An error of a [DS] command arises before the nested cell is read, and
    then the command has logged nothing and the cell name is the old one,
    or it is the error of the nested [read_cell], in the state that read
    left. *)
Lemma command_DS_throws rc sf level l s msg s' :
  command_DS rc sf level l s = Throws msg s' ->
  (cmd_log s' = cmd_log s /\ m_cellname s' = m_cellname s /\
   m_cells_by_id s' = m_cells_by_id s /\ layout s' = layout s) \/
  exists n ci sf' s1,
    cmd_log s1 = cmd_log s ++ [CmdDS n] /\
    m_cellname s1 = ("C" +:+ to_string n)%string /\
    m_cells_by_id s1 !! n = Some ci /\
    rc ci sf' (wrap_int (level + 1)) s1 = Throws msg s'.
Proof.
  unfold command_DS. intros H.
  apply bind_throws_inv in H as [H|(n0 & s1 & Hn & H)].
  { left. apply lex_throws in H as (rest & _ & ->). repeat split. }
  apply lex_returns in Hn as (r1 & Hn & ->). cbv zeta in H.
  apply bind_throws_inv in H as [H|(semi & s2 & Hsemi & H)].
  { left. apply lex_throws in H as (rest & _ & ->). repeat split. }
  apply lex_returns in Hsemi as (r2 & Hsemi & ->).
  apply bind_throws_inv in H as [H|(scale & s3 & Hscale & H)].
  { left. destruct (negb semi); [|discriminate H].
    apply bind_throws_inv in H as [H|(d1 & s3 & Hd1 & H)].
    { apply lex_throws in H as (rest & _ & ->). repeat split. }
    apply lex_returns in Hd1 as (r3 & Hd1 & ->).
    apply bind_throws_inv in H as [H|(d2 & s4 & Hd2 & H)].
    { apply lex_throws in H as (rest & _ & ->). repeat split. }
    discriminate H. }
  assert (Hs3 : cmd_log s3 = cmd_log s /\ m_cellname s3 = m_cellname s /\
                m_cells_by_id s3 = m_cells_by_id s /\ layout s3 = layout s).
  { destruct (negb semi).
    - run_more. repeat split.
    - run_more. repeat split. }
  destruct Hs3 as (Hlog3 & Hname3 & Hids3 & Hlay3). clear Hscale.
  destruct scale as [denom divider].
  apply bind_throws_inv in H as [H|([] & s4 & Hsemi2 & H)].
  { left. apply lex_throws in H as (rest & _ & ->). repeat split; assumption. }
  apply lex_returns in Hsemi2 as (r4 & Hsemi2 & ->).
  apply bind_throws_inv in H as [H|([] & s5 & Hlog & H)]; [discriminate H|].
  unfold log_command in Hlog. apply modify_returns in Hlog. subst s5.
  apply bind_throws_inv in H as [H|(outer & s6 & Hswap & H)]; [discriminate H|].
  apply swap_cellname_returns in Hswap as [-> ->].
  apply bind_throws_inv in H as [H|(s7 & s8 & Hget & H)]; [discriminate H|].
  apply get_state_returns in Hget as [-> ->].
  right. exists (wrap_uint n0).
  apply bind_throws_inv in H as [H|(ci & s9 & Hci & H)].
  { exfalso. revert H.
    cbn [m_cells_by_id set_cellname set_cmd_log set_stream].
    destruct (m_cells_by_id s3 !! wrap_uint n0); [discriminate|].
    unfold add_cell. discriminate. }
  apply bind_throws_inv in H as [H|(b & s10 & Hrc & H)].
  2:{ exfalso. apply bind_throws_inv in H as [H|(? & ? & _ & H)];
        discriminate H. }
  exists ci. eexists _, s9. split; [|split; [|split; [|exact H]]].
  - revert Hci. cbn [m_cells_by_id set_cellname set_cmd_log set_stream].
    destruct (m_cells_by_id s3 !! wrap_uint n0);
      [|unfold add_cell]; intros Hci; run_more; cbn; now rewrite Hlog3.
  - revert Hci. cbn [m_cells_by_id set_cellname set_cmd_log set_stream].
    destruct (m_cells_by_id s3 !! wrap_uint n0);
      [|unfold add_cell]; intros Hci; run_more; reflexivity.
  - revert Hci. cbn [m_cells_by_id set_cellname set_cmd_log set_stream].
    destruct (m_cells_by_id s3 !! wrap_uint n0) eqn:Hid;
      [|unfold add_cell]; intros Hci; run_more; cbn.
    + exact Hid.
    + apply lookup_insert_eq.
Qed.

(** C6.  When a [DS] command returns, [m_cellname] holds what it held
    before the command.  There is no restore on the way of an error (see
    [cellname_lost_on_error]): a [DS] command ends in an error either while
    its header is read, before the names are swapped, and then [m_cellname]
    and the log are as before the command; or because the nested
    [read_cell], entered with the name [C<n>] of the nested cell, ends in
    that error, and then the reader is left in the very state in which the
    nested read raised it, whatever [m_cellname] holds there. *)
Theorem cellname_restored_on_return rc sf level l s :
  (forall l' s',
     command_DS rc sf level l s = Returns l' s' ->
     m_cellname s' = m_cellname s) /\
  (forall msg s',
     command_DS rc sf level l s = Throws msg s' ->
     (m_cellname s' = m_cellname s /\ cmd_log s' = cmd_log s) \/
     exists n ci sf' s1,
       cmd_log s1 = cmd_log s ++ [CmdDS n] /\
       m_cellname s1 = ("C" +:+ to_string n)%string /\
       m_cells_by_id s1 !! n = Some ci /\
       rc ci sf' (wrap_int (level + 1)) s1 = Throws msg s').
Proof.
  split.
  - intros l' s' H. apply command_DS_definition in H as [H _].
    destruct H as (n & ci & sf' & s1 & b & s2 & _ & _ & _ & ->). reflexivity.
  - intros msg s' H. apply command_DS_throws in H.
    destruct H as [(Hlog & Hname & _)|H]; [left; now split|right; exact H].
Qed.

Lemma cellname_restored_on_return_witness :
  m_cellname (state_of (command_DS (read_cell 10) 10 0 init_locals ds_example)
                ds_example)
  = "{CIF top level}"%string /\
  exists n ci sf' s1,
    cmd_log s1 = cmd_log nested_ds_example ++ [CmdDS n] /\
    m_cellname s1 = ("C" +:+ to_string n)%string /\
    m_cells_by_id s1 !! n = Some ci /\
    read_cell 10 ci sf' (wrap_int (0 + 1)) s1
    = Throws "Unexpected end of file"
        (state_of (command_DS (read_cell 10) 10 0 init_locals nested_ds_example)
           nested_ds_example).
Proof.
  split.
  - apply (proj1 (cellname_restored_on_return (read_cell 10) 10 0 init_locals
                    ds_example) init_locals).
    vm_compute. reflexivity.
  - assert (Hrun : command_DS (read_cell 10) 10 0 init_locals nested_ds_example
                   = Throws "Unexpected end of file"
                       (state_of (command_DS (read_cell 10) 10 0 init_locals
                                    nested_ds_example) nested_ds_example))
      by (vm_compute; reflexivity).
    destruct (proj2 (cellname_restored_on_return (read_cell 10) 10 0 init_locals
                       nested_ds_example) _ _ Hrun) as [[Hname _]|H].
    + vm_compute in Hname. discriminate Hname.
    + exact H.
Defined.

(** *** The commands a cell counts *)




















(** *** The commands of a cell and its counters *)






Lemma own_counts_same l l' :
  same_counts l l' -> own_counts l l' [].
Proof. intros (Hi & Hs & Hl). repeat split; assumption. Qed.




Lemma own_commands_definition n inner delta :
  closes 1 inner ->
  own_commands 0 (CmdDS n :: inner ++ delta) = own_commands 0 delta.
Proof. intros [_ H]. cbn [own_commands]. apply H. lia. Qed.










